(** * Identity and access core of the application hub

    A shallow embedding of the request handlers of
    [backend/src/core/rate_limit.py], [backend/src/api/oauth.py],
    [backend/src/api/applications.py], [backend/src/api/admin.py] and
    [backend/src/services/audit_service.py], with the properties the
    specification states about them.

    Conventions.  A Python [dict] is a [gmap]; a table of the relational
    store is a list of rows in storage order, or a [gmap] when it is
    only read by its unique key; [time.time()] is a rational number of
    seconds; a handler runs in a database session whose changes reach
    the store when it commits.  The embedding comes first, module by
    module; the properties follow. *)

From Stdlib Require Import ZArith QArith Lqa Lia Ascii String List.
From stdpp Require Import gmap strings list.

Local Open Scope string_scope.
Local Open Scope list_scope.
Local Open Scope Z_scope.

(** ** Python string operations used by the handlers *)

Module Py.

(** Characters [str.strip()] removes, among the code points below 256. *)
Definition is_space (c : ascii) : bool :=
  let n := N_of_ascii c in
  ((9 <=? n) && (n <=? 13) || (28 <=? n) && (n <=? 32)
   || (n =? 133) || (n =? 160))%N.

Fixpoint lstrip (s : string) : string :=
  match s with
  | String c s' => if is_space c then lstrip s' else s
  | EmptyString => EmptyString
  end.

Fixpoint rstrip (s : string) : string :=
  match s with
  | EmptyString => EmptyString
  | String c s' =>
      match rstrip s' with
      | EmptyString => if is_space c then EmptyString else String c EmptyString
      | r => String c r
      end
  end.

Definition strip (s : string) : string := rstrip (lstrip s).

(** [s.split(',')[0]]. *)
Fixpoint split_comma_head (s : string) : string :=
  match s with
  | EmptyString => EmptyString
  | String c s' =>
      if Ascii.eqb c "," then EmptyString else String c (split_comma_head s')
  end.

(** [s.startswith(p)]. *)
Definition startswith (s p : string) : bool := String.prefix p s.

(** [s[:n]]. *)
Definition take (n : nat) (s : string) : string := String.substring 0 n s.

(** Truthiness of a string: non-empty. *)
Definition truthy (s : string) : bool :=
  match s with EmptyString => false | _ => true end.

(** Truthiness of an optional string: present and non-empty. *)
Definition truthy_opt (s : option string) : bool :=
  match s with Some s' => truthy s' | None => false end.

(** [s or ''] on an optional string. *)
Definition or_empty (s : option string) : string :=
  match s with Some (String c s') => String c s' | _ => EmptyString end.

End Py.

(** ** Rate limiter ([core/rate_limit.py]) *)

Module RateLimit.
Import Py.

(** [time.time()]: seconds since the epoch.  The code reads a double; the
    model takes its exact value, and [RateLimitClient.epoch_reading]
    names the readings on which the subtractions of the code are
    exact, so that code and model compute the same. *)
Definition Time := Q.

(** Python's [int(x)] on a real number: truncation toward zero. *)
Definition py_int (q : Q) : Z := Z.quot (Qnum q) (Zpos (Qden q)).

(** [a > b] on clock values. *)
Definition Qgtb (a b : Q) : bool := negb (Qle_bool a b).

(** [self.limits]: limit key to [(max_requests, window_seconds)]. *)
Definition limits : list (string * (Z * Z)) :=
  [ ("/auth/", (10, 60));
    ("/oauth/token", (20, 60));
    ("/api/admin/", (100, 60));
    ("default", (200, 60)) ].

(** [self.limits[limit_key]]; [None] stands for the [KeyError]. *)
Fixpoint limits_get (l : list (string * (Z * Z))) (k : string) : option (Z * Z) :=
  match l with
  | [] => None
  | (k', v) :: l' => if String.eqb k k' then Some v else limits_get l' k
  end.

(** [self.requests]: client IP to limit key to [(count, window_start)]. *)
Abbreviation Bucket := (gmap string (Z * Q)).
Abbreviation Requests := (gmap string (gmap string (Z * Q))).

(** [self.requests[client_ip]] on a [defaultdict(dict)]: the dictionary
    stored for the IP, the empty one when there is none. *)
Definition bucket_of (requests : Requests) (client_ip : string) : Bucket :=
  default ∅ (requests !! client_ip).

(** The entry the limiter keeps for an IP and a limit key. *)
Definition entry (requests : Requests) (client_ip limit_key : string) : option (Z * Q) :=
  bucket_of requests client_ip !! limit_key.

(** [_check_rate_limit(client_ip, limit_key)] at clock reading [now];
    returns [((is_allowed, retry_after), requests')]. *)
Definition _check_rate_limit (now : Time) (client_ip limit_key : string)
    (requests : Requests) : option ((bool * Z) * Requests) :=
  match limits_get limits limit_key with
  | None => None
  | Some (max_requests, window_seconds) =>
    let bucket := bucket_of requests client_ip in
    match bucket !! limit_key with
    | None =>
        Some ((true, 0), <[client_ip := <[limit_key := (1, now)]> bucket]> requests)
    | Some (count, window_start) =>
        if Qgtb (now - window_start) (inject_Z window_seconds) then
          Some ((true, 0), <[client_ip := <[limit_key := (1, now)]> bucket]> requests)
        else if count <? max_requests then
          Some ((true, 0),
                <[client_ip := <[limit_key := (count + 1, window_start)]> bucket]> requests)
        else
          Some ((false,
                 py_int (inject_Z window_seconds - (now - window_start)) + 1),
                requests)
    end
  end.

(** [max(limit[1] for limit in self.limits.values())]. *)
Definition max_window : Z :=
  fold_right Z.max 0 (map (fun kv => snd (snd kv)) limits).

(** One bucket after the sweep: an entry goes when
    [now - window_start > max_window * 2]. *)
Definition sweep_bucket (now : Time) (bucket : Bucket) : Bucket :=
  omap (fun e : Z * Q =>
          if Qgtb (now - snd e) (inject_Z (max_window * 2)) then None else Some e)
       bucket.

(** [_cleanup_old_entries()] at clock reading [now]: expired entries are
    deleted, then the IPs left with an empty dictionary. *)
Definition _cleanup_old_entries (now : Time) (requests : Requests) : Requests :=
  omap (fun bucket : Bucket =>
          let bucket' := sweep_bucket now bucket in
          if decide (bucket' = ∅) then None else Some bucket')
       requests.

(** What the middleware reads of a request, and of the clock while it
    serves it: [now] is the reading of [_check_rate_limit]; [sweep] is
    [Some t] when [hash(client_ip + str(time.time())) % 100 == 0] holds
    and the sweep then reads [t]. *)
Record Request := {
  path : string;
  x_forwarded_for : option string;
  client_host : option string;
  now : Time;
  sweep : option Time
}.

(** [_get_client_ip(request)]. *)
Definition _get_client_ip (request : Request) : string :=
  match x_forwarded_for request with
  | Some (String c f) => strip (split_comma_head (String c f))
  | _ =>
      match client_host request with
      | Some host => host
      | None => "unknown"
      end
  end.

(** [_get_limit_key(path)]. *)
Definition _get_limit_key (path : string) : string :=
  if startswith path "/auth/" then "/auth/"
  else if String.eqb path "/oauth/token" then "/oauth/token"
  else if startswith path "/api/admin/" then "/api/admin/"
  else "default".

(** Paths the middleware lets through without counting. *)
Definition exempt (path : string) : bool :=
  existsb (String.eqb path) ["/"; "/health"; "/docs"; "/openapi.json"].

(** What [dispatch] does with a request: hand it to the application, or
    raise [HTTPException(429)] with a [Retry-After] header. *)
Inductive Outcome :=
| CallNext
| TooManyRequests (retry_after : Z).

(** [dispatch(request, call_next)]; [None] stands for the [KeyError] of
    [_check_rate_limit]. *)
Definition dispatch (request : Request) (requests : Requests)
    : option (Outcome * Requests) :=
  if exempt (path request) then Some (CallNext, requests)
  else
    let client_ip := _get_client_ip request in
    let limit_key := _get_limit_key (path request) in
    match _check_rate_limit (now request) client_ip limit_key requests with
    | None => None
    | Some ((is_allowed, retry_after), requests') =>
        if negb is_allowed then Some (TooManyRequests retry_after, requests')
        else
          match sweep request with
          | Some t => Some (CallNext, _cleanup_old_entries t requests')
          | None => Some (CallNext, requests')
          end
    end.

(** A sequence of requests served one after the other: the outcomes, in
    order, and the table left behind. *)
Fixpoint serve (rs : list Request) (requests : Requests)
    : option (list Outcome * Requests) :=
  match rs with
  | [] => Some ([], requests)
  | r :: rs' =>
      match dispatch r requests with
      | None => None
      | Some (o, requests') =>
          match serve rs' requests' with
          | None => None
          | Some (os, requests'') => Some (o :: os, requests'')
          end
      end
  end.

(** *** The limiter seen entry by entry *)

(** What [_check_rate_limit] answers and stores, from the entry alone. *)
Definition step_entry (now : Time) (max_requests window_seconds : Z)
    (e : option (Z * Q)) : (bool * Z) * option (Z * Q) :=
  match e with
  | None => ((true, 0), Some (1, now))
  | Some (count, window_start) =>
      if Qgtb (now - window_start) (inject_Z window_seconds) then
        ((true, 0), Some (1, now))
      else if count <? max_requests then
        ((true, 0), Some (count + 1, window_start))
      else
        ((false, py_int (inject_Z window_seconds - (now - window_start)) + 1),
         Some (count, window_start))
  end.

(** What the sweep does to one entry. *)
Definition sweep_entry (now : Time) (e : Z * Q) : option (Z * Q) :=
  if Qgtb (now - snd e) (inject_Z (max_window * 2)) then None else Some e.

(** The outcome [dispatch] derives from the limiter's answer. *)
Definition outcome_of (res : bool * Z) : Outcome :=
  if fst res then CallNext else TooManyRequests (snd res).

(** What serving [request] does to an entry once the limiter has
    answered: the sweep runs only after an allowed request. *)
Definition after_sweep (request : Request) (is_allowed : bool)
    (e : option (Z * Q)) : option (Z * Q) :=
  if is_allowed then
    match sweep request with
    | Some t => e ≫= sweep_entry t
    | None => e
    end
  else e.

(** A request for the token endpoint that the limiter attributes to [ip]. *)
Definition token_request (ip : string) (r : Request) : Prop :=
  path r = "/oauth/token" /\ _get_client_ip r = ip.

(** A request whose clock readings fall in the window opened at [t0]. *)
Definition in_window (t0 : Time) (r : Request) : Prop :=
  (now r - t0 <= 60)%Q /\
  forall t, sweep r = Some t -> (t - t0 <= 120)%Q.

(** An entry that a request arriving at [t] or later starts afresh:
    there is none, or its window is over. *)
Definition lapsed (t : Time) (e : option (Z * Q)) : Prop :=
  match e with
  | None => True
  | Some (_, window_start) => (60 < t - window_start)%Q
  end.

(** The [Retry-After] value of an outcome lies in [lo .. hi]. *)
Definition retry_after_within (lo hi : Z) (o : Outcome) : Prop :=
  match o with
  | TooManyRequests r => lo <= r <= hi
  | CallNext => False
  end.

(** A POST to [/oauth/token] from a peer address, with no forwarding
    header. *)
Definition token_post (host : string) (t : Time) (sw : option Time) : Request :=
  {| path := "/oauth/token"; x_forwarded_for := None;
     client_host := Some host; now := t; sweep := sw |}.

(** *** Two runs of the limiter *)

(** The request is attributed to client IP [A]. *)
Definition from (A : string) (r : Request) : bool :=
  String.eqb (_get_client_ip r) A.

(** The outcomes of the requests of [A], in order. *)
Fixpoint project (A : string) (rs : list Request) (os : list Outcome)
    : list Outcome :=
  match rs, os with
  | r :: rs', o :: os' =>
      if from A r then o :: project A rs' os' else project A rs' os'
  | _, _ => []
  end.

(** The clock readings of a run never go back, starting from [t]; an
    exempt request reads no clock. *)
Fixpoint clock_from (t : Time) (rs : list Request) : Prop :=
  match rs with
  | [] => True
  | r :: rs' =>
      if exempt (path r) then clock_from t rs'
      else
        (t <= now r)%Q /\
        match sweep r with
        | Some t' => (now r <= t')%Q /\ clock_from t' rs'
        | None => clock_from (now r) rs'
        end
  end.

(** The clock reading a run has reached once [r] is served. *)
Definition clock_after (r : Request) : Time :=
  match sweep r with Some t => t | None => now r end.

Definition monotone_clock (rs : list Request) : Prop :=
  exists t, clock_from t rs.

(** Two tables that no request of [A] arriving at [t] or later can tell
    apart: key by key, the entries of [A] are the same, or both have
    lapsed. *)
Definition agree (A : string) (t : Time) (s1 s2 : Requests) : Prop :=
  forall k,
    entry s1 A k = entry s2 A k \/
    (lapsed t (entry s1 A k) /\ lapsed t (entry s2 A k)).

End RateLimit.

(** ** The limiter as the client sees it *)

Module RateLimitClient.
Import Py RateLimit.

(** What the claims read of a response: the status code and the
    [Retry-After] header, if any. *)
Record ClientResponse := {
  status_code : Z;
  retry_after_header : option Z
}.

(** [RateLimitMiddleware] is a [BaseHTTPMiddleware].  Starlette runs the
    middlewares of an application inside its [ServerErrorMiddleware] and
    outside the [ExceptionMiddleware] that turns an [HTTPException] into
    the response it describes.  The [HTTPException(429)] that [dispatch]
    raises is therefore not answered as a 429: it passes the exception
    handlers by and reaches [ServerErrorMiddleware], which answers
    [500 Internal Server Error] with none of the exception's headers.
    A request handed to [call_next] is answered by the application. *)
Definition client_response (app_response : ClientResponse) (o : Outcome)
    : ClientResponse :=
  match o with
  | CallNext => app_response
  | TooManyRequests _ =>
      {| status_code := 500; retry_after_header := None |}
  end.

(** The responses of a run, request by request; [app] is what the
    application answers to a request it is handed. *)
Fixpoint client_responses (app : Request -> ClientResponse)
    (rs : list Request) (os : list Outcome) : list ClientResponse :=
  match rs, os with
  | r :: rs', o :: os' =>
      client_response (app r) o :: client_responses app rs' os'
  | _, _ => []
  end.

(** [time.time()] returns a double.  A reading of the present epoch, a
    double in [2^30, 2^31) (the years 2004 to 2038), is a multiple of
    [2^-22]; on two such readings the subtractions of the limiter,
    [now - window_start] and [window_seconds - elapsed], are exact in
    double arithmetic, so that the code computes what the model computes
    on the rational values. *)
Definition epoch_reading (t : Time) : bool :=
  Qle_bool (inject_Z (2 ^ 30)) t
  && negb (Qle_bool (inject_Z (2 ^ 31)) t)
  && Pos.eqb (Qden (Qred (t * inject_Z (2 ^ 22)))) 1.

(** Both clock readings of a request are of the present epoch. *)
Definition epoch_clock (r : Request) : bool :=
  epoch_reading (now r)
  && match sweep r with Some t => epoch_reading t | None => true end.

(** The window start the table keeps for the entry, if any, is a reading
    of the present epoch. *)
Definition epoch_entry (e : option (Z * Q)) : bool :=
  match e with Some (_, window_start) => epoch_reading window_start | None => true end.

End RateLimitClient.

(** ** SHA-256 and base64url

    The token endpoint checks a PKCE verifier with [hashlib.sha256] and
    [base64.urlsafe_b64encode] with the padding removed.  Both are
    written out here (FIPS 180-4 and RFC 4648, section 5) on bytes as
    integers below 256 and 32-bit words as integers below [2^32]. *)

Module Sha256.

Definition w32 (x : Z) : Z := x mod 2 ^ 32.

Definition add32 (x y : Z) : Z := w32 (x + y).

Definition rotr (n x : Z) : Z :=
  Z.lor (Z.shiftr x n) (w32 (Z.shiftl x (32 - n))).

Definition not32 (x : Z) : Z := Z.lxor x (2 ^ 32 - 1).

Definition Ch (x y z : Z) : Z := Z.lxor (Z.land x y) (Z.land (not32 x) z).

Definition Maj (x y z : Z) : Z :=
  Z.lxor (Z.lxor (Z.land x y) (Z.land x z)) (Z.land y z).

Definition Sigma0 (x : Z) : Z := Z.lxor (Z.lxor (rotr 2 x) (rotr 13 x)) (rotr 22 x).
Definition Sigma1 (x : Z) : Z := Z.lxor (Z.lxor (rotr 6 x) (rotr 11 x)) (rotr 25 x).
Definition sigma0 (x : Z) : Z := Z.lxor (Z.lxor (rotr 7 x) (rotr 18 x)) (Z.shiftr x 3).
Definition sigma1 (x : Z) : Z := Z.lxor (Z.lxor (rotr 17 x) (rotr 19 x)) (Z.shiftr x 10).

(** Round constants: the first 32 bits of the fractional parts of the
    cube roots of the first 64 primes. *)
Definition K : list Z := [
    1116352408; 1899447441; 3049323471; 3921009573;
    961987163; 1508970993; 2453635748; 2870763221;
    3624381080; 310598401; 607225278; 1426881987;
    1925078388; 2162078206; 2614888103; 3248222580;
    3835390401; 4022224774; 264347078; 604807628;
    770255983; 1249150122; 1555081692; 1996064986;
    2554220882; 2821834349; 2952996808; 3210313671;
    3336571891; 3584528711; 113926993; 338241895;
    666307205; 773529912; 1294757372; 1396182291;
    1695183700; 1986661051; 2177026350; 2456956037;
    2730485921; 2820302411; 3259730800; 3345764771;
    3516065817; 3600352804; 4094571909; 275423344;
    430227734; 506948616; 659060556; 883997877;
    958139571; 1322822218; 1537002063; 1747873779;
    1955562222; 2024104815; 2227730452; 2361852424;
    2428436474; 2756734187; 3204031479; 3329325298 ].

(** Initial hash value. *)
Definition H0 : list Z := [
    1779033703; 3144134277; 1013904242; 2773480762;
    1359893119; 2600822924; 528734635; 1541459225 ].

(** The bytes of a string, one per character. *)
Fixpoint bytes_of_string (s : string) : list Z :=
  match s with
  | EmptyString => []
  | String c s' => Z.of_N (N_of_ascii c) :: bytes_of_string s'
  end.

(** [n] as [k] bytes, most significant first. *)
Fixpoint be_bytes (k : nat) (n : Z) : list Z :=
  match k with
  | O => []
  | S k' => (Z.shiftr n (8 * Z.of_nat k')) mod 256 :: be_bytes k' n
  end.

(** The message, a [1] bit, zeros up to 56 modulo 64 bytes, then the bit
    length on 8 bytes. *)
Definition pad (msg : list Z) : list Z :=
  let len := Z.of_nat (length msg) in
  let zeros := Z.to_nat ((55 - len) mod 64) in
  msg ++ [128] ++ repeat 0 zeros ++ be_bytes 8 (8 * len).

(** Big-endian 32-bit words of a byte string. *)
Fixpoint words (fuel : nat) (bs : list Z) : list Z :=
  match fuel, bs with
  | S fuel', b0 :: b1 :: b2 :: b3 :: bs' =>
      (b0 * 2 ^ 24 + b1 * 2 ^ 16 + b2 * 2 ^ 8 + b3) :: words fuel' bs'
  | _, _ => []
  end.

(** The message schedule: 16 words of the block, extended to 64. *)
Fixpoint schedule (n : nat) (w : list Z) : list Z :=
  match n with
  | O => w
  | S n' =>
      let i := length w in
      let at_ k := nth (i - k) w 0 in
      schedule n'
        (w ++ [add32 (add32 (sigma1 (at_ 2%nat)) (at_ 7%nat))
                     (add32 (sigma0 (at_ 15%nat)) (at_ 16%nat))])
  end.

Record Regs := { ra : Z; rb : Z; rc : Z; rd : Z; re : Z; rf : Z; rg : Z; rh : Z }.

Definition round (r : Regs) (kw : Z * Z) : Regs :=
  let t1 := add32 (add32 (add32 (rh r) (Sigma1 (re r)))
                         (add32 (Ch (re r) (rf r) (rg r)) (fst kw))) (snd kw) in
  let t2 := add32 (Sigma0 (ra r)) (Maj (ra r) (rb r) (rc r)) in
  {| ra := add32 t1 t2; rb := ra r; rc := rb r; rd := rc r;
     re := add32 (rd r) t1; rf := re r; rg := rf r; rh := rg r |}.

Definition regs_of (h : list Z) : Regs :=
  {| ra := nth 0 h 0; rb := nth 1 h 0; rc := nth 2 h 0; rd := nth 3 h 0;
     re := nth 4 h 0; rf := nth 5 h 0; rg := nth 6 h 0; rh := nth 7 h 0 |}.

Definition list_of (r : Regs) : list Z :=
  [ra r; rb r; rc r; rd r; re r; rf r; rg r; rh r].

(** One 16-word block folded into the hash value. *)
Definition compress (h : list Z) (block : list Z) : list Z :=
  let w := schedule 48 block in
  let r := fold_left round (combine K w) (regs_of h) in
  map (fun p => add32 (fst p) (snd p)) (combine h (list_of r)).

Fixpoint blocks (fuel : nat) (ws : list Z) (h : list Z) : list Z :=
  match fuel, ws with
  | _, [] => h
  | O, _ => h
  | S fuel', _ => blocks fuel' (skipn 16 ws) (compress h (firstn 16 ws))
  end.

(** The 32 bytes of the digest. *)
Definition sha256 (msg : list Z) : list Z :=
  let p := pad msg in
  let ws := words (length p) p in
  concat (map (be_bytes 4) (blocks (length ws) ws H0)).

End Sha256.

Module Base64url.

Definition alphabet : string :=
  "ABCDEFGHIJKLMNOPQRSTUVWXYZabcdefghijklmnopqrstuvwxyz0123456789-_".

Definition digit (n : Z) : ascii :=
  match String.get (Z.to_nat n) alphabet with
  | Some c => c
  | None => "="%char
  end.

(** Three bytes give four digits; a tail of one or two bytes gives two
    or three, and no padding character is written. *)
Fixpoint encode (bs : list Z) : string :=
  match bs with
  | b0 :: b1 :: b2 :: bs' =>
      String (digit (b0 / 4))
        (String (digit ((b0 mod 4) * 16 + b1 / 16))
          (String (digit ((b1 mod 16) * 4 + b2 / 64))
            (String (digit (b2 mod 64)) (encode bs'))))
  | [b0; b1] =>
      String (digit (b0 / 4))
        (String (digit ((b0 mod 4) * 16 + b1 / 16))
          (String (digit ((b1 mod 16) * 4)) EmptyString))
  | [b0] =>
      String (digit (b0 / 4)) (String (digit ((b0 mod 4) * 16)) EmptyString)
  | [] => EmptyString
  end.

End Base64url.

(** [BASE64URL(SHA-256(verifier))], the S256 transformation of RFC 7636. *)
Definition s256 (verifier : string) : string :=
  Base64url.encode (Sha256.sha256 (Sha256.bytes_of_string verifier)).

(** ** The relational store and the database session *)

Module Store.

(** A UUID, in its text form: [str(u)] is [u]. *)
Definition UUID := string.

(** A database timestamp, in seconds. *)
Definition Timestamp := Z.

(** JSON values: the bodies the handlers return and the JSON columns. *)
#[warnings="-register-all"]
Inductive Json :=
| JNull
| JBool (b : bool)
| JInt (n : Z)
| JStr (s : string)
| JList (l : list Json)
| JDict (kv : list (string * Json)).

(** Modelled from the spec: the [User] model ([models/user.py] is not
    among the sources).  The columns the handlers read or write. *)
Module User.
Record t := {
  id : UUID;
  email : string;
  display_name : string;
  department : option string;
  ad_groups : option (list string);
  is_active : bool;
  is_admin : bool
}.
End User.

(** Modelled from the spec: the [Application] model
    ([models/application.py] is not among the sources). *)
Module Application.
Record t := {
  id : UUID;
  name : string;
  client_id : string;
  client_secret_hash : string;
  redirect_uris : list string;
  is_active : bool;
  is_public : bool;
  allowed_departments : option (list string)
}.
End Application.

(** Modelled from the spec: the [OAuthCode] model
    ([models/oauth_token.py] is not among the sources). *)
Module OAuthCode.
Record t := {
  code : string;
  user_id : UUID;
  application_id : UUID;
  redirect_uri : string;
  scopes : list string;
  state : option string;
  code_challenge : option string;
  code_challenge_method : option string;
  expires_at : Timestamp;
  consumed_at : option Timestamp
}.
End OAuthCode.

(** Modelled from the spec: the [OAuthToken] model
    ([models/oauth_token.py] is not among the sources). *)
Module OAuthToken.
Inductive kind := Access | Refresh.
Record t := {
  token : string;
  token_type : kind;
  user_id : UUID;
  application_id : UUID;
  scopes : list string;
  expires_at : Timestamp;
  revoked_at : option Timestamp
}.
End OAuthToken.

(** Modelled from the spec: the [UserGroup] model
    ([models/user_group.py] is not among the sources). *)
Module UserGroup.
Record t := {
  id : UUID;
  name : string
}.
End UserGroup.

(** Modelled from the spec: the [ApplicationAccess] model
    ([models/application_access.py] is not among the sources): a grant
    names a user or a group. *)
Module ApplicationAccess.
Record t := {
  user_id : option UUID;
  group_id : option UUID;
  application_id : UUID;
  granted_by : UUID
}.
End ApplicationAccess.

(** [models/audit_log.py]; [id] and [created_at] are filled in by the
    database. *)
Module AuditLog.
Record t := {
  user_id : option UUID;
  action : string;
  entity_type : string;
  entity_id : option UUID;
  old_values : option Json;
  new_values : option Json;
  ip_address : option string;
  user_agent : option string
}.
End AuditLog.

(** The tables.  Codes and tokens are keyed by their opaque string;
    the other tables are lists of rows in storage order;
    [user_group_members] holds [(user_id, group_id)] pairs. *)
Record Db := {
  users : list User.t;
  applications : list Application.t;
  oauth_codes : gmap string OAuthCode.t;
  oauth_tokens : gmap string OAuthToken.t;
  user_groups : list UserGroup.t;
  user_group_members : list (UUID * UUID);
  application_access : list ApplicationAccess.t;
  audit_logs : list AuditLog.t
}.

Definition set_users (f : list User.t -> list User.t) (db : Db) : Db :=
  {| users := f (users db); applications := applications db;
     oauth_codes := oauth_codes db; oauth_tokens := oauth_tokens db;
     user_groups := user_groups db;
     user_group_members := user_group_members db;
     application_access := application_access db;
     audit_logs := audit_logs db |}.

Definition set_applications (f : list Application.t -> list Application.t)
    (db : Db) : Db :=
  {| users := users db; applications := f (applications db);
     oauth_codes := oauth_codes db; oauth_tokens := oauth_tokens db;
     user_groups := user_groups db;
     user_group_members := user_group_members db;
     application_access := application_access db;
     audit_logs := audit_logs db |}.

Definition set_oauth_codes
    (f : gmap string OAuthCode.t -> gmap string OAuthCode.t) (db : Db) : Db :=
  {| users := users db; applications := applications db;
     oauth_codes := f (oauth_codes db); oauth_tokens := oauth_tokens db;
     user_groups := user_groups db;
     user_group_members := user_group_members db;
     application_access := application_access db;
     audit_logs := audit_logs db |}.

Definition set_oauth_tokens
    (f : gmap string OAuthToken.t -> gmap string OAuthToken.t) (db : Db) : Db :=
  {| users := users db; applications := applications db;
     oauth_codes := oauth_codes db; oauth_tokens := f (oauth_tokens db);
     user_groups := user_groups db;
     user_group_members := user_group_members db;
     application_access := application_access db;
     audit_logs := audit_logs db |}.

Definition set_application_access
    (f : list ApplicationAccess.t -> list ApplicationAccess.t) (db : Db) : Db :=
  {| users := users db; applications := applications db;
     oauth_codes := oauth_codes db; oauth_tokens := oauth_tokens db;
     user_groups := user_groups db;
     user_group_members := user_group_members db;
     application_access := f (application_access db);
     audit_logs := audit_logs db |}.

Definition set_audit_logs (f : list AuditLog.t -> list AuditLog.t)
    (db : Db) : Db :=
  {| users := users db; applications := applications db;
     oauth_codes := oauth_codes db; oauth_tokens := oauth_tokens db;
     user_groups := user_groups db;
     user_group_members := user_group_members db;
     application_access := application_access db;
     audit_logs := f (audit_logs db) |}.

(** *** The session

    A handler works on a session: [working] is what its own queries
    see (pending changes are flushed before each query), [committed] is
    what the store holds.  [commit] makes the two equal; when the
    request ends, by a return or by an exception, what was not
    committed is dropped. *)

Record Session := { committed : Db; working : Db }.

(** What a handler can raise: an [HTTPException], or an exception nobody
    catches (a 500 for the client). *)
Inductive Exn :=
| HTTPException (status_code : Z) (detail : string)
| Unhandled (what : string).

Definition M (A : Type) : Type := Session -> (Exn + A) * Session.

Definition ret {A : Type} (a : A) : M A := fun s => (inr a, s).

Definition bind {A B : Type} (m : M A) (k : A -> M B) : M B :=
  fun s =>
    match m s with
    | (inl e, s') => (inl e, s')
    | (inr a, s') => k a s'
    end.

Definition raise {A : Type} (e : Exn) : M A := fun s => (inl e, s).

(** [await db.execute(select(...))]. *)
Definition query {A : Type} (f : Db -> A) : M A :=
  fun s => (inr (f (working s)), s).

(** [db.add(...)], an attribute assignment on a loaded row, or
    [await db.execute(delete(...))]. *)
Definition update (f : Db -> Db) : M unit :=
  fun s => (inr tt, {| committed := committed s; working := f (working s) |}).

(** [await db.commit()]. *)
Definition commit : M unit :=
  fun s => (inr tt, {| committed := working s; working := working s |}).

(** [result.scalar_one_or_none()]: no row, the row, or
    [MultipleResultsFound]. *)
Definition scalar_one_or_none {A : Type} (rows : list A) : M (option A) :=
  match rows with
  | [] => ret None
  | [x] => ret (Some x)
  | _ => raise (Unhandled "MultipleResultsFound")
  end.

(** A request served on the store [db]: what the client gets, and the
    store afterwards. *)
Definition run {A : Type} (h : M A) (db : Db) : (Exn + A) * Db :=
  let '(r, s) := h {| committed := db; working := db |} in (r, committed s).

(** The status code the client sees. *)
Definition status_of {A : Type} (r : Exn + A) : Z :=
  match r with
  | inr _ => 200
  | inl (HTTPException c _) => c
  | inl (Unhandled _) => 500
  end.

(** What the handlers read of the HTTP request for the audit trail:
    headers by lower-case name, and the peer address. *)
Record HttpRequest := {
  headers : list (string * string);
  client : option string
}.

Fixpoint headers_get (hs : list (string * string)) (k : string) : option string :=
  match hs with
  | [] => None
  | (k', v) :: hs' => if String.eqb k k' then Some v else headers_get hs' k
  end.

End Store.

Declare Scope handler_scope.
Delimit Scope handler_scope with handler.
Notation "x <- c ;; k" := (Store.bind c (fun x => k))
  (at level 90, c at next level, right associativity) : handler_scope.
Notation "c ;;; k" := (Store.bind c (fun _ => k))
  (at level 90, right associativity) : handler_scope.

(** ** Audit service ([services/audit_service.py]) *)

Module AuditService.
Import Py Store.
Local Open Scope handler_scope.

(** The client address the audit row records. *)
Definition ip_of (request : HttpRequest) : option string :=
  match headers_get (headers request) "x-forwarded-for" with
  | Some (String c f) => Some (strip (split_comma_head (String c f)))
  | _ => client request
  end.

(** A value fits a [String(n)] column: it has at most [n] characters,
    or is [NULL]. *)
Definition fits (n : nat) (value : option string) : bool :=
  match value with
  | Some v => Nat.leb (String.length v) n
  | None => true
  end.

(** [AuditService.log_action]: one row added to the session and
    flushed; nothing is committed here.

    The flush inserts the row.  In [models/audit_log.py] the columns
    [action] and [entity_type] are [String(50)], [ip_address] is
    [String(45)] and [user_agent] is [String(500)]; the database refuses
    a longer value and the flush raises, which leaves the session without
    the row.  The user agent is cut to 500 characters before and always
    fits; the address, the first entry of [X-Forwarded-For], is stored
    as it comes. *)
Definition log_action (user_id : UUID) (action entity_type : string)
    (entity_id : option UUID) (old_values new_values : option Json)
    (request : option HttpRequest) : M AuditLog.t :=
  let ip_address :=
    match request with Some rq => ip_of rq | None => None end in
  let user_agent :=
    match request with
    | Some rq =>
        Some (take 500 (default "" (headers_get (headers rq) "user-agent")))
    | None => None
    end in
  let audit_log :=
    {| AuditLog.user_id := Some user_id;
       AuditLog.action := action;
       AuditLog.entity_type := entity_type;
       AuditLog.entity_id := entity_id;
       AuditLog.old_values := old_values;
       AuditLog.new_values := new_values;
       AuditLog.ip_address := ip_address;
       AuditLog.user_agent := user_agent |} in
  if fits 50 (Some action) && fits 50 (Some entity_type) && fits 45 ip_address
  then
    update (set_audit_logs (fun rows => rows ++ [audit_log])) ;;;
    ret audit_log
  else raise (Unhandled "DataError").

End AuditService.

(** ** Admin endpoints ([api/admin.py]) *)

Module Admin.
Import Py Store AuditService.
Local Open Scope handler_scope.

(** Modelled from the spec: the request schemas of [schemas/admin.py],
    which is not among the sources; the fields are those the handlers
    read. *)
Record UserUpdateRequest := {
  upd_is_active : option bool;
  upd_is_admin : option bool
}.

Record BulkUserActionRequest := {
  bulk_user_ids : list UUID;
  bulk_action : string
}.

Record AccessGrantRequest := {
  grant_application_id : UUID;
  grant_user_ids : list UUID;
  grant_group_ids : list UUID
}.

Record AccessRevokeRequest := {
  revoke_application_id : UUID;
  revoke_user_ids : list UUID;
  revoke_group_ids : list UUID
}.

Definition with_is_active (b : bool) (u : User.t) : User.t :=
  {| User.id := User.id u; User.email := User.email u;
     User.display_name := User.display_name u;
     User.department := User.department u;
     User.ad_groups := User.ad_groups u;
     User.is_active := b; User.is_admin := User.is_admin u |}.

Definition with_is_admin (b : bool) (u : User.t) : User.t :=
  {| User.id := User.id u; User.email := User.email u;
     User.display_name := User.display_name u;
     User.department := User.department u;
     User.ad_groups := User.ad_groups u;
     User.is_active := User.is_active u; User.is_admin := b |}.

(** A loaded row written back: the row with the same primary key. *)
Definition store_user (u : User.t) (rows : list User.t) : list User.t :=
  map (fun r => if String.eqb (User.id r) (User.id u) then u else r) rows.

Definition json_opt_str (s : option string) : Json :=
  match s with Some s' => JStr s' | None => JNull end.

(** [[g.name for g in user.groups]]. *)
Definition group_names (db : Db) (u : User.t) : list Json :=
  map (fun g => JStr (UserGroup.name g))
      (List.filter
         (fun g => existsb (fun m => String.eqb (fst m) (User.id u)
                                     && String.eqb (snd m) (UserGroup.id g))
                           (user_group_members db))
         (user_groups db)).

(** The [UserListResponse] of [update_user], with the columns of the
    model. *)
Definition user_response (db : Db) (u : User.t) : Json :=
  JDict [ ("id", JStr (User.id u));
          ("email", JStr (User.email u));
          ("display_name", JStr (User.display_name u));
          ("department", json_opt_str (User.department u));
          ("is_active", JBool (User.is_active u));
          ("is_admin", JBool (User.is_admin u));
          ("groups", JList (group_names db u));
          ("app_count", JInt 0) ].

(** [data.is_admin is False]. *)
Definition is_False (b : option bool) : bool :=
  match b with Some false => true | _ => false end.

(** [PATCH /api/admin/users/{user_id}].

    The reply reads [user.groups] after [db.commit()] and
    [db.refresh(user)].  A row other than the acting admin's is loaded
    by the select of the handler, with [selectinload(User.groups)], and
    comes back from the refresh with its groups.  The acting admin's own
    row is the instance the session holds since [get_current_admin],
    loaded without its groups: the refresh reloads it the way it was
    loaded, reading [user.groups] then asks for a lazy load, which the
    async session refuses ([MissingGreenlet]), and the handler fails
    after its commit. *)
Definition update_user (user_id : UUID) (data : UserUpdateRequest)
    (request : HttpRequest) (admin : User.t) : M Json :=
  rows <- query (fun db =>
            List.filter (fun u => String.eqb (User.id u) user_id) (users db)) ;;
  found <- scalar_one_or_none rows ;;
  match found with
  | None => raise (HTTPException 404 "User not found")
  | Some user =>
      if String.eqb (User.id user) (User.id admin) && is_False (upd_is_admin data)
      then raise (HTTPException 400 "Cannot remove your own admin status")
      else
        let '(user1, old1, new1) :=
          match upd_is_active data with
          | Some b =>
              if negb (Bool.eqb (User.is_active user) b)
              then (with_is_active b user,
                    [("is_active", JBool (User.is_active user))],
                    [("is_active", JBool b)])
              else (user, [], [])
          | None => (user, [], [])
          end in
        let '(user2, old_values, new_values) :=
          match upd_is_admin data with
          | Some b =>
              if negb (Bool.eqb (User.is_admin user1) b)
              then (with_is_admin b user1,
                    old1 ++ [("is_admin", JBool (User.is_admin user1))],
                    new1 ++ [("is_admin", JBool b)])
              else (user1, old1, new1)
          | None => (user1, old1, new1)
          end in
        update (set_users (store_user user2)) ;;;
        match old_values with
        | [] => ret tt
        | _ :: _ =>
            log_action (User.id admin) "user.update" "user"
              (Some (User.id user)) (Some (JDict old_values))
              (Some (JDict new_values)) (Some request) ;;;
            ret tt
        end ;;;
        commit ;;;
        if String.eqb (User.id user) (User.id admin)
        then raise (Unhandled "MissingGreenlet")
        else
          body <- query (fun db => user_response db user2) ;;
          ret body
  end.

(** One turn of the loop of [bulk_user_action]: the row after it, and
    whether it was changed. *)
Definition bulk_step (action : string) (admin : User.t) (user : User.t)
    : User.t * bool :=
  if String.eqb action "activate" then
    if negb (User.is_active user) then (with_is_active true user, true)
    else (user, false)
  else if String.eqb action "deactivate" then
    if User.is_active user then (with_is_active false user, true)
    else (user, false)
  else if String.eqb action "make_admin" then
    if negb (User.is_admin user) then (with_is_admin true user, true)
    else (user, false)
  else if String.eqb action "remove_admin" then
    if negb (String.eqb (User.id user) (User.id admin)) && User.is_admin user
    then (with_is_admin false user, true)
    else (user, false)
  else (user, false).

(** [x in xs] on UUIDs. *)
Definition mem (x : UUID) (xs : list UUID) : bool := existsb (String.eqb x) xs.

(** [POST /api/admin/users/bulk]. *)
Definition bulk_user_action (data : BulkUserActionRequest)
    (request : HttpRequest) (admin : User.t) : M Json :=
  if mem (User.id admin) (bulk_user_ids data)
     && mem (bulk_action data) ["deactivate"; "remove_admin"]
  then raise (HTTPException 400 "Cannot perform this action on yourself")
  else
    selected <- query (fun db =>
                  List.filter (fun u => mem (User.id u) (bulk_user_ids data))
                              (users db)) ;;
    let changed :=
      List.filter (fun u => snd (bulk_step (bulk_action data) admin u)) selected in
    let updated := Z.of_nat (length changed) in
    let updated_user_ids := map (fun u => JStr (User.id u)) changed in
    update (set_users
              (map (fun u => if mem (User.id u) (bulk_user_ids data)
                             then fst (bulk_step (bulk_action data) admin u)
                             else u))) ;;;
    (if 0 <? updated then
       log_action (User.id admin) ("user.bulk_" ++ bulk_action data) "user"
         None None
         (Some (JDict [("user_ids", JList updated_user_ids);
                       ("count", JInt updated)]))
         (Some request) ;;;
       ret tt
     else ret tt) ;;;
    commit ;;;
    ret (JDict [("updated", JInt updated); ("action", JStr (bulk_action data))]).

(** [select(Application).where(Application.id == app_id)]. *)
Definition application_by_id (app_id : UUID) : M (option Application.t) :=
  rows <- query (fun db =>
            List.filter (fun a => String.eqb (Application.id a) app_id)
                        (applications db)) ;;
  scalar_one_or_none rows.

Definition opt_is (o : option UUID) (x : UUID) : bool :=
  match o with Some y => String.eqb y x | None => false end.

(** The grant rows of a user on an application. *)
Definition user_grants (user_id app_id : UUID) (db : Db)
    : list ApplicationAccess.t :=
  List.filter (fun a => opt_is (ApplicationAccess.user_id a) user_id
                        && String.eqb (ApplicationAccess.application_id a) app_id)
              (application_access db).

(** The grant rows of a group on an application. *)
Definition group_grants (group_id app_id : UUID) (db : Db)
    : list ApplicationAccess.t :=
  List.filter (fun a => opt_is (ApplicationAccess.group_id a) group_id
                        && String.eqb (ApplicationAccess.application_id a) app_id)
              (application_access db).

(** The first loop of [grant_access]: a row is added for each user that
    has none; the session flushes the rows added so far before each
    [select]. *)
Fixpoint grant_users (admin_id app_id : UUID) (user_ids : list UUID)
    (granted : Z) : M Z :=
  match user_ids with
  | [] => ret granted
  | user_id :: rest =>
      existing <- (rows <- query (user_grants user_id app_id) ;;
                   scalar_one_or_none rows) ;;
      match existing with
      | None =>
          update (set_application_access (fun rows => rows ++
            [ {| ApplicationAccess.user_id := Some user_id;
                 ApplicationAccess.group_id := None;
                 ApplicationAccess.application_id := app_id;
                 ApplicationAccess.granted_by := admin_id |} ])) ;;;
          grant_users admin_id app_id rest (granted + 1)
      | Some _ => grant_users admin_id app_id rest granted
      end
  end.

(** The second loop of [grant_access]. *)
Fixpoint grant_groups (admin_id app_id : UUID) (group_ids : list UUID)
    (granted : Z) : M Z :=
  match group_ids with
  | [] => ret granted
  | group_id :: rest =>
      existing <- (rows <- query (group_grants group_id app_id) ;;
                   scalar_one_or_none rows) ;;
      match existing with
      | None =>
          update (set_application_access (fun rows => rows ++
            [ {| ApplicationAccess.user_id := None;
                 ApplicationAccess.group_id := Some group_id;
                 ApplicationAccess.application_id := app_id;
                 ApplicationAccess.granted_by := admin_id |} ])) ;;;
          grant_groups admin_id app_id rest (granted + 1)
      | Some _ => grant_groups admin_id app_id rest granted
      end
  end.

(** [POST /api/admin/access/grant]. *)
Definition grant_access (data : AccessGrantRequest) (request : HttpRequest)
    (admin : User.t) : M Json :=
  found <- application_by_id (grant_application_id data) ;;
  match found with
  | None => raise (HTTPException 404 "Application not found")
  | Some app =>
      granted <- grant_users (User.id admin) (grant_application_id data)
                   (grant_user_ids data) 0 ;;
      granted <- grant_groups (User.id admin) (grant_application_id data)
                   (grant_group_ids data) granted ;;
      (if 0 <? granted then
         log_action (User.id admin) "access.grant" "application"
           (Some (grant_application_id data)) None
           (Some (JDict [("application", JStr (Application.name app));
                         ("user_ids", JList (map JStr (grant_user_ids data)));
                         ("group_ids", JList (map JStr (grant_group_ids data)));
                         ("granted_count", JInt granted)]))
           (Some request) ;;;
         ret tt
       else ret tt) ;;;
      commit ;;;
      ret (JDict [("granted", JInt granted)])
  end.

(** [await db.execute(delete(ApplicationAccess).where(...))]: the rows
    that match go, and [rowcount] is their number. *)
Definition delete_access (matches : ApplicationAccess.t -> bool) : M Z :=
  n <- query (fun db =>
         Z.of_nat (length (List.filter matches (application_access db)))) ;;
  update (set_application_access
            (List.filter (fun a => negb (matches a)))) ;;;
  ret n.

(** [ApplicationAccess.user_id.in_(data.user_ids),
    ApplicationAccess.application_id == data.application_id]. *)
Definition revokes_user (data : AccessRevokeRequest) (a : ApplicationAccess.t)
    : bool :=
  match ApplicationAccess.user_id a with
  | Some u => mem u (revoke_user_ids data)
  | None => false
  end && String.eqb (ApplicationAccess.application_id a)
                    (revoke_application_id data).

(** [ApplicationAccess.group_id.in_(data.group_ids),
    ApplicationAccess.application_id == data.application_id]. *)
Definition revokes_group (data : AccessRevokeRequest) (a : ApplicationAccess.t)
    : bool :=
  match ApplicationAccess.group_id a with
  | Some g => mem g (revoke_group_ids data)
  | None => false
  end && String.eqb (ApplicationAccess.application_id a)
                    (revoke_application_id data).

(** [POST /api/admin/access/revoke]. *)
Definition revoke_access (data : AccessRevokeRequest) (request : HttpRequest)
    (admin : User.t) : M Json :=
  _app <- application_by_id (revoke_application_id data) ;;
  n_users <-
    match revoke_user_ids data with
    | [] => ret 0
    | _ :: _ => delete_access (revokes_user data)
    end ;;
  n_groups <-
    match revoke_group_ids data with
    | [] => ret 0
    | _ :: _ => delete_access (revokes_group data)
    end ;;
  let revoked := n_users + n_groups in
  (if 0 <? revoked then
     log_action (User.id admin) "access.revoke" "application"
       (Some (revoke_application_id data))
       (Some (JDict [("user_ids", JList (map JStr (revoke_user_ids data)));
                     ("group_ids", JList (map JStr (revoke_group_ids data)))]))
       (Some (JDict [("revoked_count", JInt revoked)]))
       (Some request) ;;;
     ret tt
   else ret tt) ;;;
  commit ;;;
  ret (JDict [("revoked", JInt revoked)]).

Definition with_is_public (b : bool) (a : Application.t) : Application.t :=
  {| Application.id := Application.id a; Application.name := Application.name a;
     Application.client_id := Application.client_id a;
     Application.client_secret_hash := Application.client_secret_hash a;
     Application.redirect_uris := Application.redirect_uris a;
     Application.is_active := Application.is_active a;
     Application.is_public := b;
     Application.allowed_departments := Application.allowed_departments a |}.

Definition with_allowed_departments (d : list string) (a : Application.t)
    : Application.t :=
  {| Application.id := Application.id a; Application.name := Application.name a;
     Application.client_id := Application.client_id a;
     Application.client_secret_hash := Application.client_secret_hash a;
     Application.redirect_uris := Application.redirect_uris a;
     Application.is_active := Application.is_active a;
     Application.is_public := Application.is_public a;
     Application.allowed_departments := Some d |}.

Definition store_application (a : Application.t) (rows : list Application.t)
    : list Application.t :=
  map (fun r => if String.eqb (Application.id r) (Application.id a) then a else r)
      rows.

(** [PATCH /api/admin/applications/{app_id}/public]. *)
Definition set_application_public (app_id : UUID) (is_public : bool)
    (admin : User.t) : M Json :=
  found <- application_by_id app_id ;;
  match found with
  | None => raise (HTTPException 404 "Application not found")
  | Some app =>
      update (set_applications (store_application (with_is_public is_public app))) ;;;
      commit ;;;
      ret (JDict [("application_id", JStr app_id); ("is_public", JBool is_public)])
  end.

(** [", ".join(departments)]. *)
Fixpoint join_comma (l : list string) : string :=
  match l with
  | [] => ""
  | [d] => d
  | d :: l' => d ++ ", " ++ join_comma l'
  end.

(** [PATCH /api/admin/applications/{app_id}/departments]; the message
    is the Russian text of the source, in its UTF-8 bytes. *)
Definition set_application_departments (app_id : UUID)
    (departments : list string) (admin : User.t) : M Json :=
  found <- application_by_id app_id ;;
  match found with
  | None => raise (HTTPException 404 "Application not found")
  | Some app =>
      update (set_applications
                (store_application (with_allowed_departments departments app))) ;;;
      commit ;;;
      ret (JDict [("application_id", JStr app_id);
                  ("allowed_departments", JList (map JStr departments));
                  ("message",
                   JStr (match departments with
                         | [] => "Доступно всем"
                         | _ => "Доступно: " ++ join_comma departments
                         end))])
  end.

(** The admin mutations, as the events the audit trail is about. *)
Inductive Mutation :=
| UpdateUser (user_id : UUID) (data : UserUpdateRequest)
| BulkUserAction (data : BulkUserActionRequest)
| GrantAccess (data : AccessGrantRequest)
| RevokeAccess (data : AccessRevokeRequest)
| SetApplicationPublic (app_id : UUID) (is_public : bool)
| SetApplicationDepartments (app_id : UUID) (departments : list string).

Definition handle (m : Mutation) (request : HttpRequest) (admin : User.t)
    : M Json :=
  match m with
  | UpdateUser user_id data => update_user user_id data request admin
  | BulkUserAction data => bulk_user_action data request admin
  | GrantAccess data => grant_access data request admin
  | RevokeAccess data => revoke_access data request admin
  | SetApplicationPublic app_id is_public =>
      set_application_public app_id is_public admin
  | SetApplicationDepartments app_id departments =>
      set_application_departments app_id departments admin
  end.

(** No grant row of application [A] names one of the users or one of
    the groups. *)
Definition no_grant (db : Db) (A : UUID) (user_ids group_ids : list UUID)
    : Prop :=
  forall row, In row (application_access db) ->
    ApplicationAccess.application_id row = A ->
    (forall u, ApplicationAccess.user_id row = Some u -> ~ In u user_ids) /\
    (forall g, ApplicationAccess.group_id row = Some g -> ~ In g group_ids).

(** The audit rows a request has added to the store. *)
Definition audit_rows_added (before after : Db) : nat :=
  length (audit_logs after) - length (audit_logs before).

End Admin.

(** ** Application listing ([api/applications.py]) *)

Module Applications.
Import Py Store.
Local Open Scope handler_scope.

(** The department gate of [list_applications]. *)
Definition department_gate (user_department : string) (app : Application.t)
    : bool :=
  let allowed := default [] (Application.allowed_departments app) in
  match allowed with
  | [] => true
  | _ :: _ => existsb (String.eqb user_department) allowed
  end.

(** [GET /api/applications]. *)
Definition list_applications (current_user : User.t) : M (list Application.t) :=
  applications <- query (fun db =>
                    List.filter Application.is_active (Store.applications db)) ;;
  let user_department := or_empty (User.department current_user) in
  ret (List.filter (department_gate user_department) applications).

(** The access test of the specification, in its words: active, the
    department gate, and the principal gate. *)
Definition spec_department_gate (u : User.t) (a : Application.t) : bool :=
  match default [] (Application.allowed_departments a) with
  | [] => true
  | allowed =>
      match User.department u with
      | Some d => existsb (String.eqb d) allowed
      | None => false
      end
  end.

Definition spec_principal_gate (db : Db) (u : User.t) (a : Application.t)
    : bool :=
  Application.is_public a
  || User.is_admin u
  || existsb (fun g =>
       match ApplicationAccess.user_id g with
       | Some x => String.eqb x (User.id u)
                   && String.eqb (ApplicationAccess.application_id g)
                                 (Application.id a)
       | None => false
       end) (application_access db)
  || existsb (fun g =>
       match ApplicationAccess.group_id g with
       | Some grp =>
           String.eqb (ApplicationAccess.application_id g) (Application.id a)
           && existsb (fun m => String.eqb (fst m) (User.id u)
                                && String.eqb (snd m) grp)
                      (user_group_members db)
       | None => false
       end) (application_access db).

Definition spec_may_use (db : Db) (u : User.t) (a : Application.t) : bool :=
  Application.is_active a && spec_department_gate u a
  && spec_principal_gate db u a.

End Applications.

(** ** OAuth2 provider ([api/oauth.py]) *)

Module OAuth.
Import Py Store.
Local Open Scope handler_scope.

(** *** URL encoding ([urllib.parse]) *)

Definition hex_digit (n : N) : ascii :=
  match String.get (N.to_nat n) "0123456789ABCDEF" with
  | Some c => c
  | None => "0"%char
  end.

(** Characters [quote_plus] leaves as they are. *)
Definition unreserved (c : ascii) : bool :=
  let n := N_of_ascii c in
  ((48 <=? n) && (n <=? 57) || (65 <=? n) && (n <=? 90)
   || (97 <=? n) && (n <=? 122)
   || (n =? 95) || (n =? 46) || (n =? 45) || (n =? 126))%N.

(** [quote_plus(s)], on a string of bytes. *)
Fixpoint quote_plus (s : string) : string :=
  match s with
  | EmptyString => EmptyString
  | String c s' =>
      if unreserved c then String c (quote_plus s')
      else if Ascii.eqb c " " then String "+" (quote_plus s')
      else
        let n := N_of_ascii c in
        String "%" (String (hex_digit (n / 16))
                      (String (hex_digit (n mod 16)) (quote_plus s')))
  end.

(** [urlencode(params)] on a dictionary in insertion order. *)
Fixpoint urlencode (params : list (string * string)) : string :=
  match params with
  | [] => ""
  | [(k, v)] => quote_plus k ++ "=" ++ quote_plus v
  | (k, v) :: rest => quote_plus k ++ "=" ++ quote_plus v ++ "&" ++ urlencode rest
  end.

(** [s.split()]: the maximal runs of characters that are not white
    space.  [cur] is the run being read, in reverse. *)
Fixpoint split_ws_aux (s : string) (cur : list ascii) : list string :=
  let flush := match cur with
               | [] => []
               | _ => [string_of_list_ascii (rev cur)]
               end in
  match s with
  | EmptyString => flush
  | String c s' =>
      if is_space c then flush ++ split_ws_aux s' []
      else split_ws_aux s' (c :: cur)
  end.

Definition split_ws (s : string) : list string := split_ws_aux s [].

(** *** What each request draws from its environment *)

(** The clock reading of the request, and the random strings it draws
    ([secrets.token_urlsafe]), by order of drawing. *)
Record Env := {
  utcnow : Timestamp;
  token_urlsafe : nat -> string
}.

(** The body of a successful token response. *)
Record TokenResponse := {
  access_token : string;
  refresh_token : option string;
  id_token : option string;
  token_type : string;
  expires_in : Z
}.

(** What [authorize] answers when it does not raise:
    [RedirectResponse(url=...)], which Starlette sends with status 307. *)
Inductive Response :=
| RedirectResponse (url : string).

Definition redirect_status : Z := 307.

Section Service.

(** The password-hash check of the client secret, and the signing of
    the ID token: library code, taken as given. *)
Variable verify_secret : string -> string -> bool.
Variable sign_id_token : UUID -> string -> Timestamp -> list string -> string.

(** *** The service layer

    [services/oauth_service.py] is not among the sources; its functions
    follow the specification. *)

(** Modelled from the spec: [oauth_service.get_application_by_client_id],
    the application registered under [client_id], if it is active
    (section 4.3, step 3). *)
Definition get_application_by_client_id (client_id : string)
    : M (option Application.t) :=
  query (fun db =>
    List.find (fun a => String.eqb (Application.client_id a) client_id
                        && Application.is_active a)
              (applications db)).

(** Modelled from the spec: [oauth_service.validate_redirect_uri], exact
    string membership in the registered URIs (section 4.3, step 4). *)
Definition validate_redirect_uri (application : Application.t)
    (redirect_uri : string) : bool :=
  existsb (String.eqb redirect_uri) (Application.redirect_uris application).

(** Modelled from the spec: [oauth_service.create_authorization_code], a
    code bound to user, application, redirect URI, scopes, state and
    challenge, valid for 10 minutes, persisted (section 4.3, step 6).
    The code column is unique: a string already in the table is an
    integrity error. *)
Definition create_authorization_code (env : Env) (user : User.t)
    (application : Application.t) (redirect_uri : string)
    (scopes : list string) (state code_challenge code_challenge_method : option string)
    : M string :=
  let code := token_urlsafe env 0 in
  taken <- query (fun db => oauth_codes db !! code) ;;
  match taken with
  | Some _ => raise (Unhandled "IntegrityError")
  | None =>
      update (set_oauth_codes (fun codes =>
        <[code := {| OAuthCode.code := code;
                     OAuthCode.user_id := User.id user;
                     OAuthCode.application_id := Application.id application;
                     OAuthCode.redirect_uri := redirect_uri;
                     OAuthCode.scopes := scopes;
                     OAuthCode.state := state;
                     OAuthCode.code_challenge := code_challenge;
                     OAuthCode.code_challenge_method := code_challenge_method;
                     OAuthCode.expires_at := utcnow env + 600;
                     OAuthCode.consumed_at := None |}]> codes)) ;;;
      commit ;;;
      ret code
  end.

(** The PKCE check of section 4.4, step 3: S256 compares
    [BASE64URL(SHA-256(code_verifier))] with the challenge, plain
    compares the verifier itself; a request without a verifier, or a
    code with another method, does not pass. *)
Definition pkce_ok (method : option string) (challenge : string)
    (code_verifier : option string) : bool :=
  match code_verifier with
  | None => false
  | Some v =>
      match method with
      | Some m =>
          if String.eqb m "S256" then String.eqb (s256 v) challenge
          else if String.eqb m "plain" then String.eqb v challenge
          else false
      | None => false
      end
  end.

Definition consume (now : Timestamp) (c : OAuthCode.t) : OAuthCode.t :=
  {| OAuthCode.code := OAuthCode.code c;
     OAuthCode.user_id := OAuthCode.user_id c;
     OAuthCode.application_id := OAuthCode.application_id c;
     OAuthCode.redirect_uri := OAuthCode.redirect_uri c;
     OAuthCode.scopes := OAuthCode.scopes c;
     OAuthCode.state := OAuthCode.state c;
     OAuthCode.code_challenge := OAuthCode.code_challenge c;
     OAuthCode.code_challenge_method := OAuthCode.code_challenge_method c;
     OAuthCode.expires_at := OAuthCode.expires_at c;
     OAuthCode.consumed_at := Some now |}.

Definition new_token (kind : OAuthToken.kind) (value : string)
    (user_id application_id : UUID) (scopes : list string)
    (expires_at : Timestamp) : OAuthToken.t :=
  {| OAuthToken.token := value; OAuthToken.token_type := kind;
     OAuthToken.user_id := user_id;
     OAuthToken.application_id := application_id;
     OAuthToken.scopes := scopes; OAuthToken.expires_at := expires_at;
     OAuthToken.revoked_at := None |}.

(** Modelled from the spec: [oauth_service.exchange_code_for_tokens],
    the authorization_code branch of section 4.4, steps 1 to 6.  Returns
    [(tokens, error)]. *)
Definition exchange_code_for_tokens (env : Env) (code client_id : string)
    (client_secret : option string) (redirect_uri : string)
    (code_verifier : option string)
    : M (option TokenResponse * option string) :=
  row <- query (fun db => oauth_codes db !! code) ;;
  match row with
  | None => ret (None, Some "invalid_grant")
  | Some c =>
      if bool_decide (is_Some (OAuthCode.consumed_at c))
         || (OAuthCode.expires_at c <? utcnow env)
      then ret (None, Some "invalid_grant")
      else
        bound <- query (fun db =>
                   List.find (fun a => String.eqb (Application.id a)
                                         (OAuthCode.application_id c))
                             (applications db)) ;;
        match bound with
        | None => ret (None, Some "invalid_grant")
        | Some app =>
            if negb (String.eqb (Application.client_id app) client_id)
               || negb (String.eqb (OAuthCode.redirect_uri c) redirect_uri)
            then ret (None, Some "invalid_grant")
            else
              let error :=
                match OAuthCode.code_challenge c with
                | Some challenge =>
                    if pkce_ok (OAuthCode.code_challenge_method c) challenge
                               code_verifier
                    then None else Some "invalid_grant"
                | None =>
                    match client_secret with
                    | Some secret =>
                        if verify_secret secret (Application.client_secret_hash app)
                        then None else Some "invalid_client"
                    | None => Some "invalid_client"
                    end
                end in
              match error with
              | Some e => ret (None, Some e)
              | None =>
                  let access := token_urlsafe env 0 in
                  let refresh := token_urlsafe env 1 in
                  update (set_oauth_codes (<[code := consume (utcnow env) c]>)) ;;;
                  update (set_oauth_tokens (fun tokens =>
                    <[refresh := new_token OAuthToken.Refresh refresh
                                   (OAuthCode.user_id c) (Application.id app)
                                   (OAuthCode.scopes c) (utcnow env + 2592000)]>
                    (<[access := new_token OAuthToken.Access access
                                   (OAuthCode.user_id c) (Application.id app)
                                   (OAuthCode.scopes c) (utcnow env + 3600)]>
                     tokens))) ;;;
                  commit ;;;
                  ret (Some {| access_token := access;
                               refresh_token := Some refresh;
                               id_token :=
                                 Some (sign_id_token (OAuthCode.user_id c)
                                         client_id (utcnow env)
                                         (OAuthCode.scopes c));
                               token_type := "Bearer";
                               expires_in := 3600 |},
                       None)
              end
        end
  end.

(** Modelled from the spec: [oauth_service.refresh_tokens], the
    refresh_token branch of section 4.4: the refresh token must be
    known, live and of this client; a client with a secret must present
    it; a new access token is minted, the refresh token is kept. *)
Definition refresh_tokens (env : Env) (refresh_token client_id : string)
    (client_secret : option string)
    : M (option TokenResponse * option string) :=
  row <- query (fun db => oauth_tokens db !! refresh_token) ;;
  match row with
  | None => ret (None, Some "invalid_grant")
  | Some t =>
      if match OAuthToken.token_type t with
         | OAuthToken.Refresh => false
         | OAuthToken.Access => true
         end
         || bool_decide (is_Some (OAuthToken.revoked_at t))
         || (OAuthToken.expires_at t <? utcnow env)
      then ret (None, Some "invalid_grant")
      else
        bound <- query (fun db =>
                   List.find (fun a => String.eqb (Application.id a)
                                         (OAuthToken.application_id t))
                             (applications db)) ;;
        match bound with
        | None => ret (None, Some "invalid_grant")
        | Some app =>
            if negb (String.eqb (Application.client_id app) client_id)
            then ret (None, Some "invalid_grant")
            else if truthy (Application.client_secret_hash app)
                    && negb (match client_secret with
                             | Some secret =>
                                 verify_secret secret
                                   (Application.client_secret_hash app)
                             | None => false
                             end)
            then ret (None, Some "invalid_client")
            else
              let access := token_urlsafe env 0 in
              update (set_oauth_tokens
                        (<[access := new_token OAuthToken.Access access
                                       (OAuthToken.user_id t) (Application.id app)
                                       (OAuthToken.scopes t)
                                       (utcnow env + 3600)]>)) ;;;
              commit ;;;
              ret (Some {| access_token := access;
                           refresh_token := Some refresh_token;
                           id_token := None;
                           token_type := "Bearer";
                           expires_in := 3600 |},
                   None)
        end
  end.

Definition revoke (now : Timestamp) (t : OAuthToken.t) : OAuthToken.t :=
  {| OAuthToken.token := OAuthToken.token t;
     OAuthToken.token_type := OAuthToken.token_type t;
     OAuthToken.user_id := OAuthToken.user_id t;
     OAuthToken.application_id := OAuthToken.application_id t;
     OAuthToken.scopes := OAuthToken.scopes t;
     OAuthToken.expires_at := OAuthToken.expires_at t;
     OAuthToken.revoked_at := Some now |}.

(** Modelled from the spec: [oauth_service.revoke_token], which marks
    the token revoked if it belongs to this client (section 4.5); the
    hint is advisory, and a token already revoked keeps its mark. *)
Definition service_revoke_token (env : Env) (token : string)
    (application_id : UUID) (token_type_hint : option string) : M unit :=
  row <- query (fun db => oauth_tokens db !! token) ;;
  match row with
  | Some t =>
      if String.eqb (OAuthToken.application_id t) application_id
         && negb (bool_decide (is_Some (OAuthToken.revoked_at t)))
      then update (set_oauth_tokens (<[token := revoke (utcnow env) t]>)) ;;;
           commit
      else ret tt
  | None => ret tt
  end.

(** *** The endpoints *)

(** [GET /oauth/authorize]. *)
Definition authorize (env : Env) (response_type client_id redirect_uri : string)
    (scope : string) (state code_challenge code_challenge_method : option string)
    (current_user : option User.t) : M Response :=
  if negb (String.eqb response_type "code") then
    ret (RedirectResponse
           (redirect_uri ++ "?error=unsupported_response_type&state="
            ++ or_empty state))
  else if truthy_opt code_challenge_method
          && negb (existsb (String.eqb (or_empty code_challenge_method))
                           ["S256"; "plain"]) then
    ret (RedirectResponse
           (redirect_uri
            ++ "?error=invalid_request&error_description=invalid_code_challenge_method&state="
            ++ or_empty state))
  else
    let code_challenge_method :=
      if truthy_opt code_challenge && negb (truthy_opt code_challenge_method)
      then Some "plain" else code_challenge_method in
    application <- get_application_by_client_id client_id ;;
    match application with
    | None =>
        ret (RedirectResponse
               (redirect_uri ++ "?error=invalid_client&state=" ++ or_empty state))
    | Some application =>
        if negb (validate_redirect_uri application redirect_uri) then
          raise (HTTPException 400 "Invalid redirect_uri")
        else
          match current_user with
          | None =>
              let oauth_params_dict :=
                [("response_type", response_type);
                 ("client_id", client_id);
                 ("redirect_uri", redirect_uri);
                 ("scope", scope);
                 ("state", or_empty state)]
                ++ (if truthy_opt code_challenge
                    then [("code_challenge", or_empty code_challenge);
                          ("code_challenge_method",
                           or_empty code_challenge_method)]
                    else []) in
              let return_url :=
                ("/oauth/authorize?" ++ urlencode oauth_params_dict)%string in
              ret (RedirectResponse ("/auth/sso/login?redirect_to=" ++ return_url))
          | Some user =>
              let scopes := if truthy scope then split_ws scope else ["openid"] in
              code <- create_authorization_code env user application
                        redirect_uri scopes state code_challenge
                        code_challenge_method ;;
              let params :=
                [("code", code)]
                ++ (if truthy_opt state then [("state", or_empty state)] else []) in
              ret (RedirectResponse (redirect_uri ++ "?" ++ urlencode params))
          end
    end.

(** The form of a request to the token endpoint. *)
Record TokenForm := {
  grant_type : string;
  code : option string;
  redirect_uri : option string;
  client_id : string;
  client_secret : option string;
  form_refresh_token : option string;
  code_verifier : option string
}.

(** [POST /oauth/token]. *)
Definition token (env : Env) (form : TokenForm) : M (option TokenResponse) :=
  if String.eqb (grant_type form) "authorization_code" then
    if negb (truthy_opt (code form)) || negb (truthy_opt (redirect_uri form))
    then raise (HTTPException 400 "Missing code or redirect_uri")
    else
      r <- exchange_code_for_tokens env (or_empty (code form)) (client_id form)
             (client_secret form) (or_empty (redirect_uri form))
             (code_verifier form) ;;
      if truthy_opt (snd r)
      then raise (HTTPException 400 (or_empty (snd r)))
      else ret (fst r)
  else if String.eqb (grant_type form) "refresh_token" then
    if negb (truthy_opt (form_refresh_token form))
    then raise (HTTPException 400 "Missing refresh_token")
    else
      r <- refresh_tokens env (or_empty (form_refresh_token form))
             (client_id form) (client_secret form) ;;
      if truthy_opt (snd r)
      then raise (HTTPException 400 (or_empty (snd r)))
      else ret (fst r)
  else raise (HTTPException 400 "Unsupported grant_type").

(** [POST /oauth/revoke]. *)
Definition revoke_token (env : Env) (token : string)
    (token_type_hint : option string) (client_id client_secret : string)
    : M Json :=
  application <- get_application_by_client_id client_id ;;
  match application with
  | None => raise (HTTPException 401 "invalid_client")
  | Some application =>
      if negb (verify_secret client_secret
                 (Application.client_secret_hash application))
      then raise (HTTPException 401 "invalid_client")
      else
        service_revoke_token env token (Application.id application)
          token_type_hint ;;;
        ret (JDict [])
  end.

(** *** Runs of the OAuth endpoints *)

Inductive Event :=
| Authorize (env : Env) (response_type client_id redirect_uri scope : string)
            (state code_challenge code_challenge_method : option string)
            (current_user : option User.t)
| Token (env : Env) (form : TokenForm)
| Revoke (env : Env) (token : string) (token_type_hint : option string)
         (client_id client_secret : string).

(** Serving one event on the store: whether it is a successful
    redemption, by the authorization_code grant, of the code [C], and
    the store afterwards. *)
Definition redeems (C : string) (ev : Event) (db : Db) : bool :=
  match ev with
  | Token env form =>
      String.eqb (grant_type form) "authorization_code"
      && String.eqb (or_empty (code form)) C
      && match fst (run (token env form) db) with
         | inr _ => true
         | inl _ => false
         end
  | _ => false
  end.

Definition next_db (ev : Event) (db : Db) : Db :=
  match ev with
  | Authorize env rt cid ru sc st cc ccm u =>
      snd (run (authorize env rt cid ru sc st cc ccm u) db)
  | Token env form => snd (run (token env form) db)
  | Revoke env tk hint cid cs => snd (run (revoke_token env tk hint cid cs) db)
  end.

(** The number of successful redemptions of [C] along a run. *)
Fixpoint redemptions (C : string) (evs : list Event) (db : Db) : nat :=
  match evs with
  | [] => 0
  | ev :: evs' =>
      (if redeems C ev db then 1 else 0) + redemptions C evs' (next_db ev db)
  end.

(** The code [C] is in the table and marked consumed. *)
Definition consumed (C : string) (db : Db) : Prop :=
  exists c, oauth_codes db !! C = Some c /\ is_Some (OAuthCode.consumed_at c).

(** The authorization_code request [form], served at [env] on [db],
    passes every check of the exchange for the code row [c] of the
    application [app]. *)
Definition passes (env : Env) (form : TokenForm) (db : Db)
    (c : OAuthCode.t) (app : Application.t) : Prop :=
  truthy_opt (code form) = true /\
  truthy_opt (redirect_uri form) = true /\
  oauth_codes db !! or_empty (code form) = Some c /\
  OAuthCode.consumed_at c = None /\
  (OAuthCode.expires_at c <? utcnow env) = false /\
  List.find (fun a => String.eqb (Application.id a) (OAuthCode.application_id c))
            (applications db) = Some app /\
  Application.client_id app = client_id form /\
  OAuthCode.redirect_uri c = or_empty (redirect_uri form) /\
  match OAuthCode.code_challenge c with
  | Some challenge =>
      pkce_ok (OAuthCode.code_challenge_method c) challenge (code_verifier form)
        = true
  | None =>
      exists secret, client_secret form = Some secret /\
        verify_secret secret (Application.client_secret_hash app) = true
  end.

(** The store after a successful exchange: the code is marked consumed
    and the two tokens are in the table. *)
Definition issued (env : Env) (form : TokenForm) (db : Db)
    (c : OAuthCode.t) (app : Application.t) : Db :=
  set_oauth_tokens (fun tokens =>
      <[token_urlsafe env 1%nat :=
          new_token OAuthToken.Refresh (token_urlsafe env 1%nat)
            (OAuthCode.user_id c) (Application.id app)
            (OAuthCode.scopes c) (utcnow env + 2592000)]>
      (<[token_urlsafe env 0%nat :=
          new_token OAuthToken.Access (token_urlsafe env 0%nat)
            (OAuthCode.user_id c) (Application.id app)
            (OAuthCode.scopes c) (utcnow env + 3600)]> tokens))
    (set_oauth_codes (<[or_empty (code form) := consume (utcnow env) c]>) db).

(** The body of the successful exchange. *)
Definition issued_response (env : Env) (form : TokenForm) (c : OAuthCode.t)
    : TokenResponse :=
  {| access_token := token_urlsafe env 0%nat;
     refresh_token := Some (token_urlsafe env 1%nat);
     id_token := Some (sign_id_token (OAuthCode.user_id c) (client_id form)
                         (utcnow env) (OAuthCode.scopes c));
     token_type := "Bearer";
     expires_in := 3600 |}.

(** The challenge method the endpoint accepts: none, S256 or plain. *)
Definition acceptable_method (m : option string) : Prop :=
  truthy_opt m = false \/ m = Some "S256" \/ m = Some "plain".

End Service.

End OAuth.

(** ** Sample data *)

Module Samples.
Import Store.

Definition admin0 : User.t :=
  {| User.id := "u-admin"; User.email := "root@example.org";
     User.display_name := "Root"; User.department := Some "IT";
     User.ad_groups := None; User.is_active := true; User.is_admin := true |}.

Definition user1 : User.t :=
  {| User.id := "u-1"; User.email := "ann@example.org";
     User.display_name := "Ann"; User.department := Some "Finance";
     User.ad_groups := None; User.is_active := true; User.is_admin := false |}.

Definition app1 : Application.t :=
  {| Application.id := "app-1"; Application.name := "Wiki";
     Application.client_id := "abc"; Application.client_secret_hash := "h:s3cret";
     Application.redirect_uris := ["https://c/cb"];
     Application.is_active := true; Application.is_public := false;
     Application.allowed_departments := Some [] |}.

Definition grant1 : ApplicationAccess.t :=
  {| ApplicationAccess.user_id := Some "u-1";
     ApplicationAccess.group_id := None;
     ApplicationAccess.application_id := "app-1";
     ApplicationAccess.granted_by := "u-admin" |}.

(** A store with two users and one private application, nobody
    granted. *)
Definition db0 : Db :=
  {| users := [admin0; user1]; applications := [app1];
     oauth_codes := ∅; oauth_tokens := ∅;
     user_groups := []; user_group_members := [];
     application_access := []; audit_logs := [] |}.

(** The same store once [user1] holds a grant on [app1]. *)
Definition db1 : Db := set_application_access (fun _ => [grant1]) db0.

Definition request0 : HttpRequest :=
  {| headers := [("user-agent", "curl/8")]; client := Some "10.0.0.9" |}.

End Samples.

(** ** Sample requests to the OAuth endpoints *)

Module OAuthSamples.
Import Store OAuth Samples.

(** The clock and the random strings of the sample requests. *)
Definition env0 : Env :=
  {| utcnow := 1000;
     token_urlsafe := fun n => match n with O => "r-0" | _ => "r-1" end |}.

(** A check of the client secret that reads the hash as ["h:" + secret]. *)
Definition verify0 (secret hash : string) : bool :=
  String.eqb ("h:" ++ secret) hash.

Definition sign0 (sub : UUID) (aud : string) (iat : Timestamp)
    (scopes : list string) : string :=
  "jwt." ++ sub ++ "." ++ aud.

(** The code of scenario S1: issued to [user1] for [app1] with the
    challenge of RFC 7636, appendix B. *)
Definition code_s1 : OAuthCode.t :=
  {| OAuthCode.code := "code-1";
     OAuthCode.user_id := "u-1";
     OAuthCode.application_id := "app-1";
     OAuthCode.redirect_uri := "https://c/cb";
     OAuthCode.scopes := ["openid"];
     OAuthCode.state := None;
     OAuthCode.code_challenge :=
       Some "E9Melhoa2OwvFrEMTJguCHaoeK1t8URWbuGJSstw-cM";
     OAuthCode.code_challenge_method := Some "S256";
     OAuthCode.expires_at := 1500;
     OAuthCode.consumed_at := None |}.

Definition db_s1 : Db := set_oauth_codes (fun _ => {[ "code-1" := code_s1 ]}) db0.

(** The redemption of scenario S1, with the verifier of the RFC. *)
Definition form_s1 : TokenForm :=
  {| grant_type := "authorization_code";
     code := Some "code-1";
     redirect_uri := Some "https://c/cb";
     client_id := "abc";
     client_secret := None;
     form_refresh_token := None;
     code_verifier := Some "dBjftJeZ4CVP-mB92K27uhbUJU1p1r_wW1gFWFOEjXk" |}.

(** The redemption of scenario S2: the same with a wrong verifier. *)
Definition form_s2 : TokenForm :=
  {| grant_type := "authorization_code";
     code := Some "code-1";
     redirect_uri := Some "https://c/cb";
     client_id := "abc";
     client_secret := None;
     form_refresh_token := None;
     code_verifier := Some "wrong" |}.

(** The store of scenario S1 once the code was redeemed at time 900. *)
Definition db_s1_redeemed : Db :=
  set_oauth_codes (fun _ => {[ "code-1" := consume 900 code_s1 ]}) db0.

End OAuthSamples.

(** ** Invariants of the limiter table *)

Module RateLimitInv.
Import Py RateLimit.

(** Every count in the table lies between 1 and the budget of its
    route class. *)
Definition within_budget (s : Requests) : Prop :=
  forall ip k c ws,
    entry s ip k = Some (c, ws) ->
    exists m w, limits_get limits k = Some (m, w) /\ 1 <= c <= m.

(** No client IP is kept with an empty dictionary. *)
Definition no_empty_bucket (s : Requests) : Prop :=
  forall ip b, s !! ip = Some b -> b <> ∅.

(** A counted request that the limiter attributes to [ip] and to the
    route class [k]. *)
Definition class_request (ip k : string) (r : Request) : Prop :=
  exempt (path r) = false /\ _get_limit_key (path r) = k /\
  _get_client_ip r = ip.

(** A request with the given path from a peer address. *)
Definition request_at (p host : string) (t : Time) (sw : option Time)
    : Request :=
  {| path := p; x_forwarded_for := None; client_host := Some host;
     now := t; sweep := sw |}.

(** The table holds nothing for the client IP [ip]. *)
Definition unknown_ip (s : Requests) (ip : string) : Prop :=
  forall k, entry s ip k = None.

(** The client IPs of a run are pairwise distinct. *)
Fixpoint distinct_ips (rs : list Request) : Prop :=
  match rs with
  | [] => True
  | r :: rs' =>
      Forall (fun r' => _get_client_ip r' <> _get_client_ip r) rs' /\
      distinct_ips rs'
  end.

(** The string has no comma. *)
Fixpoint no_comma (s : string) : Prop :=
  match s with
  | EmptyString => True
  | String c s' => Ascii.eqb c "," = false /\ no_comma s'
  end.

End RateLimitInv.

(** ** Change extraction ([AuditService.extract_changes]) *)

Module AuditChanges.

Section Changes.

(** The values of attributes: any type with decidable equality, with
    Python's [None] among them. *)
Context {V : Type} `{EqDecision V}.
Variable none : V.

(** [getattr(old_obj, field, None)], the object being its attributes. *)
Definition getattr (old_obj : gmap string V) (field : string) : V :=
  default none (old_obj !! field).

(** One turn of the loop over [fields]. *)
Definition extract_step (old_obj new_data : gmap string V)
    (acc : gmap string V * gmap string V) (field : string)
    : gmap string V * gmap string V :=
  match new_data !! field with
  | Some new_val =>
      let old_val := getattr old_obj field in
      if decide (old_val = new_val) then acc
      else (<[field := old_val]> (fst acc), <[field := new_val]> (snd acc))
  | None => acc
  end.

(** [extract_changes(old_obj, new_data, fields)]: returns
    [(old_values, new_values)]. *)
Definition extract_changes (old_obj new_data : gmap string V)
    (fields : list string) : gmap string V * gmap string V :=
  fold_left (extract_step old_obj new_data) fields (∅, ∅).

(** The field is given a new value that differs from the old one. *)
Definition changed (old_obj new_data : gmap string V) (field : string)
    (old_val new_val : V) : Prop :=
  new_data !! field = Some new_val /\
  old_val = getattr old_obj field /\ old_val <> new_val.

(** What the loop records for a field, if anything: the old and the new
    value, when the field is in [new_data] and the two differ. *)
Definition recorded (old_obj new_data : gmap string V) (field : string)
    : option (V * V) :=
  match new_data !! field with
  | Some new_val =>
      if decide (getattr old_obj field = new_val) then None
      else Some (getattr old_obj field, new_val)
  | None => None
  end.

End Changes.

End AuditChanges.

(** ** Admin tools and group membership ([api/admin.py], continued) *)

Module AdminTools.
Import Py Store.
Local Open Scope handler_scope.

(** [POST /api/admin/cleanup-tokens] at clock reading [now]: the two
    [delete] statements with their [rowcount]s, then one commit. *)
Definition cleanup_tokens (now : Timestamp) (admin : User.t) : M Json :=
  deleted_codes <- query (fun db =>
      Z.of_nat (size (filter (fun kc : string * OAuthCode.t =>
                                OAuthCode.expires_at (snd kc) < now)
                             (oauth_codes db)))) ;;
  update (set_oauth_codes
            (filter (fun kc : string * OAuthCode.t =>
                       ~ OAuthCode.expires_at (snd kc) < now))) ;;;
  deleted_tokens <- query (fun db =>
      Z.of_nat (size (filter (fun kt : string * OAuthToken.t =>
                                OAuthToken.expires_at (snd kt) < now)
                             (oauth_tokens db)))) ;;
  update (set_oauth_tokens
            (filter (fun kt : string * OAuthToken.t =>
                       ~ OAuthToken.expires_at (snd kt) < now))) ;;;
  commit ;;;
  ret (JDict [("deleted_codes", JInt deleted_codes);
              ("deleted_tokens", JInt deleted_tokens)]).

End AdminTools.

Module AdminGroups.
Import Py Store Admin.
Local Open Scope handler_scope.

(** Modelled from the spec: the request schema
    [BulkGroupMembershipRequest] of [schemas/admin.py], which is not
    among the sources; the fields are those the handler reads. *)
Record BulkGroupMembershipRequest := {
  member_user_ids : list UUID;
  member_action : string
}.

Definition set_user_group_members (f : list (UUID * UUID) -> list (UUID * UUID))
    (db : Db) : Db :=
  {| users := users db; applications := applications db;
     oauth_codes := oauth_codes db; oauth_tokens := oauth_tokens db;
     user_groups := user_groups db;
     user_group_members := f (user_group_members db);
     application_access := application_access db;
     audit_logs := audit_logs db |}.

(** [{m.id for m in group.members}]. *)
Definition member_ids (group_id : UUID) (db : Db) : list UUID :=
  map fst (List.filter (fun m => String.eqb (snd m) group_id)
                       (user_group_members db)).

(** [POST /api/admin/groups/{group_id}/members]. *)
Definition add_group_members (group_id : UUID)
    (data : BulkGroupMembershipRequest) (admin : User.t) : M Json :=
  rows <- query (fun db =>
            List.filter (fun g => String.eqb (UserGroup.id g) group_id)
                        (user_groups db)) ;;
  found <- scalar_one_or_none rows ;;
  match found with
  | None => raise (HTTPException 404 "Group not found")
  | Some group =>
      selected <- query (fun db =>
                    List.filter (fun u => mem (User.id u) (member_user_ids data))
                                (users db)) ;;
      current_member_ids <- query (member_ids group_id) ;;
      updated <-
        (if String.eqb (member_action data) "add" then
           let added :=
             List.filter (fun u => negb (mem (User.id u) current_member_ids))
                         selected in
           update (set_user_group_members (fun ms =>
                     ms ++ map (fun u => (User.id u, group_id)) added)) ;;;
           ret (Z.of_nat (length added))
         else if String.eqb (member_action data) "remove" then
           update (set_user_group_members
                     (List.filter (fun m =>
                        negb (String.eqb (snd m) group_id
                              && mem (fst m) (member_user_ids data))))) ;;;
           ret (Z.of_nat (length (member_user_ids data)))
         else ret 0) ;;
      commit ;;;
      ret (JDict [("updated", JInt updated);
                  ("action", JStr (member_action data))])
  end.

(** The sample store with one group, ["g-1"], that has the admin as its
    only member. *)
Definition set_user_groups_sample (db : Db) : Db :=
  {| users := users db; applications := applications db;
     oauth_codes := oauth_codes db; oauth_tokens := oauth_tokens db;
     user_groups := [ {| UserGroup.id := "g-1"; UserGroup.name := "Ops" |} ];
     user_group_members := [("u-admin", "g-1")];
     application_access := application_access db;
     audit_logs := audit_logs db |}.

End AdminGroups.

(** ** Application management ([api/applications.py], continued) *)

Module ApplicationsCrud.
Import Py Store Admin Applications.
Local Open Scope handler_scope.

(** What a user sees in the listing on the store [db]. *)
Definition listed (db : Db) (u : User.t) : list Application.t :=
  match fst (run (list_applications u) db) with
  | inr l => l
  | inl _ => []
  end.

(** [GET /api/applications/{app_id}]. *)
Definition get_application (app_id : UUID) (current_user : User.t)
    : M Application.t :=
  found <- application_by_id app_id ;;
  match found with
  | None => raise (HTTPException 404 "Application not found")
  | Some application => ret application
  end.

Definition with_app_is_active (b : bool) (a : Application.t) : Application.t :=
  {| Application.id := Application.id a; Application.name := Application.name a;
     Application.client_id := Application.client_id a;
     Application.client_secret_hash := Application.client_secret_hash a;
     Application.redirect_uris := Application.redirect_uris a;
     Application.is_active := b;
     Application.is_public := Application.is_public a;
     Application.allowed_departments := Application.allowed_departments a |}.

Definition with_client_secret_hash (h : string) (a : Application.t)
    : Application.t :=
  {| Application.id := Application.id a; Application.name := Application.name a;
     Application.client_id := Application.client_id a;
     Application.client_secret_hash := h;
     Application.redirect_uris := Application.redirect_uris a;
     Application.is_active := Application.is_active a;
     Application.is_public := Application.is_public a;
     Application.allowed_departments := Application.allowed_departments a |}.

(** [DELETE /api/applications/{app_id}?permanent=...]; the answer is
    204 with no body. *)
Definition delete_application (app_id : UUID) (permanent : bool)
    (current_user : User.t) : M unit :=
  found <- application_by_id app_id ;;
  match found with
  | None => raise (HTTPException 404 "Application not found")
  | Some application =>
      (if permanent then
         update (set_oauth_codes
                   (filter (fun kc : string * OAuthCode.t =>
                      OAuthCode.application_id (snd kc) <> app_id))) ;;;
         update (set_oauth_tokens
                   (filter (fun kt : string * OAuthToken.t =>
                      OAuthToken.application_id (snd kt) <> app_id))) ;;;
         update (set_application_access
                   (List.filter (fun a =>
                      negb (String.eqb (ApplicationAccess.application_id a)
                                       app_id)))) ;;;
         update (set_applications
                   (List.filter (fun a =>
                      negb (String.eqb (Application.id a)
                                       (Application.id application)))))
       else
         update (set_applications
                   (store_application (with_app_is_active false application)))) ;;;
      commit
  end.

Section Secrets.

(** The password hash of the service, library code taken as given. *)
Variable hash_secret : string -> string.

(** The [ApplicationWithSecret] body, with the columns of the model. *)
Definition application_with_secret (a : Application.t) (client_secret : string)
    : Json :=
  JDict [ ("id", JStr (Application.id a));
          ("name", JStr (Application.name a));
          ("client_id", JStr (Application.client_id a));
          ("redirect_uris", JList (map JStr (Application.redirect_uris a)));
          ("is_active", JBool (Application.is_active a));
          ("client_secret", JStr client_secret) ].

(** [POST /api/applications/{app_id}/regenerate-secret];
    [client_secret] is what [generate_client_secret()] draws. *)
Definition regenerate_client_secret (client_secret : string) (app_id : UUID)
    (current_user : User.t) : M Json :=
  found <- application_by_id app_id ;;
  match found with
  | None => raise (HTTPException 404 "Application not found")
  | Some application =>
      let application' :=
        with_client_secret_hash (hash_secret client_secret) application in
      update (set_applications (store_application application')) ;;;
      commit ;;;
      ret (application_with_secret application' client_secret)
  end.

End Secrets.

(** Application rows are unique per id. *)
Definition unique_application_ids (db : Db) : Prop :=
  NoDup (map Application.id (applications db)).

End ApplicationsCrud.

(** ** Vocabulary for the properties of the access endpoints *)

Module AccessInv.
Import Py Store Admin.

(** A direct grant of application [A] to one of the users. *)
Definition names_user (A : UUID) (user_ids : list UUID)
    (row : ApplicationAccess.t) : Prop :=
  ApplicationAccess.application_id row = A /\
  ApplicationAccess.group_id row = None /\
  exists u, ApplicationAccess.user_id row = Some u /\ In u user_ids.

(** A grant of application [A] to one of the groups. *)
Definition names_group (A : UUID) (group_ids : list UUID)
    (row : ApplicationAccess.t) : Prop :=
  ApplicationAccess.application_id row = A /\
  ApplicationAccess.user_id row = None /\
  exists g, ApplicationAccess.group_id row = Some g /\ In g group_ids.

(** The revocation that names the application and the principals of a
    grant request. *)
Definition revocation_of (data : AccessGrantRequest) : AccessRevokeRequest :=
  {| revoke_application_id := grant_application_id data;
     revoke_user_ids := grant_user_ids data;
     revoke_group_ids := grant_group_ids data |}.

(** The session after the grant rows [added] joined the table. *)
Definition with_grants (added : list ApplicationAccess.t) (s : Session)
    : Session :=
  {| committed := committed s;
     working := set_application_access (fun rows => rows ++ added) (working s) |}.

End AccessInv.

(** ** The pages of the audit log ([api/admin.py], [get_audit_log]) *)

Module AuditLogPage.
Import Store.

Section Page.

Context {A : Type}.

(** The rows that pass the filters of the request, in the order of the
    query, newest first. *)
Variable rows : list A.

(** [select(func.count(AuditLog.id))] with the same filters. *)
Definition total : Z := Z.of_nat (length rows).

(** [offset = (page - 1) * per_page]. *)
Definition offset (page per_page : Z) : Z := (page - 1) * per_page.

(** [query.offset(offset).limit(per_page)]: the items of the reply. *)
Definition items (page per_page : Z) : list A :=
  firstn (Z.to_nat per_page) (skipn (Z.to_nat (offset page per_page)) rows).

(** [(total + per_page - 1) // per_page]: the [pages] of the reply. *)
Definition pages (per_page : Z) : Z := (total + per_page - 1) / per_page.

End Page.

End AuditLogPage.

(** ** The mutations that write an audit row *)

Module AuditScope.
Import Py Store Admin.

(** The admin mutations whose handler calls [AuditService.log_action]
    when it has changed something. *)
Definition audited (m : Mutation) : bool :=
  match m with
  | UpdateUser _ _ | BulkUserAction _ | GrantAccess _ | RevokeAccess _ => true
  | SetApplicationPublic _ _ | SetApplicationDepartments _ _ => false
  end.

(** A request whose first [X-Forwarded-For] entry has 66 characters. *)
Definition long_forwarded_request : HttpRequest :=
  {| headers :=
       [("x-forwarded-for",
         "unknown-proxy-chain-identifier-that-is-far-too-long-for-the-column")];
     client := Some "10.0.0.9" |}.

End AuditScope.

(** ** Properties of the rate limiter *)

Module RateLimitProps.
Import Py RateLimit RateLimitClient.

(** *** Arithmetic of the clock *)

Lemma Qgtb_true (a b : Q) : Qgtb a b = true <-> (b < a)%Q.
Proof.
  unfold Qgtb. rewrite negb_true_iff, <- not_true_iff_false, Qle_bool_iff.
  split; [apply Qnot_le_lt | apply Qlt_not_le].
Qed.

Lemma Qgtb_false (a b : Q) : Qgtb a b = false <-> (a <= b)%Q.
Proof.
  unfold Qgtb. rewrite negb_false_iff. apply Qle_bool_iff.
Qed.

Lemma py_int_nonneg (q : Q) : (0 <= q)%Q -> 0 <= py_int q.
Proof.
  destruct q as [n d]. unfold Qle, py_int. simpl. intros H.
  rewrite Z.quot_div_nonneg by lia. apply Z.div_pos; lia.
Qed.

Lemma py_int_le (q : Q) (n : Z) :
  (0 <= q)%Q -> (q <= inject_Z n)%Q -> py_int q <= n.
Proof.
  destruct q as [a d]. unfold Qle, py_int. simpl. intros H0 H.
  rewrite Z.quot_div_nonneg by lia.
  apply Z.div_le_upper_bound; lia.
Qed.

Lemma py_int_lt (q : Q) (n : Z) :
  (0 <= q)%Q -> (q < inject_Z n)%Q -> py_int q < n.
Proof.
  destruct q as [a d]. unfold Qle, Qlt, py_int. simpl. intros H0 H.
  rewrite Z.quot_div_nonneg by lia.
  apply Z.div_lt_upper_bound; lia.
Qed.

(** *** The limiter seen entry by entry *)

(** Every limit has the same window. *)
Lemma limits_window (k : string) (m w : Z) :
  limits_get limits k = Some (m, w) -> w = 60.
Proof.
  unfold limits. simpl.
  repeat (destruct (String.eqb k _); [intros [= _ <-]; reflexivity|]).
  discriminate.
Qed.

Lemma limit_key_known (p : string) :
  exists m, limits_get limits (_get_limit_key p) = Some (m, 60).
Proof.
  unfold _get_limit_key.
  destruct (startswith p "/auth/"); [eexists; reflexivity|].
  destruct (String.eqb p "/oauth/token"); [eexists; reflexivity|].
  destruct (startswith p "/api/admin/"); eexists; reflexivity.
Qed.

Lemma entry_insert (s : Requests) (ip : string) (b : Bucket) (ip' k' : string) :
  entry (<[ip := b]> s) ip' k' =
  if decide (ip = ip') then b !! k' else entry s ip' k'.
Proof.
  unfold entry, bucket_of. rewrite lookup_insert. by case_decide.
Qed.

Lemma entry_insert_other (s : Requests) (ip k : string) (e : Z * Q) :
  forall ip' k', (ip' <> ip \/ k' <> k) ->
    entry (<[ip := <[k := e]> (bucket_of s ip)]> s) ip' k' = entry s ip' k'.
Proof.
  intros ip' k' Hne. rewrite entry_insert. case_decide; [|done].
  subst ip'. destruct Hne as [?|?]; [done|].
  rewrite lookup_insert_ne by congruence. reflexivity.
Qed.

Lemma check_entry (now : Time) (ip k : string) (s : Requests) (m w : Z) :
  limits_get limits k = Some (m, w) ->
  exists s',
    _check_rate_limit now ip k s
      = Some (fst (step_entry now m w (entry s ip k)), s')
    /\ entry s' ip k = snd (step_entry now m w (entry s ip k))
    /\ forall ip' k', (ip' <> ip \/ k' <> k) -> entry s' ip' k' = entry s ip' k'.
Proof.
  intros Hk. unfold _check_rate_limit, step_entry. rewrite Hk.
  fold (entry s ip k).
  destruct (entry s ip k) as [[c ws]|] eqn:He.
  - destruct (Qgtb _ _); [|destruct (c <? m)].
    + eexists; split; [reflexivity|]. split.
      * simpl. rewrite entry_insert, decide_True by done. apply lookup_insert_eq.
      * apply entry_insert_other.
    + eexists; split; [reflexivity|]. split.
      * simpl. rewrite entry_insert, decide_True by done. apply lookup_insert_eq.
      * apply entry_insert_other.
    + eexists; split; [reflexivity|]. split; [done|]. done.
  - eexists; split; [reflexivity|]. split.
    + simpl. rewrite entry_insert, decide_True by done. apply lookup_insert_eq.
    + apply entry_insert_other.
Qed.

Lemma entry_cleanup (t : Time) (s : Requests) (ip k : string) :
  entry (_cleanup_old_entries t s) ip k = entry s ip k ≫= sweep_entry t.
Proof.
  unfold entry, bucket_of, _cleanup_old_entries. rewrite lookup_omap.
  destruct (s !! ip) as [b|]; simpl; [|by rewrite lookup_empty].
  case_decide as Hb; simpl.
  - rewrite lookup_empty. unfold sweep_bucket in Hb.
    assert (omap (sweep_entry t) b !! k = None) as Hk
      by (unfold sweep_entry; rewrite Hb; apply lookup_empty).
    by rewrite lookup_omap in Hk.
  - unfold sweep_bucket. by rewrite lookup_omap.
Qed.


Lemma max_window_60 : max_window = 60.
Proof. reflexivity. Qed.

(** [dispatch] on a counted path, entry by entry. *)
Lemma dispatch_entry (r : Request) (s : Requests) :
  exempt (path r) = false ->
  exists m s',
    limits_get limits (_get_limit_key (path r)) = Some (m, 60) /\
    let ip := _get_client_ip r in
    let k := _get_limit_key (path r) in
    let st := step_entry (now r) m 60 (entry s ip k) in
    dispatch r s = Some (outcome_of (fst st), s') /\
    forall ip' k',
      entry s' ip' k' =
      after_sweep r (fst (fst st))
        (if decide (ip' = ip /\ k' = k) then snd st else entry s ip' k').
Proof.
  intros Hex. destruct (limit_key_known (path r)) as [m Hm].
  destruct (check_entry (now r) (_get_client_ip r) _ s _ _ Hm)
    as (s1 & Hc & Hself & Hother).
  remember (step_entry (now r) m 60
              (entry s (_get_client_ip r) (_get_limit_key (path r)))) as st.
  assert (forall ip' k', entry s1 ip' k' =
            if decide (ip' = _get_client_ip r /\ k' = _get_limit_key (path r))
            then snd st else entry s ip' k') as Hent.
  { intros ip' k'. case_decide as Hd.
    - destruct Hd as [-> ->]. exact Hself.
    - apply Hother. destruct (decide (ip' = _get_client_ip r)); [|by left].
      right. intros ->. by apply Hd. }
  assert (exists s', dispatch r s = Some (outcome_of (fst st), s') /\
            forall ip' k', entry s' ip' k' =
              after_sweep r (fst (fst st)) (entry s1 ip' k')) as (s' & Hd & Hs').
  { unfold dispatch. rewrite Hex. cbv zeta. rewrite Hc.
    destruct st as [[allowed retry] e']. unfold outcome_of, after_sweep. simpl.
    destruct allowed; simpl; [destruct (sweep r) as [t|]|].
    - exists (_cleanup_old_entries t s1). split; [done|].
      intros ip' k'. apply entry_cleanup.
    - by exists s1.
    - by exists s1. }
  exists m, s'. split; [done|]. cbv zeta. rewrite <- Heqst. split; [done|].
  intros ip' k'. by rewrite Hs', Hent.
Qed.

Lemma dispatch_total (r : Request) (s : Requests) :
  exists o s', dispatch r s = Some (o, s').
Proof.
  destruct (exempt (path r)) eqn:Hex.
  - unfold dispatch. rewrite Hex. eauto.
  - destruct (dispatch_entry r s Hex) as (m & s' & _ & H & _). eauto.
Qed.

Lemma serve_total (rs : list Request) :
  forall s, exists os s', serve rs s = Some (os, s').
Proof.
  induction rs as [|r rs IH]; intros s; simpl; [eauto|].
  destruct (dispatch_total r s) as (o & s1 & ->).
  destruct (IH s1) as (os & s2 & ->). eauto.
Qed.

Lemma serve_app (rs1 rs2 : list Request) :
  forall s os1 s1 os2 s2,
    serve rs1 s = Some (os1, s1) ->
    serve rs2 s1 = Some (os2, s2) ->
    serve (rs1 ++ rs2) s = Some (os1 ++ os2, s2).
Proof.
  induction rs1 as [|r rs1 IH]; simpl; intros s os1 s1 os2 s2 H1 H2.
  - by injection H1 as <- <-.
  - destruct (dispatch r s) as [[o s']|]; [|done].
    destruct (serve rs1 s') as [[os s'']|] eqn:E; [|done].
    injection H1 as <- <-. by rewrite (IH _ _ _ _ _ E H2).
Qed.

(** *** The budget of the token endpoint *)

Lemma sweep_entry_keeps (t : Time) (c : Z) (t0 : Q) :
  (t - t0 <= 120)%Q -> sweep_entry t (c, t0) = Some (c, t0).
Proof.
  intros H. unfold sweep_entry. simpl snd.
  replace (Qgtb (t - t0) (inject_Z (max_window * 2))) with false; [done|].
  symmetry. by apply Qgtb_false.
Qed.

Lemma token_request_step (ip : string) (r : Request) (s : Requests) :
  token_request ip r ->
  exists s',
    let st := step_entry (now r) 20 60 (entry s ip "/oauth/token") in
    dispatch r s = Some (outcome_of (fst st), s') /\
    entry s' ip "/oauth/token" = after_sweep r (fst (fst st)) (snd st).
Proof.
  intros [Hp Hip].
  assert (exempt (path r) = false) as Hex by (by rewrite Hp).
  destruct (dispatch_entry r s Hex) as (m & s' & Hm & Hd & He).
  rewrite Hp in Hm. injection Hm as <-.
  rewrite Hip in Hd, He.
  replace (_get_limit_key (path r)) with "/oauth/token" in Hd, He
    by (by rewrite Hp).
  exists s'. split; [exact Hd|].
  rewrite He. by rewrite decide_True.
Qed.

(** While the count is below the budget and the window is open, every
    request is let through and counted. *)
Lemma serve_within_budget (ip : string) (t0 : Q) (rs : list Request) :
  forall (s : Requests) (c : Z),
    entry s ip "/oauth/token" = Some (c, t0) ->
    c + Z.of_nat (length rs) <= 20 ->
    Forall (fun r => token_request ip r /\ in_window t0 r) rs ->
    exists s',
      serve rs s = Some (repeat CallNext (length rs), s') /\
      entry s' ip "/oauth/token" = Some (c + Z.of_nat (length rs), t0).
Proof.
  induction rs as [|r rs IH]; intros s c He Hc Hrs.
  - exists s. split; [done|]. rewrite He. simpl. f_equal. f_equal. lia.
  - inversion Hrs as [|? ? [Htok [Hnow Hsw]] Hrs']; subst.
    destruct (token_request_step ip r s Htok) as (s1 & Hd & He1).
    rewrite He in Hd, He1. cbv zeta in Hd, He1. unfold step_entry in Hd, He1.
    replace (Qgtb (now r - t0) (inject_Z 60)) with false in Hd, He1
      by (symmetry; by apply Qgtb_false).
    simpl length in Hc.
    replace (c <? 20) with true in Hd, He1 by (symmetry; apply Z.ltb_lt; lia).
    simpl in Hd, He1.
    assert (entry s1 ip "/oauth/token" = Some (c + 1, t0)) as He1'.
    { rewrite He1. unfold after_sweep. destruct (sweep r) as [t|] eqn:Et; [|done].
      simpl. apply sweep_entry_keeps. by apply Hsw. }
    destruct (IH s1 (c + 1) He1' ltac:(lia) Hrs') as (s2 & Hs2 & He2).
    exists s2. split.
    + simpl. rewrite Hd, Hs2. done.
    + rewrite He2. f_equal. f_equal. simpl length. lia.
Qed.

(** The request that opens a window is let through and counted as the
    first. *)
Lemma serve_opens_window (ip : string) (r : Request) (s : Requests) :
  token_request ip r ->
  lapsed (now r) (entry s ip "/oauth/token") ->
  in_window (now r) r ->
  exists s',
    dispatch r s = Some (CallNext, s') /\
    entry s' ip "/oauth/token" = Some (1, now r).
Proof.
  intros Htok Hl [_ Hsw].
  destruct (token_request_step ip r s Htok) as (s1 & Hd & He1).
  cbv zeta in Hd, He1.
  assert (step_entry (now r) 20 60 (entry s ip "/oauth/token")
          = ((true, 0), Some (1, now r))) as Hst.
  { unfold step_entry. destruct (entry s ip "/oauth/token") as [[c ws]|]; [|done].
    simpl in Hl. replace (Qgtb (now r - ws) (inject_Z 60)) with true; [done|].
    symmetry. by apply Qgtb_true. }
  rewrite Hst in Hd, He1. exists s1. split; [exact Hd|].
  rewrite He1. unfold after_sweep. simpl.
  destruct (sweep r) as [t|] eqn:Et; [|done].
  simpl. apply sweep_entry_keeps. by apply Hsw.
Qed.

(** From one client IP, the request that opens a window on
    [/oauth/token] and the next 19 that arrive within 60 seconds of it
    are let through; on the 21st, still inside the window, [dispatch]
    raises its [HTTPException(429)] with
    [Retry-After = int(60 - elapsed) + 1]. *)
Lemma token_budget_outcomes
    (ip : string) (r1 : Request) (rs : list Request) (r21 : Request)
    (s : Requests) :
  length rs = 19%nat ->
  lapsed (now r1) (entry s ip "/oauth/token") ->
  Forall (fun r => token_request ip r /\ in_window (now r1) r)
         (r1 :: rs ++ [r21]) ->
  exists s',
    serve (r1 :: rs ++ [r21]) s
      = Some (repeat CallNext 20
              ++ [TooManyRequests (py_int (60 - (now r21 - now r1)) + 1)], s').
Proof.
  intros Hlen Hl Hall.
  inversion Hall as [|? ? [Htok1 Hw1] Hrest]; subst.
  apply Forall_app in Hrest as [Hrs H21].
  inversion H21 as [|? ? [Htok21 [Hw21 _]] _]; subst.
  destruct (serve_opens_window ip r1 s Htok1 Hl Hw1) as (s1 & Hd1 & He1).
  destruct (serve_within_budget ip (now r1) rs s1 1 He1 ltac:(lia) Hrs)
    as (s2 & Hs2 & He2).
  rewrite Hlen in Hs2, He2. simpl in He2.
  destruct (token_request_step ip r21 s2 Htok21) as (s3 & Hd3 & _).
  cbv zeta in Hd3. rewrite He2 in Hd3. unfold step_entry in Hd3.
  replace (Qgtb (now r21 - now r1) (inject_Z 60)) with false in Hd3
    by (symmetry; by apply Qgtb_false).
  simpl in Hd3. unfold outcome_of in Hd3. simpl in Hd3.
  exists s3.
  change (r1 :: rs ++ [r21]) with ([r1] ++ (rs ++ [r21])).
  change (repeat CallNext 20 ++ [TooManyRequests (py_int (60 - (now r21 - now r1)) + 1)])
    with ([CallNext] ++ (repeat CallNext 19 ++ [TooManyRequests (py_int (60 - (now r21 - now r1)) + 1)])).
  eapply serve_app; [simpl; by rewrite Hd1|].
  eapply serve_app; [exact Hs2|]. simpl. by rewrite Hd3.
Qed.

(** The value of the header the limiter computes: between 1 and 61 when
    the request falls in the window, and at most 60 once the clock has
    moved since the window opened. *)
Lemma retry_after_bounds (elapsed : Q) :
  (0 <= elapsed <= 60)%Q ->
  1 <= py_int (60 - elapsed) + 1 <= 61 /\
  ((0 < elapsed)%Q -> py_int (60 - elapsed) + 1 <= 60).
Proof.
  intros [H0 H60].
  assert (0 <= 60 - elapsed)%Q as Hpos by lra.
  pose proof (py_int_nonneg _ Hpos) as Hlo.
  assert (py_int (60 - elapsed) <= 60) as Hhi
    by (apply py_int_le; [done|unfold inject_Z; lra]).
  split; [lia|]. intros Hlt.
  assert (py_int (60 - elapsed) < 60)
    by (apply py_int_lt; [done|unfold inject_Z; lra]).
  lia.
Qed.

(** 21 requests served at one and the same clock reading leave the whole
    window to wait for: the header computed for the 21st is 61. *)
Example retry_after_can_be_61 :
  fst <$> serve (repeat (token_post "10.0.0.1" 0%Q None) 21) ∅
    = Some (repeat CallNext 20 ++ [TooManyRequests 61]) /\
  ~ retry_after_within 1 60 (TooManyRequests 61).
Proof.
  split; [vm_compute; reflexivity|]. simpl. lia.
Qed.

(** *** What the client receives *)

Lemma client_responses_app (app : Request -> ClientResponse)
    (rs1 rs2 : list Request) (os1 os2 : list Outcome) :
  length rs1 = length os1 ->
  client_responses app (rs1 ++ rs2) (os1 ++ os2)
    = client_responses app rs1 os1 ++ client_responses app rs2 os2.
Proof.
  revert os1. induction rs1 as [|r rs1 IH]; intros [|o os1] Hlen;
    try discriminate; [done|].
  simpl. rewrite IH; [done|]. by injection Hlen.
Qed.

Lemma client_responses_allowed (app : Request -> ClientResponse)
    (rs : list Request) :
  client_responses app rs (repeat CallNext (length rs)) = map app rs.
Proof. induction rs as [|r rs IH]; simpl; [done|]. by rewrite IH. Qed.

(** A run that lets its first requests through and refuses the last:
    the client gets the application's answers, then a 500 without
    [Retry-After]. *)
Lemma client_responses_refused (app : Request -> ClientResponse)
    (rs : list Request) (r_last : Request) (retry : Z) :
  client_responses app (rs ++ [r_last])
    (repeat CallNext (length rs) ++ [TooManyRequests retry])
  = map app rs ++ [{| status_code := 500; retry_after_header := None |}].
Proof.
  rewrite client_responses_app by (by rewrite repeat_length).
  by rewrite client_responses_allowed.
Qed.

(** C7: the limiter counts as the claim says and then fails to answer
    as it says.  From one client IP, the request that opens a window on
    [/oauth/token] and the next 19 inside the 60 seconds are handed to
    the application; on the 21st [dispatch] raises [HTTPException(429)]
    with [Retry-After = int(60 - elapsed) + 1].  Raised inside the
    middleware, the exception reaches the client as a 500 without
    [Retry-After], not as the 429 with the header that the claim
    promises.  The clock readings are doubles of the present epoch, on
    which the arithmetic of the code is exact. *)
Theorem token_limit_answered_500
    (ip : string) (r1 : Request) (rs : list Request) (r21 : Request)
    (s : Requests) (app : Request -> ClientResponse) :
  length rs = 19%nat ->
  lapsed (now r1) (entry s ip "/oauth/token") ->
  epoch_entry (entry s ip "/oauth/token") = true ->
  Forall (fun r => token_request ip r /\ in_window (now r1) r
                   /\ epoch_clock r = true)
         (r1 :: rs ++ [r21]) ->
  exists s' retry,
    serve (r1 :: rs ++ [r21]) s
      = Some (repeat CallNext 20 ++ [TooManyRequests retry], s') /\
    retry = py_int (60 - (now r21 - now r1)) + 1 /\
    client_responses app (r1 :: rs ++ [r21])
      (repeat CallNext 20 ++ [TooManyRequests retry])
    = map app (r1 :: rs)
      ++ [{| status_code := 500; retry_after_header := None |}].
Proof.
  intros Hlen Hl _ Hall.
  assert (Forall (fun r => token_request ip r /\ in_window (now r1) r)
                 (r1 :: rs ++ [r21])) as Hall'.
  { eapply List.Forall_impl; [|exact Hall]. by intros r (? & ? & _). }
  destruct (token_budget_outcomes ip r1 rs r21 s Hlen Hl Hall') as [s' Hs].
  exists s', (py_int (60 - (now r21 - now r1)) + 1).
  split; [exact Hs|]. split; [done|].
  change (r1 :: rs ++ [r21]) with ((r1 :: rs) ++ [r21]).
  replace 20%nat with (length (r1 :: rs)) by (simpl; by rewrite Hlen).
  apply client_responses_refused.
Qed.

Lemma token_limit_answered_500_witness :
  exists s' retry,
    serve (token_post "10.0.0.1" 1700000000%Q None
             :: repeat (token_post "10.0.0.1" 1700000010%Q None) 19
             ++ [token_post "10.0.0.1" 1700000020%Q None]) ∅
      = Some (repeat CallNext 20 ++ [TooManyRequests retry], s') /\
    retry = py_int (60 - (1700000020 - 1700000000))%Q + 1 /\
    client_responses
      (fun _ => {| status_code := 200; retry_after_header := None |})
      (token_post "10.0.0.1" 1700000000%Q None
         :: repeat (token_post "10.0.0.1" 1700000010%Q None) 19
         ++ [token_post "10.0.0.1" 1700000020%Q None])
      (repeat CallNext 20 ++ [TooManyRequests retry])
    = repeat {| status_code := 200; retry_after_header := None |} 20
      ++ [{| status_code := 500; retry_after_header := None |}].
Proof.
  apply (token_limit_answered_500 "10.0.0.1"
           (token_post "10.0.0.1" 1700000000%Q None)
           (repeat (token_post "10.0.0.1" 1700000010%Q None) 19)
           (token_post "10.0.0.1" 1700000020%Q None) ∅
           (fun _ => {| status_code := 200; retry_after_header := None |})).
  - reflexivity.
  - exact I.
  - reflexivity.
  - simpl. repeat constructor; simpl; try lra; discriminate.
Defined.

(** *** Independence of client IPs *)

Lemma lapsed_mono (t t' : Time) (e : option (Z * Q)) :
  (t <= t')%Q -> lapsed t e -> lapsed t' e.
Proof.
  destruct e as [[c ws]|]; simpl; [|done]. intros. lra.
Qed.

Lemma sweep_entry_cases (t : Time) (e : option (Z * Q)) :
  e ≫= sweep_entry t = e \/ (e ≫= sweep_entry t = None /\ lapsed t e).
Proof.
  destruct e as [[c ws]|]; simpl; [|by left].
  unfold sweep_entry. simpl snd.
  destruct (Qgtb (t - ws) (inject_Z (max_window * 2))) eqn:E; [|by left].
  right. split; [done|]. apply Qgtb_true in E.
  change (inject_Z (max_window * 2)) with 120%Q in E. lra.
Qed.

Lemma lapsed_after_sweep (r : Request) (b : bool) (t : Time) (e : option (Z * Q)) :
  lapsed t e -> lapsed t (after_sweep r b e).
Proof.
  intros H. unfold after_sweep. destruct b; [|done].
  destruct (sweep r) as [t'|]; [|done].
  destruct (sweep_entry_cases t' e) as [->|[-> _]]; done.
Qed.

Lemma step_entry_lapsed (t now : Time) (m : Z) (e : option (Z * Q)) :
  (t <= now)%Q -> lapsed t e ->
  step_entry now m 60 e = ((true, 0), Some (1, now)).
Proof.
  intros Ht Hl. destruct e as [[c ws]|]; simpl in *; [|done].
  replace (Qgtb (now - ws) (inject_Z 60)) with true; [done|].
  symmetry. apply Qgtb_true. unfold inject_Z. lra.
Qed.

Lemma agree_refl (A : string) (t : Time) (s : Requests) : agree A t s s.
Proof. intros k. by left. Qed.

Lemma clock_from_weaken (rs : list Request) :
  forall t t', (t' <= t)%Q -> clock_from t rs -> clock_from t' rs.
Proof.
  induction rs as [|r rs IH]; simpl; intros t t' Hle H; [done|].
  destruct (exempt (path r)); [by eapply IH|].
  destruct H as [H1 H2]. split; [lra|done].
Qed.

Lemma clock_from_filter (P : Request -> bool) (rs : list Request) :
  forall t, clock_from t rs -> clock_from t (List.filter P rs).
Proof.
  induction rs as [|r rs IH]; simpl; intros t H; [done|].
  destruct (exempt (path r)) eqn:Hex.
  - destruct (P r); simpl; [rewrite Hex|]; by apply IH.
  - destruct H as [H1 H2]. destruct (P r); simpl.
    + rewrite Hex. split; [done|].
      destruct (sweep r) as [t'|]; [destruct H2; split; [done|]|]; by apply IH.
    + destruct (sweep r) as [t'|].
      * destruct H2 as [H2 H3]. apply IH.
        eapply clock_from_weaken; [|exact H3]. lra.
      * apply IH. eapply clock_from_weaken; [|exact H2]. lra.
Qed.

Lemma clock_from_cons (t : Time) (r : Request) (rs : list Request) :
  exempt (path r) = false ->
  clock_from t (r :: rs) ->
  (t <= now r)%Q /\ (now r <= clock_after r)%Q /\ clock_from (clock_after r) rs.
Proof.
  simpl. intros -> [H1 H2]. unfold clock_after.
  destruct (sweep r) as [t'|]; [destruct H2|]; repeat split; try done; lra.
Qed.

Lemma sweep_agree (r : Request) (b : bool) (t : Time) (e1 e2 : option (Z * Q)) :
  (t <= now r)%Q -> (now r <= clock_after r)%Q ->
  e1 = e2 \/ (lapsed t e1 /\ lapsed t e2) ->
  after_sweep r b e1 = after_sweep r b e2 \/
  (lapsed (clock_after r) (after_sweep r b e1) /\
   lapsed (clock_after r) (after_sweep r b e2)).
Proof.
  intros H1 H2 [->|[Hl1 Hl2]]; [by left|]. right.
  split; apply lapsed_after_sweep; (eapply lapsed_mono; [|eassumption]); lra.
Qed.

(** A request of another IP leaves the entries of [A] as they were, or
    lapsed. *)
Lemma sweep_one_side (r : Request) (b : bool) (t : Time) (e1 e2 : option (Z * Q)) :
  (t <= now r)%Q -> (now r <= clock_after r)%Q ->
  e1 = e2 \/ (lapsed t e1 /\ lapsed t e2) ->
  after_sweep r b e1 = e2 \/
  (lapsed (clock_after r) (after_sweep r b e1) /\ lapsed (clock_after r) e2).
Proof.
  intros H1 H2 Hag.
  assert (t <= clock_after r)%Q as Hle by lra.
  unfold after_sweep. destruct b.
  - unfold clock_after in *. destruct (sweep r) as [t'|].
    + destruct (sweep_entry_cases t' e1) as [->|[-> Hl]].
      * destruct Hag as [->|[Hl1 Hl2]]; [by left|right].
        split; eapply lapsed_mono; eauto.
      * right. split; [done|].
        destruct Hag as [<-|[_ Hl2]]; [done|]. eapply lapsed_mono; eauto.
    + destruct Hag as [->|[Hl1 Hl2]]; [by left|right].
      split; eapply lapsed_mono; eauto.
  - destruct Hag as [->|[Hl1 Hl2]]; [by left|right].
    split; eapply lapsed_mono; eauto.
Qed.

(** A run against the same run with the requests of every other IP left
    out: the requests of [A] get the same outcomes. *)
Lemma serve_filter (A : string) (rs : list Request) :
  forall (t : Time) (s1 s2 : Requests),
    clock_from t rs -> agree A t s1 s2 ->
    exists os1 s1' os2 s2',
      serve rs s1 = Some (os1, s1') /\
      serve (List.filter (from A) rs) s2 = Some (os2, s2') /\
      project A rs os1 = os2.
Proof.
  induction rs as [|r rs IH]; intros t s1 s2 Hclk Hag.
  { exists [], s1, [], s2. done. }
  destruct (exempt (path r)) eqn:Hex.
  - (* no clock reading, no change of the table *)
    simpl in Hclk. rewrite Hex in Hclk.
    destruct (IH t s1 s2 Hclk Hag) as (os1 & s1' & os2 & s2' & H1 & H2 & Hp).
    assert (forall s, dispatch r s = Some (CallNext, s)) as Hd
      by (intros s; unfold dispatch; by rewrite Hex).
    simpl. rewrite Hd, H1. destruct (from A r) eqn:Hfrom; simpl.
    + rewrite Hd, H2. do 4 eexists. split; [done|]. split; [done|].
      simpl. rewrite ?Hfrom. by f_equal.
    + rewrite H2. do 4 eexists. split; [done|]. split; [done|].
      simpl. by rewrite ?Hfrom.
  - destruct (clock_from_cons t r rs Hex Hclk) as (Ht1 & Ht2 & Hclk').
    destruct (dispatch_entry r s1 Hex) as (m & s1a & Hm & Hd1 & He1).
    cbv zeta in Hd1, He1.
    destruct (from A r) eqn:Hfrom.
    + (* a request of A: served in both runs *)
      apply String.eqb_eq in Hfrom as Hip.
      destruct (dispatch_entry r s2 Hex) as (m' & s2a & Hm' & Hd2 & He2).
      cbv zeta in Hd2, He2.
      rewrite Hm in Hm'. injection Hm' as <-.
      rewrite Hip in *.
      assert (step_entry (now r) m 60 (entry s1 A (_get_limit_key (path r)))
              = step_entry (now r) m 60 (entry s2 A (_get_limit_key (path r))))
        as Hst.
      { destruct (Hag (_get_limit_key (path r))) as [->|[Hl1 Hl2]]; [done|].
        by rewrite (step_entry_lapsed t (now r) m _ Ht1 Hl1),
                   (step_entry_lapsed t (now r) m _ Ht1 Hl2). }
      rewrite <- Hst in Hd2, He2.
      assert (agree A (clock_after r) s1a s2a) as Hag'.
      { intros k. rewrite He1, He2. apply (sweep_agree r _ t); [done..|].
        case_decide; [by left|apply Hag]. }
      destruct (IH _ s1a s2a Hclk' Hag')
        as (os1 & s1' & os2 & s2' & H1 & H2 & Hp).
      simpl. rewrite Hfrom. simpl. rewrite Hd1, H1, Hd2, H2.
      do 4 eexists. split; [done|]. split; [done|].
      simpl. rewrite ?Hfrom. by f_equal.
    + (* a request of another IP: served in the first run only *)
      apply String.eqb_neq in Hfrom as Hip.
      assert (agree A (clock_after r) s1a s2) as Hag'.
      { intros k. rewrite He1. rewrite decide_False by (intros [? _]; done).
        apply (sweep_one_side r _ t); [done..|]. apply Hag. }
      destruct (IH _ s1a s2 Hclk' Hag')
        as (os1 & s1' & os2 & s2' & H1 & H2 & Hp).
      simpl. rewrite Hfrom. rewrite Hd1, H1, H2.
      do 4 eexists. split; [done|]. split; [done|].
      simpl. by rewrite ?Hfrom.
Qed.

(** C9, as amended: the outcomes the limiter gives to the requests of
    one client IP (let through, or refused with which [Retry-After]) are
    the same in any two runs that start from the same table and contain
    the same requests of that IP, whatever the other IPs send in either
    run, as long as the clock of each run never goes back. *)
Theorem per_ip_noninterference
    (A : string) (s : Requests) (rs1 rs2 : list Request) :
  monotone_clock rs1 ->
  monotone_clock rs2 ->
  List.filter (from A) rs1 = List.filter (from A) rs2 ->
  exists os1 s1 os2 s2,
    serve rs1 s = Some (os1, s1) /\
    serve rs2 s = Some (os2, s2) /\
    project A rs1 os1 = project A rs2 os2.
Proof.
  intros [t1 Hc1] [t2 Hc2] Hsame.
  destruct (serve_filter A rs1 t1 s s Hc1 (agree_refl _ _ _))
    as (os1 & s1 & osA & sA & H1 & HA & Hp1).
  destruct (serve_filter A rs2 t2 s s Hc2 (agree_refl _ _ _))
    as (os2 & s2 & osA' & sA' & H2 & HA' & Hp2).
  rewrite <- Hsame, HA in HA'. injection HA' as <- <-.
  exists os1, s1, os2, s2. repeat split; [done..|]. by rewrite Hp1, Hp2.
Qed.

Lemma per_ip_noninterference_witness :
  exists os1 s1 os2 s2,
    serve [token_post "10.0.0.1" 0%Q None;
           token_post "10.0.0.2" 1%Q (Some 200%Q);
           token_post "10.0.0.1" 201%Q None] ∅ = Some (os1, s1) /\
    serve [token_post "10.0.0.1" 0%Q None;
           token_post "10.0.0.1" 201%Q None] ∅ = Some (os2, s2) /\
    project "10.0.0.1"
      [token_post "10.0.0.1" 0%Q None;
       token_post "10.0.0.2" 1%Q (Some 200%Q);
       token_post "10.0.0.1" 201%Q None] os1
    = project "10.0.0.1"
        [token_post "10.0.0.1" 0%Q None;
         token_post "10.0.0.1" 201%Q None] os2.
Proof.
  apply (per_ip_noninterference "10.0.0.1" ∅
           [token_post "10.0.0.1" 0%Q None;
            token_post "10.0.0.2" 1%Q (Some 200%Q);
            token_post "10.0.0.1" 201%Q None]
           [token_post "10.0.0.1" 0%Q None;
            token_post "10.0.0.1" 201%Q None]).
  - exists 0%Q. simpl. repeat split; lra.
  - exists 0%Q. simpl. repeat split; lra.
  - reflexivity.
Defined.

(** C9 as stated fails when the clock steps back.  Client 10.0.0.1
    uses up its budget at one reading and asks again 30 seconds later.
    Alone, it is refused with [Retry-After: 31].  When 10.0.0.2 sends one
    request in between that reads the clock 121 seconds after the window
    opened, its sweep deletes the entry of 10.0.0.1, whose last request,
    read 91 seconds earlier on a clock that has stepped back, then opens
    a new window and is let through. *)
Lemma other_ip_sweep_changes_outcomes :
  List.filter (from "10.0.0.1")
    (repeat (token_post "10.0.0.1" 1700000000%Q None) 20
     ++ [token_post "10.0.0.2" 1700000121%Q (Some 1700000121%Q);
         token_post "10.0.0.1" 1700000030%Q None])
  = List.filter (from "10.0.0.1")
      (repeat (token_post "10.0.0.1" 1700000000%Q None) 20
       ++ [token_post "10.0.0.1" 1700000030%Q None]) /\
  project "10.0.0.1"
    (repeat (token_post "10.0.0.1" 1700000000%Q None) 20
     ++ [token_post "10.0.0.2" 1700000121%Q (Some 1700000121%Q);
         token_post "10.0.0.1" 1700000030%Q None])
  <$> (fst <$> serve
         (repeat (token_post "10.0.0.1" 1700000000%Q None) 20
          ++ [token_post "10.0.0.2" 1700000121%Q (Some 1700000121%Q);
              token_post "10.0.0.1" 1700000030%Q None]) ∅)
  = Some (repeat CallNext 21) /\
  project "10.0.0.1"
    (repeat (token_post "10.0.0.1" 1700000000%Q None) 20
     ++ [token_post "10.0.0.1" 1700000030%Q None])
  <$> (fst <$> serve
         (repeat (token_post "10.0.0.1" 1700000000%Q None) 20
          ++ [token_post "10.0.0.1" 1700000030%Q None]) ∅)
  = Some (repeat CallNext 20 ++ [TooManyRequests 31]) /\
  repeat CallNext 21 <> repeat CallNext 20 ++ [TooManyRequests 31].
Proof.
  split; [vm_compute; reflexivity|].
  split; [vm_compute; reflexivity|].
  split; [vm_compute; reflexivity|].
  discriminate.
Qed.

End RateLimitProps.
(** ** Test vectors of the S256 transformation *)

Example sha256_abc :
  Sha256.sha256 (Sha256.bytes_of_string "abc")
  = [186; 120; 22; 191; 143; 1; 207; 234; 65; 65; 64; 222; 93; 174; 34; 35;
     176; 3; 97; 163; 150; 23; 122; 156; 180; 16; 255; 97; 242; 0; 21; 173].
Proof. vm_compute. reflexivity. Qed.

(** The example of RFC 7636, appendix B. *)
Example s256_rfc7636 :
  s256 "dBjftJeZ4CVP-mB92K27uhbUJU1p1r_wW1gFWFOEjXk"
  = "E9Melhoa2OwvFrEMTJguCHaoeK1t8URWbuGJSstw-cM".
Proof. vm_compute. reflexivity. Qed.

(** ** The session monad *)

Module StoreProps.
Import Store.
Local Open Scope handler_scope.

(** The monad laws, state by state. *)
Lemma bind_ret_l {A B : Type} (a : A) (k : A -> M B) (s : Session) :
  (x <- ret a ;; k x) s = k a s.
Proof. reflexivity. Qed.

Lemma bind_ret_r {A : Type} (m : M A) (s : Session) :
  (x <- m ;; ret x) s = m s.
Proof. unfold bind, ret. by destruct (m s) as [[e|a] s']. Qed.

Lemma bind_assoc {A B C : Type} (m : M A) (k : A -> M B) (h : B -> M C)
    (s : Session) :
  (y <- (x <- m ;; k x) ;; h y) s = (x <- m ;; y <- k x ;; h y) s.
Proof. unfold bind. by destruct (m s) as [[e|a] s']. Qed.

(** An exception ends the handler: what follows is not run. *)
Lemma bind_raise {A B : Type} (e : Exn) (k : A -> M B) (s : Session) :
  (x <- raise e ;; k x) s = (inl e, s).
Proof. reflexivity. Qed.

(** A handler that raises before it commits leaves the store as it was,
    whatever it had changed in its session. *)
Lemma run_update_raise {A : Type} (f : Db -> Db) (e : Exn) (db : Db) :
  run (update f ;;; @raise A e) db = (inl e, db).
Proof. reflexivity. Qed.

(** What a handler commits is what its session holds at that point. *)
Lemma run_update_commit (f : Db -> Db) (db : Db) :
  run (update f ;;; commit) db = (inr tt, f db).
Proof. reflexivity. Qed.

End StoreProps.

(** ** Properties of the admin endpoints *)

Module AdminProps.
Import Py Store AuditService Admin Samples.
Local Open Scope handler_scope.

(** *** Writing a table back unchanged *)

Lemma set_application_access_id
    (f : list ApplicationAccess.t -> list ApplicationAccess.t) (db : Db) :
  f (application_access db) = application_access db ->
  set_application_access f db = db.
Proof. destruct db. unfold set_application_access. simpl. by intros ->. Qed.

Lemma session_eta (s : Session) :
  {| committed := committed s; working := working s |} = s.
Proof. by destruct s. Qed.

Lemma filter_none {A : Type} (f : A -> bool) (l : list A) :
  (forall x, In x l -> f x = false) -> List.filter f l = [].
Proof.
  induction l as [|x l IH]; simpl; intros H; [done|].
  rewrite (H x) by auto. apply IH. auto.
Qed.

Lemma filter_all {A : Type} (f : A -> bool) (l : list A) :
  (forall x, In x l -> f x = true) -> List.filter f l = l.
Proof.
  induction l as [|x l IH]; simpl; intros H; [done|].
  rewrite (H x) by auto. f_equal. apply IH. auto.
Qed.

Lemma filter_singleton {A : Type} (f : A -> bool) (l : list A) (x : A) :
  List.filter f l = [x] -> f x = true.
Proof.
  intros H. assert (In x (List.filter f l)) as Hin by (rewrite H; by left).
  by apply filter_In in Hin as [_ ?].
Qed.

Lemma mem_In (x : UUID) (xs : list UUID) : mem x xs = true <-> In x xs.
Proof.
  unfold mem. rewrite existsb_exists. split.
  - intros (y & Hy & Heq). apply String.eqb_eq in Heq. by subst.
  - intros H. exists x. split; [done|]. apply String.eqb_refl.
Qed.

(** *** C10: an admin cannot strip their own privileges *)

(** C10: a user update that targets the acting admin with
    [is_admin = false], and a bulk [deactivate] or [remove_admin] whose
    ids include the acting admin, are refused with status 400 and the
    store is left as it was.  The acting admin is a row of the users
    table, the only one with that id. *)
Theorem self_demotion_refused :
  (forall (db : Db) (data : UserUpdateRequest) (request : HttpRequest)
          (admin row : User.t),
      List.filter (fun u => String.eqb (User.id u) (User.id admin)) (users db)
        = [row] ->
      upd_is_admin data = Some false ->
      run (update_user (User.id admin) data request admin) db
        = (inl (HTTPException 400 "Cannot remove your own admin status"), db))
  /\
  (forall (db : Db) (data : BulkUserActionRequest) (request : HttpRequest)
          (admin : User.t),
      In (User.id admin) (bulk_user_ids data) ->
      bulk_action data = "deactivate" \/ bulk_action data = "remove_admin" ->
      run (bulk_user_action data request admin) db
        = (inl (HTTPException 400 "Cannot perform this action on yourself"), db)).
Proof.
  split.
  - intros db data request admin row Hrow Hdata.
    pose proof (filter_singleton _ _ _ Hrow) as Hid. simpl in Hid.
    unfold run, update_user, bind, query. simpl. rewrite Hrow. simpl.
    rewrite Hid, Hdata. reflexivity.
  - intros db data request admin Hin Hact.
    unfold run, bulk_user_action.
    replace (mem (User.id admin) (bulk_user_ids data)) with true
      by (symmetry; by apply mem_In).
    replace (mem (bulk_action data) ["deactivate"; "remove_admin"]) with true
      by (destruct Hact as [-> | ->]; reflexivity).
    reflexivity.
Qed.

Lemma self_demotion_refused_witness :
  run (update_user (User.id admin0)
         {| upd_is_active := None; upd_is_admin := Some false |}
         request0 admin0) db0
    = (inl (HTTPException 400 "Cannot remove your own admin status"), db0)
  /\
  run (bulk_user_action
         {| bulk_user_ids := ["u-1"; "u-admin"]; bulk_action := "deactivate" |}
         request0 admin0) db0
    = (inl (HTTPException 400 "Cannot perform this action on yourself"), db0).
Proof.
  split.
  - apply (proj1 self_demotion_refused db0 _ request0 admin0 admin0);
      reflexivity.
  - apply (proj2 self_demotion_refused db0 _ request0 admin0).
    + simpl. auto.
    + by left.
Defined.

(** *** C8: granting what is granted, revoking what is not *)

Lemma grant_users_existing (admin_id app_id : UUID) (user_ids : list UUID) :
  forall (granted : Z) (s : Session),
    (forall u, In u user_ids ->
       exists row, user_grants u app_id (working s) = [row]) ->
    grant_users admin_id app_id user_ids granted s = (inr granted, s).
Proof.
  induction user_ids as [|u rest IH]; intros granted s H; [done|].
  destruct (H u ltac:(by left)) as [row Hrow].
  simpl. unfold bind at 1. unfold bind at 1. unfold query. rewrite Hrow. simpl.
  apply IH. intros u' Hu'. apply H. by right.
Qed.

Lemma grant_groups_existing (admin_id app_id : UUID) (group_ids : list UUID) :
  forall (granted : Z) (s : Session),
    (forall g, In g group_ids ->
       exists row, group_grants g app_id (working s) = [row]) ->
    grant_groups admin_id app_id group_ids granted s = (inr granted, s).
Proof.
  induction group_ids as [|g rest IH]; intros granted s H; [done|].
  destruct (H g ltac:(by left)) as [row Hrow].
  simpl. unfold bind at 1. unfold bind at 1. unfold query. rewrite Hrow. simpl.
  apply IH. intros g' Hg'. apply H. by right.
Qed.

Lemma delete_access_none (matches : ApplicationAccess.t -> bool) (s : Session) :
  (forall row, In row (application_access (working s)) -> matches row = false) ->
  delete_access matches s = (inr 0, s).
Proof.
  intros H. unfold delete_access, bind, query, update, ret. simpl.
  rewrite (filter_none _ _ H). simpl.
  rewrite set_application_access_id; [by rewrite session_eta|].
  apply filter_all. intros row Hrow. by rewrite (H row Hrow).
Qed.

Lemma revoke_users_none (data : AccessRevokeRequest) (s : Session) :
  no_grant (working s) (revoke_application_id data)
           (revoke_user_ids data) (revoke_group_ids data) ->
  match revoke_user_ids data with
  | [] => ret 0
  | _ :: _ => delete_access (revokes_user data)
  end s = (inr 0, s).
Proof.
  intros Hno. destruct (revoke_user_ids data) as [|u0 us] eqn:Eu; [done|].
  apply delete_access_none. intros row Hrow. unfold revokes_user.
  destruct (String.eqb (ApplicationAccess.application_id row) _) eqn:Ea;
    [|by rewrite andb_false_r].
  apply String.eqb_eq in Ea. destruct (Hno row Hrow Ea) as [Hnu _].
  destruct (ApplicationAccess.user_id row) as [u|]; [|done].
  rewrite andb_true_r. apply not_true_iff_false. rewrite mem_In, Eu.
  by apply Hnu.
Qed.

Lemma revoke_groups_none (data : AccessRevokeRequest) (s : Session) :
  no_grant (working s) (revoke_application_id data)
           (revoke_user_ids data) (revoke_group_ids data) ->
  match revoke_group_ids data with
  | [] => ret 0
  | _ :: _ => delete_access (revokes_group data)
  end s = (inr 0, s).
Proof.
  intros Hno. destruct (revoke_group_ids data) as [|g0 gs] eqn:Eg; [done|].
  apply delete_access_none. intros row Hrow. unfold revokes_group.
  destruct (String.eqb (ApplicationAccess.application_id row) _) eqn:Ea;
    [|by rewrite andb_false_r].
  apply String.eqb_eq in Ea. destruct (Hno row Hrow Ea) as [_ Hng].
  destruct (ApplicationAccess.group_id row) as [g|]; [|done].
  rewrite andb_true_r. apply not_true_iff_false. rewrite mem_In, Eg.
  by apply Hng.
Qed.

(** C8: granting access to principals that all hold the grant already
    adds no row, counts 0 and leaves the store as it was; revoking from
    principals none of which holds a grant deletes nothing, counts 0 and
    leaves the store as it was.  Grant rows are unique per application
    and principal, application rows per id. *)
Theorem grant_revoke_idempotent :
  (forall (db : Db) (data : AccessGrantRequest) (request : HttpRequest)
          (admin : User.t) (app : Application.t),
      List.filter
        (fun a => String.eqb (Application.id a) (grant_application_id data))
        (applications db) = [app] ->
      (forall u, In u (grant_user_ids data) ->
         exists row, user_grants u (grant_application_id data) db = [row]) ->
      (forall g, In g (grant_group_ids data) ->
         exists row, group_grants g (grant_application_id data) db = [row]) ->
      run (grant_access data request admin) db
        = (inr (JDict [("granted", JInt 0)]), db))
  /\
  (forall (db : Db) (data : AccessRevokeRequest) (request : HttpRequest)
          (admin : User.t),
      (length (List.filter
                 (fun a => String.eqb (Application.id a)
                             (revoke_application_id data))
                 (applications db)) <= 1)%nat ->
      no_grant db (revoke_application_id data)
               (revoke_user_ids data) (revoke_group_ids data) ->
      run (revoke_access data request admin) db
        = (inr (JDict [("revoked", JInt 0)]), db)).
Proof.
  split.
  - intros db data request admin app Happ Hu Hg.
    unfold run, grant_access, application_by_id.
    unfold bind at 1. unfold bind at 1. unfold query. simpl. rewrite Happ. simpl.
    unfold bind at 1. rewrite grant_users_existing by exact Hu.
    unfold bind at 1. rewrite grant_groups_existing by exact Hg.
    reflexivity.
  - intros db data request admin Happ Hno.
    unfold run, revoke_access, application_by_id.
    unfold bind at 1. unfold bind at 1. unfold query. simpl.
    set (s := {| committed := db; working := db |}).
    assert (exists o, scalar_one_or_none
              (List.filter
                 (fun a => String.eqb (Application.id a)
                             (revoke_application_id data))
                 (applications db)) s = (inr o, s)) as [o ->].
    { destruct (List.filter _ (applications db)) as [|a [|a' l]]; simpl in *;
        [by eexists | by eexists | lia]. }
    unfold bind at 1. rewrite (revoke_users_none data s Hno).
    unfold bind at 1. rewrite (revoke_groups_none data s Hno).
    reflexivity.
Qed.

Lemma grant_revoke_idempotent_witness :
  run (grant_access
         {| grant_application_id := "app-1"; grant_user_ids := ["u-1"];
            grant_group_ids := [] |} request0 admin0) db1
    = (inr (JDict [("granted", JInt 0)]), db1)
  /\
  run (revoke_access
         {| revoke_application_id := "app-1"; revoke_user_ids := ["u-1"];
            revoke_group_ids := ["g-1"] |} request0 admin0) db0
    = (inr (JDict [("revoked", JInt 0)]), db0).
Proof.
  split.
  - apply (proj1 grant_revoke_idempotent db1 _ request0 admin0 app1).
    + reflexivity.
    + intros u [<-|[]]. by exists grant1.
    + intros g [].
  - apply (proj2 grant_revoke_idempotent db0 _ request0 admin0).
    + simpl. lia.
    + intros row [].
Defined.

(** *** C3: the audit trail *)

(** A sibling that does write its audit row: a user update that changes
    the active flag adds exactly one row, tagged [user.update] on the
    user, when the address of the request fits its column. *)
Lemma update_user_audited
    (db : Db) (b : bool) (request : HttpRequest) (admin user : User.t) :
  List.filter (fun u => String.eqb (User.id u) (User.id user)) (users db)
    = [user] ->
  User.id user <> User.id admin ->
  User.is_active user = negb b ->
  fits 45 (ip_of request) = true ->
  exists body db' row,
    run (update_user (User.id user)
           {| upd_is_active := Some b; upd_is_admin := None |}
           request admin) db = (inr body, db') /\
    audit_logs db' = audit_logs db ++ [row] /\
    AuditLog.action row = "user.update" /\
    AuditLog.entity_type row = "user" /\
    AuditLog.entity_id row = Some (User.id user).
Proof.
  intros Hrow Hne Hact Hfit.
  unfold run, update_user, log_action, bind, query. simpl. rewrite Hrow. simpl.
  replace (String.eqb (User.id user) (User.id admin)) with false
    by (symmetry; by apply String.eqb_neq).
  simpl. rewrite Hact.
  destruct b; simpl; rewrite Hfit; simpl; do 3 eexists; repeat split.
Qed.

(** C3 at the failing input: toggling [is_public] succeeds, changes the
    application row in the store, and adds no audit row. *)
Theorem set_application_public_unaudited
    (db : Db) (app_id : UUID) (is_public : bool) (admin : User.t)
    (app : Application.t) :
  List.filter (fun a => String.eqb (Application.id a) app_id) (applications db)
    = [app] ->
  exists db',
    run (set_application_public app_id is_public admin) db
      = (inr (JDict [("application_id", JStr app_id);
                     ("is_public", JBool is_public)]), db') /\
    applications db'
      = store_application (with_is_public is_public app) (applications db) /\
    audit_logs db' = audit_logs db /\
    audit_rows_added db db' = 0%nat.
Proof.
  intros Happ.
  unfold run, set_application_public, application_by_id, bind, query. simpl.
  rewrite Happ. simpl. eexists. split; [reflexivity|]. simpl.
  split; [done|]. split; [done|].
  unfold audit_rows_added. simpl. lia.
Qed.

Lemma set_application_public_unaudited_witness :
  exists db',
    run (set_application_public "app-1" true admin0) db0
      = (inr (JDict [("application_id", JStr "app-1");
                     ("is_public", JBool true)]), db') /\
    applications db'
      = store_application (with_is_public true app1) (applications db0) /\
    audit_logs db' = audit_logs db0 /\
    audit_rows_added db0 db' = 0%nat.
Proof.
  apply (set_application_public_unaudited db0 "app-1" true admin0 app1).
  reflexivity.
Defined.

(** The toggle is a real change of the store. *)
Example set_application_public_changes_store :
  applications (snd (run (set_application_public "app-1" true admin0) db0))
    <> applications db0.
Proof. vm_compute. discriminate. Qed.

End AdminProps.

(** ** Properties of the application listing *)

Module ApplicationsProps.
Import Py Store Applications Samples.

(** C2, as amended: the listing returns exactly the applications of the
    store that are active and pass the department gate, the user's
    department being read as the empty string when there is none; the
    store is left as it was. *)
Theorem listing_is_active_and_department (db : Db) (u : User.t) :
  exists listing,
    run (list_applications u) db = (inr listing, db) /\
    forall a,
      In a listing <->
      In a (applications db) /\ Application.is_active a = true /\
      department_gate (or_empty (User.department u)) a = true.
Proof.
  eexists. split; [reflexivity|].
  intros a. rewrite !filter_In. tauto.
Qed.

(** C2 as stated fails: a private application that nobody was granted is
    listed for a user who is not an admin, although the access test of
    the specification refuses it. *)
Lemma listing_shows_ungranted_application :
  exists listing,
    run (list_applications user1) db0 = (inr listing, db0) /\
    In app1 listing /\
    spec_may_use db0 user1 app1 = false.
Proof.
  eexists. split; [reflexivity|]. split; [by left|]. reflexivity.
Qed.

End ApplicationsProps.

(** ** Properties of the OAuth endpoints *)

Module OAuthProps.
Import Py Store OAuth Samples OAuthSamples.
Local Open Scope handler_scope.

Section ServiceProps.

Variable verify_secret : string -> string -> bool.
Variable sign_id_token : UUID -> string -> Timestamp -> list string -> string.

Abbreviation token := (OAuth.token verify_secret sign_id_token).
Abbreviation revoke_token := (OAuth.revoke_token verify_secret).
Abbreviation authorize := OAuth.authorize.
Abbreviation passes := (OAuth.passes verify_secret).
Abbreviation issued_response := (OAuth.issued_response sign_id_token).
Abbreviation redeems := (OAuth.redeems verify_secret sign_id_token).
Abbreviation next_db := (OAuth.next_db verify_secret sign_id_token).
Abbreviation redemptions := (OAuth.redemptions verify_secret sign_id_token).

Lemma or_empty_Some (s : string) : or_empty (Some s) = s.
Proof. by destruct s. Qed.

(** *** C6: revocation answers the same whatever the token *)

(** C6: once the client credentials verify, the revocation endpoint
    returns 200 with the empty JSON object for every token value, be it
    unknown, of another client, or revoked already. *)
Theorem revoke_always_200_empty
    (env : Env) (db : Db) (tok : string) (hint : option string)
    (client_id client_secret : string) (app : Application.t) :
  fst (run (get_application_by_client_id client_id) db) = inr (Some app) ->
  verify_secret client_secret (Application.client_secret_hash app) = true ->
  exists db',
    run (revoke_token env tok hint client_id client_secret) db
      = (inr (JDict []), db') /\
    status_of (fst (run (revoke_token env tok hint client_id client_secret) db))
      = 200.
Proof.
  intros Happ Hsec.
  unfold run, get_application_by_client_id, query in Happ. simpl in Happ.
  injection Happ as Happ.
  unfold run, OAuth.revoke_token, get_application_by_client_id,
    service_revoke_token, bind, query. simpl.
  rewrite Happ, Hsec. simpl.
  destruct (oauth_tokens db !! tok) as [t|]; simpl; [|by eexists].
  destruct (String.eqb (OAuthToken.application_id t) (Application.id app)
            && negb (bool_decide (is_Some (OAuthToken.revoked_at t))));
    simpl; by eexists.
Qed.

(** *** C5: failures before the client and the redirect are trusted *)

Lemma method_guard_false (m : option string) :
  truthy_opt m && negb (existsb (String.eqb (or_empty m)) ["S256"; "plain"])
    = false
  <-> acceptable_method m.
Proof.
  unfold acceptable_method. destruct m as [[|a s]|];
    [split; [by left|done] | | split; [by left|done]].
  change (or_empty (Some (String a s))) with (String a s).
  change (truthy_opt (Some (String a s))) with true.
  cbn [andb existsb]. rewrite negb_false_iff, !orb_true_iff. split.
  - intros [H|[H|H]]; [| |done].
    + apply String.eqb_eq in H. right. left. by rewrite H.
    + apply String.eqb_eq in H. right. right. by rewrite H.
  - intros [H|[H|H]]; [discriminate| |].
    + left. apply String.eqb_eq. congruence.
    + right. left. apply String.eqb_eq. congruence.
Qed.

(** C5, as amended: what the endpoint answers before it trusts the
    client and the redirect URI, for every request.  A
    [response_type] other than [code], and then a challenge method that
    is present and neither S256 nor plain, are answered with a redirect
    to the supplied URI before the client is looked at.  Past these two
    checks, an unknown or inactive client is answered with a redirect to
    the supplied URI that carries [error=invalid_client], and a URI that
    is not registered for a known, active client with a direct 400 and
    no redirect.  The store is left as it was in each case. *)
Theorem authorize_before_trust
    (env : Env) (db : Db) (response_type client_id redirect_uri scope : string)
    (state code_challenge code_challenge_method : option string)
    (current_user : option User.t) :
  (response_type <> "code" ->
   run (authorize env response_type client_id redirect_uri scope state
          code_challenge code_challenge_method current_user) db
     = (inr (RedirectResponse
               (redirect_uri ++ "?error=unsupported_response_type&state="
                ++ or_empty state)), db)) /\
  (response_type = "code" ->
   ~ acceptable_method code_challenge_method ->
   run (authorize env response_type client_id redirect_uri scope state
          code_challenge code_challenge_method current_user) db
     = (inr (RedirectResponse
               (redirect_uri
                ++ "?error=invalid_request&error_description=invalid_code_challenge_method&state="
                ++ or_empty state)), db)) /\
  (response_type = "code" ->
   acceptable_method code_challenge_method ->
   match fst (run (get_application_by_client_id client_id) db) with
   | inr (Some app) =>
       validate_redirect_uri app redirect_uri = false ->
       run (authorize env response_type client_id redirect_uri scope state
              code_challenge code_challenge_method current_user) db
         = (inl (HTTPException 400 "Invalid redirect_uri"), db)
   | _ =>
       run (authorize env response_type client_id redirect_uri scope state
              code_challenge code_challenge_method current_user) db
         = (inr (RedirectResponse
                   (redirect_uri ++ "?error=invalid_client&state="
                    ++ or_empty state)), db)
   end).
Proof.
  split; [|split].
  - intros Hrt. unfold run, OAuth.authorize.
    replace (String.eqb response_type "code") with false
      by (symmetry; by apply String.eqb_neq).
    reflexivity.
  - intros -> Hm. unfold run, OAuth.authorize.
    change (negb (String.eqb "code" "code")) with false. cbv iota.
    destruct (truthy_opt code_challenge_method && _) eqn:Hguard; [done|].
    by apply method_guard_false in Hguard.
  - intros -> Hm. apply method_guard_false in Hm as Hguard.
    unfold run, OAuth.authorize.
    change (negb (String.eqb "code" "code")) with false. cbv iota.
    rewrite Hguard.
    unfold get_application_by_client_id, bind, query. simpl.
    destruct (List.find _ (applications db)) as [app|]; simpl; [|done].
    by intros ->.
Qed.

(** *** The token endpoint, case by case *)

(** The exchange refuses with one of its two errors and leaves the
    session as it was, or every check passes and it commits the code
    consumed together with the tokens. *)
Lemma exchange_cases (env : Env) (form : TokenForm) (s : Session) :
  truthy_opt (code form) = true ->
  truthy_opt (redirect_uri form) = true ->
  (exists e,
     (e = "invalid_grant" \/ e = "invalid_client") /\
     exchange_code_for_tokens verify_secret sign_id_token env
       (or_empty (code form)) (client_id form) (client_secret form)
       (or_empty (redirect_uri form)) (code_verifier form) s
     = (inr (None, Some e), s))
  \/
  (exists c app,
     passes env form (working s) c app /\
     exchange_code_for_tokens verify_secret sign_id_token env
       (or_empty (code form)) (client_id form) (client_secret form)
       (or_empty (redirect_uri form)) (code_verifier form) s
     = (inr (Some (issued_response env form c), None),
        {| committed := issued env form (working s) c app;
           working := issued env form (working s) c app |})).
Proof.
  intros Hc Hr.
  unfold exchange_code_for_tokens, bind, query. simpl.
  destruct (oauth_codes (working s) !! or_empty (code form)) as [c|] eqn:Hlk;
    [|left; eexists; split; [by left|done]].
  destruct (OAuthCode.consumed_at c) as [t|] eqn:Hcons; simpl;
    [left; eexists; split; [by left|done]|].
  destruct (OAuthCode.expires_at c <? utcnow env) eqn:Hexp; simpl;
    [left; eexists; split; [by left|done]|].
  destruct (List.find _ (applications (working s))) as [app|] eqn:Happ;
    [|left; eexists; split; [by left|done]].
  destruct (String.eqb (Application.client_id app) (client_id form)) eqn:Hcid;
    simpl; [|left; eexists; split; [by left|done]].
  destruct (String.eqb (OAuthCode.redirect_uri c) (or_empty (redirect_uri form)))
    eqn:Hru; simpl; [|left; eexists; split; [by left|done]].
  apply String.eqb_eq in Hcid, Hru.
  destruct (OAuthCode.code_challenge c) as [challenge|] eqn:Hch.
  - destruct (pkce_ok _ challenge (code_verifier form)) eqn:Hpk;
      [|left; eexists; split; [by left|done]].
    right. exists c, app. split; [|reflexivity].
    unfold OAuth.passes. rewrite Hch. repeat split; try done.
  - destruct (client_secret form) as [secret|] eqn:Hsec;
      [|left; eexists; split; [by right|done]].
    destruct (verify_secret secret _) eqn:Hv;
      [|left; eexists; split; [by right|done]].
    right. exists c, app. split; [|reflexivity].
    unfold OAuth.passes. rewrite Hch. repeat split; try done.
    by exists secret.
Qed.

(** The authorization_code grant at the endpoint: a 400 that leaves the
    store as it was, or a redemption that passed every check. *)
Lemma token_code_cases (env : Env) (form : TokenForm) (db : Db) :
  grant_type form = "authorization_code" ->
  (exists detail,
     run (token env form) db = (inl (HTTPException 400 detail), db))
  \/
  (exists c app,
     passes env form db c app /\
     run (token env form) db
       = (inr (Some (issued_response env form c)), issued env form db c app)).
Proof.
  intros Hg. unfold run, OAuth.token. rewrite Hg.
  change (String.eqb "authorization_code" "authorization_code") with true.
  cbv iota.
  destruct (truthy_opt (code form)) eqn:Hc; [|left; by eexists].
  destruct (truthy_opt (redirect_uri form)) eqn:Hr; [|left; by eexists].
  change (negb true || negb true) with false. cbv iota.
  unfold bind. cbv beta.
  destruct (exchange_cases env form {| committed := db; working := db |} Hc Hr)
    as [(e & He & ->)|(c & app & Hp & ->)].
  - left. destruct He as [-> | ->]; by eexists.
  - right. exists c, app. split; [exact Hp|reflexivity].
Qed.

(** A code with a challenge and a request that fails the PKCE check:
    the exchange answers [invalid_grant], whatever else holds. *)
Lemma exchange_pkce_fail (env : Env) (form : TokenForm) (s : Session)
    (c : OAuthCode.t) (challenge : string) :
  oauth_codes (working s) !! or_empty (code form) = Some c ->
  OAuthCode.code_challenge c = Some challenge ->
  pkce_ok (OAuthCode.code_challenge_method c) challenge (code_verifier form)
    = false ->
  exchange_code_for_tokens verify_secret sign_id_token env
    (or_empty (code form)) (client_id form) (client_secret form)
    (or_empty (redirect_uri form)) (code_verifier form) s
  = (inr (None, Some "invalid_grant"), s).
Proof.
  intros Hlk Hch Hpk.
  unfold exchange_code_for_tokens, bind, query. simpl. rewrite Hlk.
  destruct (bool_decide _ || _); [done|].
  destruct (List.find _ _) as [app|]; [|done].
  destruct (negb _ || negb _); [done|].
  by rewrite Hch, Hpk.
Qed.

(** A consumed code: the exchange answers [invalid_grant]. *)
Lemma exchange_consumed (env : Env) (form : TokenForm) (s : Session) :
  consumed (or_empty (code form)) (working s) ->
  exchange_code_for_tokens verify_secret sign_id_token env
    (or_empty (code form)) (client_id form) (client_secret form)
    (or_empty (redirect_uri form)) (code_verifier form) s
  = (inr (None, Some "invalid_grant"), s).
Proof.
  intros (c & Hlk & [t Ht]).
  unfold exchange_code_for_tokens, bind, query. simpl. rewrite Hlk, Ht.
  reflexivity.
Qed.

(** When the exchange answers an error, the endpoint raises a 400 with
    that error as detail and the store is as it was. *)
Lemma token_code_error (env : Env) (form : TokenForm) (db : Db) (e : string) :
  grant_type form = "authorization_code" ->
  truthy e = true ->
  exchange_code_for_tokens verify_secret sign_id_token env
    (or_empty (code form)) (client_id form) (client_secret form)
    (or_empty (redirect_uri form)) (code_verifier form)
    {| committed := db; working := db |}
  = (inr (None, Some e), {| committed := db; working := db |}) ->
  exists detail,
    run (token env form) db = (inl (HTTPException 400 detail), db) /\
    (truthy_opt (code form) = true ->
     truthy_opt (redirect_uri form) = true -> detail = e).
Proof.
  intros Hg He Hex. unfold run, OAuth.token. rewrite Hg.
  change (String.eqb "authorization_code" "authorization_code") with true.
  cbv iota.
  destruct (truthy_opt (code form)) eqn:Hc;
    [|eexists; split; [reflexivity|done]].
  destruct (truthy_opt (redirect_uri form)) eqn:Hr;
    [|eexists; split; [reflexivity|done]].
  change (negb true || negb true) with false. cbv iota.
  unfold bind. cbv beta. rewrite Hex. simpl. rewrite He. simpl.
  eexists. split; [reflexivity|]. intros _ _. by destruct e.
Qed.

(** The other grants leave the table of codes as it was. *)
Lemma token_other_grant (env : Env) (form : TokenForm) (db : Db) :
  grant_type form <> "authorization_code" ->
  oauth_codes (snd (run (token env form) db)) = oauth_codes db.
Proof.
  intros Hg. unfold run, OAuth.token.
  replace (String.eqb (grant_type form) "authorization_code") with false
    by (symmetry; by apply String.eqb_neq).
  destruct (String.eqb (grant_type form) "refresh_token"); [|done].
  destruct (truthy_opt (form_refresh_token form)); [|done].
  simpl. unfold refresh_tokens, bind, query. simpl.
  destruct (oauth_tokens db !! _) as [t|]; [|done].
  destruct (_ || _ || _); [done|].
  destruct (List.find _ _) as [app|]; [|done].
  destruct (negb _); [done|].
  destruct (truthy _ && negb _); done.
Qed.

Lemma consumed_insert (C C' : string) (db : Db) (c : OAuthCode.t) (t : Timestamp)
    (f : gmap string OAuthToken.t -> gmap string OAuthToken.t) :
  (C' = C \/ consumed C db) ->
  consumed C (set_oauth_tokens f (set_oauth_codes (<[C' := consume t c]>) db)).
Proof.
  intros H. unfold consumed. simpl.
  destruct (decide (C' = C)) as [->|Hne].
  - exists (consume t c). by rewrite lookup_insert_eq.
  - destruct H as [?|(c0 & Hc0 & H0)]; [done|].
    exists c0. by rewrite lookup_insert_ne.
Qed.

Lemma consumed_ext (C : string) (db db' : Db) :
  oauth_codes db' = oauth_codes db -> consumed C db -> consumed C db'.
Proof. unfold consumed. by intros ->. Qed.

(** The authorization endpoint leaves the store as it was or adds one
    code under a string that was free: a consumed code stays as it is. *)
Lemma authorize_codes (env : Env) (response_type client_id redirect_uri scope : string)
    (state code_challenge code_challenge_method : option string)
    (current_user : option User.t) (db : Db) (C : string) :
  consumed C db ->
  consumed C (snd (run (authorize env response_type client_id redirect_uri
                          scope state code_challenge code_challenge_method
                          current_user) db)).
Proof.
  intros Hc. unfold run, OAuth.authorize.
  destruct (negb (String.eqb response_type "code")); [done|].
  destruct (truthy_opt code_challenge_method && _); [done|].
  unfold get_application_by_client_id, bind, query. simpl.
  destruct (List.find _ (applications db)) as [app|]; [|done].
  destruct (negb (validate_redirect_uri app redirect_uri)); [done|].
  destruct current_user as [user|]; [|done].
  unfold create_authorization_code, bind, query. simpl.
  destruct (oauth_codes db !! token_urlsafe env 0) as [taken|] eqn:Hfree;
    [done|].
  simpl. destruct Hc as (c & Hlk & Hcons). exists c. split; [|done].
  simpl. rewrite lookup_insert_ne; [done|]. intros Heq. congruence.
Qed.

Lemma revoke_codes (env : Env) (tok : string) (hint : option string)
    (client_id client_secret : string) (db : Db) :
  oauth_codes (snd (run (revoke_token env tok hint client_id client_secret) db))
    = oauth_codes db.
Proof.
  unfold run, OAuth.revoke_token, get_application_by_client_id,
    service_revoke_token, bind, query. simpl.
  destruct (List.find _ (applications db)) as [app|]; [|done].
  destruct (negb _); [done|]. simpl.
  destruct (oauth_tokens db !! tok) as [t|]; [|done].
  destruct (_ && _); done.
Qed.

(** Once consumed, consumed for good: no OAuth endpoint clears the mark
    or replaces the row. *)
Lemma consumed_preserved (C : string) (ev : Event) (db : Db) :
  consumed C db -> consumed C (next_db ev db).
Proof.
  intros Hc. destruct ev as [env rt cid ru sc st cc ccm u|env form|env tk hint cid cs];
    simpl.
  - by apply authorize_codes.
  - destruct (decide (grant_type form = "authorization_code")) as [Hg|Hg].
    + destruct (token_code_cases env form db Hg)
        as [(detail & ->)|(c & app & _ & ->)]; [done|].
      simpl. apply consumed_insert. by right.
    + eapply consumed_ext; [|exact Hc]. by apply token_other_grant.
  - eapply consumed_ext; [|exact Hc]. apply revoke_codes.
Qed.

(** A consumed code is not redeemed again. *)
Lemma redeems_consumed (C : string) (ev : Event) (db : Db) :
  consumed C db -> redeems C ev db = false.
Proof.
  intros Hc. destruct ev as [| env form |]; simpl; [done| |done].
  destruct (String.eqb (grant_type form) "authorization_code") eqn:Hg; [|done].
  destruct (String.eqb (or_empty (code form)) C) eqn:HC; [|done].
  apply String.eqb_eq in Hg, HC. subst C. simpl.
  destruct (token_code_error env form db "invalid_grant" Hg eq_refl
              (exchange_consumed env form {| committed := db; working := db |}
                 Hc)) as (detail & -> & _).
  reflexivity.
Qed.

(** A redemption that succeeds leaves the code consumed. *)
Lemma redeems_consumes (C : string) (ev : Event) (db : Db) :
  redeems C ev db = true -> consumed C (next_db ev db).
Proof.
  destruct ev as [| env form |]; simpl; [done| |done].
  destruct (String.eqb (grant_type form) "authorization_code") eqn:Hg; [|done].
  destruct (String.eqb (or_empty (code form)) C) eqn:HC; [|done].
  apply String.eqb_eq in Hg, HC. subst C. simpl.
  destruct (token_code_cases env form db Hg)
    as [(detail & ->)|(c & app & _ & ->)]; [done|].
  intros _. simpl. apply consumed_insert. by left.
Qed.

Lemma redemptions_consumed (C : string) (evs : list Event) :
  forall db, consumed C db -> redemptions C evs db = 0%nat.
Proof.
  induction evs as [|ev evs IH]; intros db Hc; [done|].
  simpl. rewrite (redeems_consumed C ev db Hc).
  by rewrite (IH _ (consumed_preserved C ev db Hc)).
Qed.

Lemma redemptions_le_1 (C : string) (evs : list Event) :
  forall db, (redemptions C evs db <= 1)%nat.
Proof.
  induction evs as [|ev evs IH]; intros db; simpl; [lia|].
  destruct (redeems C ev db) eqn:Hr.
  - rewrite (redemptions_consumed C evs _ (redeems_consumes C ev db Hr)). lia.
  - apply IH.
Qed.

(** *** C1: a code is redeemed at most once *)

(** C1: along any run of the OAuth endpoints, from any store, a code is
    redeemed successfully at most once; a successful redemption leaves
    the store, in one commit, with the code marked consumed and the
    tokens issued; once the code is consumed, every further redemption
    attempt is refused with a 400 that leaves the store as it was, its
    detail being [invalid_grant] whenever the request carries the code
    and a redirect URI; and no request to these endpoints clears the
    mark. *)
Theorem code_single_use (C : string) :
  (forall (evs : list Event) (db : Db), (redemptions C evs db <= 1)%nat) /\
  (forall (env : Env) (form : TokenForm) (db : Db),
     redeems C (Token env form) db = true ->
     exists c app,
       passes env form db c app /\
       run (token env form) db
         = (inr (Some (issued_response env form c)), issued env form db c app) /\
       consumed C (issued env form db c app) /\
       is_Some (oauth_tokens (issued env form db c app)
                  !! access_token (issued_response env form c))) /\
  (forall (env : Env) (form : TokenForm) (db : Db),
     consumed C db ->
     grant_type form = "authorization_code" ->
     code form = Some C ->
     exists detail,
       run (token env form) db = (inl (HTTPException 400 detail), db) /\
       (truthy C = true -> truthy_opt (redirect_uri form) = true ->
        detail = "invalid_grant")) /\
  (forall (ev : Event) (db : Db), consumed C db -> consumed C (next_db ev db)).
Proof.
  split; [|split; [|split; [|apply consumed_preserved]]].
  - intros evs db. apply redemptions_le_1.
  - intros env form db Hr. pose proof (redeems_consumes C _ _ Hr) as Hcons.
    simpl in Hr, Hcons.
    destruct (String.eqb (grant_type form) "authorization_code") eqn:Hg;
      [|done].
    apply String.eqb_eq in Hg.
    destruct (token_code_cases env form db Hg)
      as [(detail & Hfail)|(c & app & Hp & Hok)].
    + rewrite Hfail in Hr. simpl in Hr. by rewrite andb_false_r in Hr.
    + rewrite Hok in Hcons. simpl in Hcons.
      exists c, app. split; [exact Hp|]. split; [exact Hok|].
      split; [exact Hcons|].
      simpl. destruct (decide (token_urlsafe env 1 = token_urlsafe env 0)) as [->|Hne].
      * by rewrite lookup_insert_eq.
      * by rewrite lookup_insert_ne, lookup_insert_eq.
  - intros env form db Hc Hg Hcode.
    assert (or_empty (code form) = C) as HC
      by (rewrite Hcode; apply or_empty_Some).
    rewrite <- HC in Hc.
    destruct (token_code_error env form db "invalid_grant" Hg eq_refl
                (exchange_consumed env form {| committed := db; working := db |}
                   Hc)) as (detail & Hrun & Hdetail).
    exists detail. split; [exact Hrun|].
    intros HtC Htr. apply Hdetail; [|exact Htr]. by rewrite Hcode.
Qed.

(** *** C4: PKCE *)

(** C4: for a code issued with a challenge, a redemption succeeds only
    with a verifier whose S256 transform is the challenge (method S256)
    or that is the challenge itself (method plain); with any other
    verifier the endpoint answers 400 and leaves the store as it was,
    the detail being [invalid_grant] whenever the request carries the
    code and a redirect URI. *)
Theorem pkce_soundness
    (env : Env) (form : TokenForm) (db : Db) (C : string) (c : OAuthCode.t)
    (H : string) :
  grant_type form = "authorization_code" ->
  code form = Some C ->
  oauth_codes db !! C = Some c ->
  OAuthCode.code_challenge c = Some H ->
  (forall r db',
     run (token env form) db = (inr r, db') ->
     (OAuthCode.code_challenge_method c = Some "S256" ->
      exists v, code_verifier form = Some v /\ s256 v = H) /\
     (OAuthCode.code_challenge_method c = Some "plain" ->
      code_verifier form = Some H)) /\
  (forall v,
     code_verifier form = Some v ->
     (OAuthCode.code_challenge_method c = Some "S256" /\ s256 v <> H) \/
     (OAuthCode.code_challenge_method c = Some "plain" /\ v <> H) ->
     exists detail,
       run (token env form) db = (inl (HTTPException 400 detail), db) /\
       (truthy C = true -> truthy_opt (redirect_uri form) = true ->
        detail = "invalid_grant")).
Proof.
  intros Hg Hcode Hlk Hch.
  assert (or_empty (code form) = C) as HC
    by (rewrite Hcode; apply or_empty_Some).
  split.
  - intros r db' Hrun.
    destruct (token_code_cases env form db Hg)
      as [(detail & Hfail)|(c' & app & Hp & _)]; [congruence|].
    destruct Hp as (_ & _ & Hlk' & _ & _ & _ & _ & _ & Hpk).
    rewrite HC, Hlk in Hlk'. injection Hlk' as <-.
    rewrite Hch in Hpk. unfold pkce_ok in Hpk.
    destruct (code_verifier form) as [v|]; [|done].
    split; intros Hm; rewrite Hm in Hpk; simpl in Hpk.
    + exists v. split; [done|]. by apply String.eqb_eq.
    + f_equal. by apply String.eqb_eq.
  - intros v Hv Hbad.
    assert (pkce_ok (OAuthCode.code_challenge_method c) H (code_verifier form)
            = false) as Hpk.
    { rewrite Hv. unfold pkce_ok.
      destruct Hbad as [[-> Hne]|[-> Hne]]; simpl; by apply String.eqb_neq. }
    rewrite <- HC in Hlk.
    destruct (token_code_error env form db "invalid_grant" Hg eq_refl
                (exchange_pkce_fail env form
                   {| committed := db; working := db |} c H Hlk Hch Hpk))
      as (detail & Hrun & Hdetail).
    exists detail. split; [exact Hrun|].
    intros HtC Htr. apply Hdetail; [|exact Htr]. by rewrite Hcode.
Qed.

End ServiceProps.

Lemma revoke_always_200_empty_witness :
  exists db',
    run (OAuth.revoke_token verify0 env0 "no-such-token" None "abc" "s3cret") db0
      = (inr (JDict []), db') /\
    status_of
      (fst (run (OAuth.revoke_token verify0 env0 "no-such-token" None
                   "abc" "s3cret") db0)) = 200.
Proof.
  apply (revoke_always_200_empty verify0 env0 db0 "no-such-token" None
           "abc" "s3cret" app1); reflexivity.
Defined.

Lemma authorize_before_trust_witness :
  run (OAuth.authorize env0 "token" "abc" "https://evil.example/cb" "openid"
         (Some "xyz") None None None) db0
    = (inr (RedirectResponse
              "https://evil.example/cb?error=unsupported_response_type&state=xyz"),
       db0) /\
  run (OAuth.authorize env0 "code" "abc" "https://evil.example/cb" "openid"
         (Some "xyz") (Some "ch") (Some "S512") None) db0
    = (inr (RedirectResponse
              "https://evil.example/cb?error=invalid_request&error_description=invalid_code_challenge_method&state=xyz"),
       db0) /\
  run (OAuth.authorize env0 "code" "abc" "https://evil.example/cb" "openid"
         (Some "xyz") None None None) db0
    = (inl (HTTPException 400 "Invalid redirect_uri"), db0).
Proof.
  split; [|split].
  - apply (proj1 (authorize_before_trust env0 db0 "token" "abc"
                    "https://evil.example/cb" "openid" (Some "xyz")
                    None None None)).
    discriminate.
  - apply (proj1 (proj2 (authorize_before_trust env0 db0 "code" "abc"
                           "https://evil.example/cb" "openid" (Some "xyz")
                           (Some "ch") (Some "S512") None))).
    + reflexivity.
    + intros [H|[H|H]]; discriminate.
  - apply (proj2 (proj2 (authorize_before_trust env0 db0 "code" "abc"
                           "https://evil.example/cb" "openid" (Some "xyz")
                           None None None))).
    + reflexivity.
    + by left.
    + reflexivity.
Defined.

(** C5 as stated fails on three paths, each answered with a redirect to
    the supplied, unverified URI and not with a 4xx: an unknown client;
    a known client with an unregistered URI and a [response_type] other
    than [code]; a known client with an unregistered URI and a challenge
    method that is not accepted. *)
Lemma authorize_redirects_to_unverified_uri :
  (fst (run (get_application_by_client_id "nobody") db0) = inr None /\
   run (OAuth.authorize env0 "code" "nobody" "https://evil.example/cb"
          "openid" (Some "xyz") None None None) db0
     = (inr (RedirectResponse
               "https://evil.example/cb?error=invalid_client&state=xyz"), db0)) /\
  (fst (run (get_application_by_client_id "abc") db0) = inr (Some app1) /\
   validate_redirect_uri app1 "https://evil.example/cb" = false /\
   run (OAuth.authorize env0 "token" "abc" "https://evil.example/cb"
          "openid" (Some "xyz") None None None) db0
     = (inr (RedirectResponse
               "https://evil.example/cb?error=unsupported_response_type&state=xyz"),
        db0) /\
   run (OAuth.authorize env0 "code" "abc" "https://evil.example/cb"
          "openid" (Some "xyz") (Some "ch") (Some "S512") None) db0
     = (inr (RedirectResponse
               "https://evil.example/cb?error=invalid_request&error_description=invalid_code_challenge_method&state=xyz"),
        db0)).
Proof. repeat split; reflexivity. Qed.

Lemma code_single_use_witness :
  (OAuth.redemptions verify0 sign0 "code-1"
     [Token env0 form_s1; Token env0 form_s1] db_s1 <= 1)%nat /\
  exists detail,
    run (OAuth.token verify0 sign0 env0 form_s1) db_s1_redeemed
      = (inl (HTTPException 400 detail), db_s1_redeemed) /\
    (truthy "code-1" = true ->
     truthy_opt (redirect_uri form_s1) = true -> detail = "invalid_grant").
Proof.
  split.
  - apply (proj1 (code_single_use verify0 sign0 "code-1")).
  - apply (proj1 (proj2 (proj2 (code_single_use verify0 sign0 "code-1")))
             env0 form_s1 db_s1_redeemed).
    + exists (consume 900 code_s1). split; [reflexivity|]. by eexists.
    + reflexivity.
    + reflexivity.
Defined.

(** Scenario S1: the redemption with the verifier of RFC 7636 succeeds,
    and the second redemption of the same code does not. *)
Example scenario_S1 :
  OAuth.redemptions verify0 sign0 "code-1"
    [Token env0 form_s1; Token env0 form_s1] db_s1 = 1%nat.
Proof. vm_compute. reflexivity. Qed.

Lemma pkce_soundness_witness :
  exists detail,
    run (OAuth.token verify0 sign0 env0 form_s2) db_s1
      = (inl (HTTPException 400 detail), db_s1) /\
    (truthy "code-1" = true ->
     truthy_opt (redirect_uri form_s2) = true -> detail = "invalid_grant").
Proof.
  apply (proj2 (pkce_soundness verify0 sign0 env0 form_s2 db_s1 "code-1" code_s1
                  "E9Melhoa2OwvFrEMTJguCHaoeK1t8URWbuGJSstw-cM"
                  eq_refl eq_refl eq_refl eq_refl) "wrong" eq_refl).
  left. split; [reflexivity|]. vm_compute. discriminate.
Defined.

End OAuthProps.
(** ** Further properties of the rate limiter *)

Module RateLimitMore.
Import Py RateLimit RateLimitClient RateLimitInv RateLimitProps.

Lemma limits_at_least_one (k : string) (m w : Z) :
  limits_get limits k = Some (m, w) -> 1 <= m.
Proof.
  unfold limits. simpl.
  repeat (destruct (String.eqb k _); [intros [= <- _]; lia|]).
  discriminate.
Qed.

Lemma step_entry_budget (now : Time) (m : Z) (e : option (Z * Q)) (c : Z) (ws : Q) :
  1 <= m ->
  (forall c0 ws0, e = Some (c0, ws0) -> 1 <= c0 <= m) ->
  snd (step_entry now m 60 e) = Some (c, ws) -> 1 <= c <= m.
Proof.
  intros Hm He. unfold step_entry.
  destruct e as [[c0 ws0]|]; simpl; [|intros [= <- _]; lia].
  specialize (He c0 ws0 eq_refl).
  destruct (Qgtb _ _); simpl; [intros [= <- _]; lia|].
  destruct (c0 <? m) eqn:Hlt; simpl; intros [= <- _]; [|lia].
  apply Z.ltb_lt in Hlt. lia.
Qed.

Lemma after_sweep_Some (r : Request) (b : bool) (e : option (Z * Q)) (x : Z * Q) :
  after_sweep r b e = Some x -> e = Some x.
Proof.
  unfold after_sweep. destruct b; [|done].
  destruct (sweep r) as [t|]; [|done].
  destruct e as [y|]; simpl; [|done]. unfold sweep_entry.
  by destruct (Qgtb _ _).
Qed.

(** One request keeps every count of the table between 1 and the budget
    of its route class. *)
Lemma dispatch_budget_kept (r : Request) (s s' : Requests) (o : Outcome) :
  within_budget s ->
  dispatch r s = Some (o, s') ->
  within_budget s'.
Proof.
  intros Hinv Hd. destruct (exempt (path r)) eqn:Hex.
  { unfold dispatch in Hd. rewrite Hex in Hd. by injection Hd as _ <-. }
  destruct (dispatch_entry r s Hex) as (m & s1 & Hm & Hd1 & He).
  cbv zeta in Hd1, He. rewrite Hd1 in Hd. injection Hd as _ <-.
  intros ip k c ws Hent. rewrite He in Hent.
  apply after_sweep_Some in Hent.
  case_decide as Hdec.
  - destruct Hdec as [-> ->]. exists m, 60. split; [done|].
    eapply step_entry_budget; [by eapply limits_at_least_one| |exact Hent].
    intros c0 ws0 H0. destruct (Hinv _ _ _ _ H0) as (m' & w' & Hm' & Hc).
    rewrite Hm in Hm'. by injection Hm' as <- <-.
  - exact (Hinv _ _ _ _ Hent).
Qed.

Lemma within_budget_empty : within_budget ∅.
Proof. intros ip k c ws H. unfold entry, bucket_of in H. by rewrite lookup_empty in H. Qed.

(** The counts stay within the budgets: whatever requests are served,
    allowed or refused, swept or not, on a table whose counts lie between
    1 and the budget of their route class, the counts of the table
    afterwards do too. *)
Theorem run_within_budget (rs : list Request) :
  forall s os s',
    within_budget s -> serve rs s = Some (os, s') -> within_budget s'.
Proof.
  induction rs as [|r rs IH]; simpl; intros s os s' Hinv H.
  - by injection H as _ <-.
  - destruct (dispatch r s) as [[o s1]|] eqn:Hd; [|done].
    destruct (serve rs s1) as [[os1 s2]|] eqn:Hs; [|done].
    injection H as _ <-. eapply IH; [|exact Hs].
    by eapply dispatch_budget_kept.
Qed.

Lemma run_within_budget_witness :
  within_budget {[ "10.0.0.1" := {[ "/oauth/token" := (2, 0%Q) ]} ]}.
Proof.
  apply (run_within_budget
           [token_post "10.0.0.1" 0%Q None; token_post "10.0.0.1" 1%Q None]
           ∅ [CallNext; CallNext]).
  - exact within_budget_empty.
  - reflexivity.
Defined.

(** A refused request leaves the table as it was: hammering a closed
    window neither counts nor moves the window. *)
Theorem refused_leaves_table (r : Request) (s s' : Requests) (n : Z) :
  dispatch r s = Some (TooManyRequests n, s') -> s' = s.
Proof.
  unfold dispatch. destruct (exempt (path r)); [done|].
  unfold _check_rate_limit.
  destruct (limits_get limits _) as [[m w]|]; [|done].
  destruct (bucket_of s _ !! _) as [[c ws]|]; simpl.
  - destruct (Qgtb _ _); simpl; [by destruct (sweep r)|].
    destruct (c <? m); simpl; [by destruct (sweep r)|].
    by intros [= _ <-].
  - by destruct (sweep r).
Qed.

Lemma refused_leaves_table_witness :
  ({[ "10.0.0.1" := {[ "/oauth/token" := (20, 0%Q) ]} ]} : Requests)
  = {[ "10.0.0.1" := {[ "/oauth/token" := (20, 0%Q) ]} ]}.
Proof.
  apply (refused_leaves_table (token_post "10.0.0.1" 5%Q None) _ _ 56).
  reflexivity.
Defined.

(** *** The sweep *)

(** After the sweep at clock reading [t], the table holds exactly the
    entries whose window started at most 120 seconds before [t], each as
    it was, and no client IP is left with an empty dictionary. *)
Theorem cleanup_spec (t : Time) (s : Requests) :
  (forall ip k e,
     entry (_cleanup_old_entries t s) ip k = Some e <->
     entry s ip k = Some e /\ (t - snd e <= 120)%Q) /\
  no_empty_bucket (_cleanup_old_entries t s).
Proof.
  split.
  - intros ip k e. rewrite entry_cleanup.
    destruct (entry s ip k) as [e0|]; simpl; [|by split; [|intros []]].
    unfold sweep_entry.
    destruct (Qgtb (t - snd e0) (inject_Z (max_window * 2))) eqn:E.
    + apply Qgtb_true in E.
      change (inject_Z (max_window * 2)) with 120%Q in E.
      split; [done|]. intros [[= ->] Hle]. lra.
    + apply Qgtb_false in E.
      change (inject_Z (max_window * 2)) with 120%Q in E.
      split; [by intros [= ->]|]. by intros [[= ->] _].
  - intros ip b. unfold _cleanup_old_entries. rewrite lookup_omap.
    destruct (s !! ip) as [b0|]; simpl; [|done].
    case_decide; [done|]. by intros [= <-].
Qed.

(** *** What a request leaves alone *)

(** A request touches the entry of its own client IP and route class
    only; any other entry is as it was, unless the sweep that follows
    the request found it more than 120 seconds old and deleted it. *)
Theorem dispatch_frame (r : Request) (s s' : Requests) (o : Outcome)
    (ip' k' : string) :
  dispatch r s = Some (o, s') ->
  ip' <> _get_client_ip r \/ k' <> _get_limit_key (path r) ->
  entry s' ip' k' = entry s ip' k' \/
  (entry s' ip' k' = None /\
   exists t c ws,
     sweep r = Some t /\ entry s ip' k' = Some (c, ws) /\ (120 < t - ws)%Q).
Proof.
  intros Hd Hne. destruct (exempt (path r)) eqn:Hex.
  { unfold dispatch in Hd. rewrite Hex in Hd. injection Hd as _ <-. by left. }
  destruct (dispatch_entry r s Hex) as (m & s1 & Hm & Hd1 & He).
  cbv zeta in Hd1, He. rewrite Hd1 in Hd. injection Hd as _ <-.
  rewrite He. rewrite decide_False by (intros [-> ->]; by destruct Hne).
  unfold after_sweep. destruct (fst (fst _)); [|by left].
  destruct (sweep r) as [t|]; [|by left].
  destruct (entry s ip' k') as [[c ws]|] eqn:E; simpl; [|by left].
  unfold sweep_entry. simpl snd.
  destruct (Qgtb (t - ws) (inject_Z (max_window * 2))) eqn:Eg; [|by left].
  right. split; [done|]. exists t, c, ws. repeat split.
  apply Qgtb_true in Eg. by change (inject_Z (max_window * 2)) with 120%Q in Eg.
Qed.

Lemma dispatch_frame_witness :
  (entry (<["10.0.0.1" := {[ "/oauth/token" := (1, 1700000010%Q) ]}]>
            {[ "10.0.0.2" := {[ "/oauth/token" := (3, 1700000000%Q) ]} ]})
         "10.0.0.2" "/oauth/token"
   = entry {[ "10.0.0.2" := {[ "/oauth/token" := (3, 1700000000%Q) ]} ]}
           "10.0.0.2" "/oauth/token" \/
   (entry (<["10.0.0.1" := {[ "/oauth/token" := (1, 1700000010%Q) ]}]>
             {[ "10.0.0.2" := {[ "/oauth/token" := (3, 1700000000%Q) ]} ]})
          "10.0.0.2" "/oauth/token" = None /\
    exists t c ws,
      sweep (token_post "10.0.0.1" 1700000010%Q None) = Some t /\
      entry {[ "10.0.0.2" := {[ "/oauth/token" := (3, 1700000000%Q) ]} ]}
            "10.0.0.2" "/oauth/token" = Some (c, ws) /\
      (120 < t - ws)%Q)) /\
  (entry {[ "10.0.0.1" := {[ "/oauth/token" := (1, 1700000200%Q) ]} ]}
         "10.0.0.2" "/oauth/token"
   = entry {[ "10.0.0.2" := {[ "/oauth/token" := (3, 1700000000%Q) ]} ]}
           "10.0.0.2" "/oauth/token" \/
   (entry {[ "10.0.0.1" := {[ "/oauth/token" := (1, 1700000200%Q) ]} ]}
          "10.0.0.2" "/oauth/token" = None /\
    exists t c ws,
      sweep (token_post "10.0.0.1" 1700000200%Q (Some 1700000200%Q)) = Some t /\
      entry {[ "10.0.0.2" := {[ "/oauth/token" := (3, 1700000000%Q) ]} ]}
            "10.0.0.2" "/oauth/token" = Some (c, ws) /\
      (120 < t - ws)%Q)).
Proof.
  split.
  - apply (dispatch_frame (token_post "10.0.0.1" 1700000010%Q None)
             {[ "10.0.0.2" := {[ "/oauth/token" := (3, 1700000000%Q) ]} ]}
             _ CallNext).
    + vm_compute. reflexivity.
    + left. discriminate.
  - apply (dispatch_frame
             (token_post "10.0.0.1" 1700000200%Q (Some 1700000200%Q))
             {[ "10.0.0.2" := {[ "/oauth/token" := (3, 1700000000%Q) ]} ]}
             _ CallNext).
    + vm_compute. reflexivity.
    + left. discriminate.
Defined.

(** *** The budget of every route class *)

Lemma class_request_step (ip k : string) (m : Z) (r : Request) (s : Requests) :
  class_request ip k r ->
  limits_get limits k = Some (m, 60) ->
  exists s',
    let st := step_entry (now r) m 60 (entry s ip k) in
    dispatch r s = Some (outcome_of (fst st), s') /\
    entry s' ip k = after_sweep r (fst (fst st)) (snd st).
Proof.
  intros (Hex & Hk & Hip) Hm.
  destruct (dispatch_entry r s Hex) as (m' & s' & Hm' & Hd & He).
  rewrite Hk, Hm in Hm'. injection Hm' as <-.
  rewrite Hip, Hk in Hd, He.
  exists s'. split; [exact Hd|]. rewrite He. by rewrite decide_True.
Qed.

Lemma class_within_budget (ip k : string) (m : Z) (t0 : Q) (rs : list Request) :
  limits_get limits k = Some (m, 60) ->
  forall (s : Requests) (c : Z),
    entry s ip k = Some (c, t0) ->
    c + Z.of_nat (length rs) <= m ->
    Forall (fun r => class_request ip k r /\ in_window t0 r) rs ->
    exists s',
      serve rs s = Some (repeat CallNext (length rs), s') /\
      entry s' ip k = Some (c + Z.of_nat (length rs), t0).
Proof.
  intros Hm. induction rs as [|r rs IH]; intros s c He Hc Hrs.
  - exists s. split; [done|]. rewrite He. simpl. f_equal. f_equal. lia.
  - inversion Hrs as [|? ? [Hreq [Hnow Hsw]] Hrs']; subst.
    destruct (class_request_step ip k m r s Hreq Hm) as (s1 & Hd & He1).
    rewrite He in Hd, He1. cbv zeta in Hd, He1. unfold step_entry in Hd, He1.
    replace (Qgtb (now r - t0) (inject_Z 60)) with false in Hd, He1
      by (symmetry; by apply Qgtb_false).
    simpl length in Hc.
    replace (c <? m) with true in Hd, He1 by (symmetry; apply Z.ltb_lt; lia).
    simpl in Hd, He1.
    assert (entry s1 ip k = Some (c + 1, t0)) as He1'.
    { rewrite He1. unfold after_sweep. destruct (sweep r) as [t|] eqn:Et; [|done].
      simpl. apply sweep_entry_keeps. by apply Hsw. }
    destruct (IH s1 (c + 1) He1' ltac:(lia) Hrs') as (s2 & Hs2 & He2).
    exists s2. split.
    + simpl. rewrite Hd, Hs2. done.
    + rewrite He2. f_equal. f_equal. simpl length. lia.
Qed.

(** From one client IP, the request that opens a window (no entry, or
    one more than 60 seconds old) and the following ones are let through
    until the budget [m] of the class is used up; on the next request
    inside the window [dispatch] raises its [HTTPException(429)] with
    [Retry-After = int(60 - elapsed) + 1]. *)
Lemma class_budget_outcomes
    (ip k : string) (m : Z) (r1 : Request) (rs : list Request)
    (r_last : Request) (s : Requests) :
  limits_get limits k = Some (m, 60) ->
  Z.of_nat (length rs) = m - 1 ->
  lapsed (now r1) (entry s ip k) ->
  Forall (fun r => class_request ip k r /\ in_window (now r1) r)
         (r1 :: rs ++ [r_last]) ->
  exists s',
    serve (r1 :: rs ++ [r_last]) s
      = Some (repeat CallNext (S (length rs))
              ++ [TooManyRequests (py_int (60 - (now r_last - now r1)) + 1)],
              s').
Proof.
  intros Hm Hlen Hl Hall.
  inversion Hall as [|? ? [Hreq1 [_ Hsw1]] Hrest]; subst.
  apply Forall_app in Hrest as [Hrs Hlast].
  inversion Hlast as [|? ? [Hreql [Hwl _]] _]; subst.
  destruct (class_request_step ip k m r1 s Hreq1 Hm) as (s1 & Hd1 & He1).
  cbv zeta in Hd1, He1.
  rewrite (step_entry_lapsed (now r1) (now r1) m _ ltac:(lra) Hl) in Hd1, He1.
  simpl in Hd1, He1.
  assert (entry s1 ip k = Some (1, now r1)) as He1'.
  { rewrite He1. unfold after_sweep. destruct (sweep r1) as [t|] eqn:Et; [|done].
    simpl. apply sweep_entry_keeps. by apply Hsw1. }
  destruct (class_within_budget ip k m (now r1) rs Hm s1 1 He1' ltac:(lia) Hrs)
    as (s2 & Hs2 & He2).
  destruct (class_request_step ip k m r_last s2 Hreql Hm) as (s3 & Hd3 & _).
  cbv zeta in Hd3. rewrite He2 in Hd3. unfold step_entry in Hd3.
  replace (Qgtb (now r_last - now r1) (inject_Z 60)) with false in Hd3
    by (symmetry; by apply Qgtb_false).
  replace (1 + Z.of_nat (length rs) <? m) with false in Hd3
    by (symmetry; apply Z.ltb_ge; lia).
  simpl in Hd3. unfold outcome_of in Hd3. simpl in Hd3.
  exists s3.
  change (r1 :: rs ++ [r_last]) with ([r1] ++ (rs ++ [r_last])).
  change (repeat CallNext (S (length rs))) with ([CallNext] ++ repeat CallNext (length rs)).
  rewrite <- app_assoc.
  eapply serve_app; [simpl; by rewrite Hd1|].
  eapply serve_app; [exact Hs2|]. simpl. by rewrite Hd3.
Qed.

(** Every route class enforces its budget, and answers badly when it
    does: from one client IP, the request that opens a window and the
    following ones are handed to the application until the budget [m] of
    the class is used up; the next request inside the window is kept
    from the application: [dispatch] raises [HTTPException(429)] with
    [Retry-After = int(60 - elapsed) + 1], which, raised inside the
    middleware, reaches the client as a 500 without the header.  The
    clock readings are doubles of the present epoch, on which the
    arithmetic of the code is exact. *)
Theorem class_budget
    (ip k : string) (m : Z) (r1 : Request) (rs : list Request)
    (r_last : Request) (s : Requests) (app : Request -> ClientResponse) :
  limits_get limits k = Some (m, 60) ->
  Z.of_nat (length rs) = m - 1 ->
  lapsed (now r1) (entry s ip k) ->
  epoch_entry (entry s ip k) = true ->
  Forall (fun r => class_request ip k r /\ in_window (now r1) r
                   /\ epoch_clock r = true)
         (r1 :: rs ++ [r_last]) ->
  exists s' os,
    serve (r1 :: rs ++ [r_last]) s = Some (os, s') /\
    os = repeat CallNext (S (length rs))
         ++ [TooManyRequests (py_int (60 - (now r_last - now r1)) + 1)] /\
    client_responses app (r1 :: rs ++ [r_last]) os
      = map app (r1 :: rs)
        ++ [{| status_code := 500; retry_after_header := None |}].
Proof.
  intros Hm Hlen Hl _ Hall.
  assert (Forall (fun r => class_request ip k r /\ in_window (now r1) r)
                 (r1 :: rs ++ [r_last])) as Hall'.
  { eapply List.Forall_impl; [|exact Hall]. by intros r (? & ? & _). }
  destruct (class_budget_outcomes ip k m r1 rs r_last s Hm Hlen Hl Hall')
    as [s' Hs].
  exists s'. eexists. split; [exact Hs|]. split; [done|].
  change (r1 :: rs ++ [r_last]) with ((r1 :: rs) ++ [r_last]).
  change (S (length rs)) with (length (r1 :: rs)).
  apply client_responses_refused.
Qed.

Lemma class_budget_witness :
  exists s' os,
    serve (request_at "/auth/sso/login" "10.0.0.1" 1700000000%Q None
             :: repeat (request_at "/auth/sso/callback" "10.0.0.1"
                          1700000001%Q None) 9
             ++ [request_at "/auth/sso/login" "10.0.0.1" 1700000002%Q None]) ∅
      = Some (os, s') /\
    os = repeat CallNext 10
         ++ [TooManyRequests (py_int (60 - (1700000002 - 1700000000))%Q + 1)] /\
    client_responses
      (fun _ => {| status_code := 200; retry_after_header := None |})
      (request_at "/auth/sso/login" "10.0.0.1" 1700000000%Q None
         :: repeat (request_at "/auth/sso/callback" "10.0.0.1"
                      1700000001%Q None) 9
         ++ [request_at "/auth/sso/login" "10.0.0.1" 1700000002%Q None]) os
    = repeat {| status_code := 200; retry_after_header := None |} 10
      ++ [{| status_code := 500; retry_after_header := None |}].
Proof.
  apply (class_budget "10.0.0.1" "/auth/" 10
           (request_at "/auth/sso/login" "10.0.0.1" 1700000000%Q None)
           (repeat (request_at "/auth/sso/callback" "10.0.0.1"
                      1700000001%Q None) 9)
           (request_at "/auth/sso/login" "10.0.0.1" 1700000002%Q None) ∅
           (fun _ => {| status_code := 200; retry_after_header := None |})).
  - reflexivity.
  - reflexivity.
  - exact I.
  - reflexivity.
  - simpl. repeat constructor; simpl; try lra; discriminate.
Defined.

(** *** The client IP is what the request says it is *)

Lemma split_comma_head_no_comma (a : string) :
  no_comma a -> split_comma_head a = a.
Proof.
  induction a as [|c a IH]; simpl; [done|].
  intros [-> Ha]. by rewrite IH.
Qed.

(** The forwarding header wins over the peer address: a request that
    carries a non-empty [X-Forwarded-For] without comma or surrounding
    white space is attributed to that very string, whatever its peer. *)
Theorem forwarded_header_picks_bucket
    (a : string) (host : option string) (p : string) (t : Time)
    (sw : option Time) :
  a <> "" -> no_comma a -> strip a = a ->
  _get_client_ip {| path := p; x_forwarded_for := Some a;
                    client_host := host; now := t; sweep := sw |} = a.
Proof.
  intros Hne Hnc Hstrip. unfold _get_client_ip. cbn [x_forwarded_for].
  destruct a as [|c a']; [done|].
  by rewrite (split_comma_head_no_comma _ Hnc).
Qed.

Lemma forwarded_header_picks_bucket_witness :
  _get_client_ip {| path := "/oauth/token"; x_forwarded_for := Some "203.0.113.7";
                    client_host := Some "10.0.0.1"; now := 0%Q; sweep := None |}
    = "203.0.113.7".
Proof.
  apply (forwarded_header_picks_bucket "203.0.113.7" (Some "10.0.0.1")
           "/oauth/token" 0%Q None).
  - discriminate.
  - simpl. repeat split.
  - reflexivity.
Defined.

Lemma unknown_ip_after (r : Request) (s s' : Requests) (o : Outcome) (ip' : string) :
  dispatch r s = Some (o, s') ->
  ip' <> _get_client_ip r ->
  unknown_ip s ip' -> unknown_ip s' ip'.
Proof.
  intros Hd Hne Hun k. destruct (exempt (path r)) eqn:Hex.
  { unfold dispatch in Hd. rewrite Hex in Hd. injection Hd as _ <-. apply Hun. }
  destruct (dispatch_entry r s Hex) as (m & s1 & Hm & Hd1 & He).
  cbv zeta in Hd1, He. rewrite Hd1 in Hd. injection Hd as _ <-.
  rewrite He. rewrite decide_False by (intros [-> _]; by destruct Hne).
  rewrite (Hun k). unfold after_sweep. destruct (fst (fst _)); [|done].
  by destruct (sweep r).
Qed.

(** Requests attributed to pairwise distinct client IPs that the table
    does not know are all let through, however many they are: the
    budgets bind per client IP only. *)
Theorem distinct_ips_never_limited (rs : list Request) :
  forall s : Requests,
    distinct_ips rs ->
    Forall (fun r => unknown_ip s (_get_client_ip r)) rs ->
    exists s', serve rs s = Some (repeat CallNext (length rs), s').
Proof.
  induction rs as [|r rs IH]; intros s Hdist Hun; [by exists s|].
  destruct Hdist as [Hne Hdist]. inversion Hun as [|? ? Hr Hrs]; subst.
  assert (exists s1, dispatch r s = Some (CallNext, s1)) as [s1 Hd].
  { destruct (exempt (path r)) eqn:Hex.
    - exists s. unfold dispatch. by rewrite Hex.
    - destruct (dispatch_entry r s Hex) as (m & s1 & _ & Hd & _).
      cbv zeta in Hd. rewrite Hr in Hd. exists s1. exact Hd. }
  assert (Forall (fun r' => unknown_ip s1 (_get_client_ip r')) rs) as Hun1.
  { rewrite Forall_forall in Hne, Hrs |- *. intros r' Hin.
    eapply unknown_ip_after; [exact Hd|by apply Hne|by apply Hrs]. }
  destruct (IH s1 Hdist Hun1) as (s2 & Hs2).
  exists s2. simpl. by rewrite Hd, Hs2.
Qed.

Lemma distinct_ips_never_limited_witness :
  exists s',
    serve [ {| path := "/oauth/token"; x_forwarded_for := Some "203.0.113.1";
               client_host := Some "10.0.0.1"; now := 0%Q; sweep := None |};
            {| path := "/oauth/token"; x_forwarded_for := Some "203.0.113.2";
               client_host := Some "10.0.0.1"; now := 0%Q; sweep := None |};
            {| path := "/oauth/token"; x_forwarded_for := Some "203.0.113.3";
               client_host := Some "10.0.0.1"; now := 0%Q; sweep := None |} ] ∅
      = Some (repeat CallNext 3, s').
Proof.
  apply (distinct_ips_never_limited
           [ {| path := "/oauth/token"; x_forwarded_for := Some "203.0.113.1";
                client_host := Some "10.0.0.1"; now := 0%Q; sweep := None |};
             {| path := "/oauth/token"; x_forwarded_for := Some "203.0.113.2";
                client_host := Some "10.0.0.1"; now := 0%Q; sweep := None |};
             {| path := "/oauth/token"; x_forwarded_for := Some "203.0.113.3";
                client_host := Some "10.0.0.1"; now := 0%Q; sweep := None |} ] ∅).
  - simpl. repeat split; repeat constructor; discriminate.
  - repeat constructor; intros k; reflexivity.
Defined.

End RateLimitMore.
(** ** Properties of the audit service *)

Module AuditProps.
Import Py Store AuditService AuditChanges.
Local Open Scope handler_scope.

Section ChangesProps.

Context {V : Type} `{EqDecision V}.
Variable none : V.

Lemma extract_step_recorded (old_obj new_data : gmap string V)
    (acc : gmap string V * gmap string V) (g : string) :
  extract_step none old_obj new_data acc g =
  match recorded none old_obj new_data g with
  | Some (o, n) => (<[g := o]> (fst acc), <[g := n]> (snd acc))
  | None => acc
  end.
Proof.
  unfold extract_step, recorded. destruct (new_data !! g); [|done].
  by case_decide.
Qed.

Lemma extract_fold (old_obj new_data : gmap string V) (fields : list string) :
  forall (acc : gmap string V * gmap string V) (f : string),
    let res := fold_left (extract_step none old_obj new_data) fields acc in
    match recorded none old_obj new_data f with
    | Some (o, n) =>
        if decide (f ∈ fields)
        then fst res !! f = Some o /\ snd res !! f = Some n
        else fst res !! f = fst acc !! f /\ snd res !! f = snd acc !! f
    | None => fst res !! f = fst acc !! f /\ snd res !! f = snd acc !! f
    end.
Proof.
  induction fields as [|g fields IH]; intros acc f; cbn [fold_left]; cbv zeta.
  - destruct (recorded _ _ _ f) as [[o n]|]; [|done].
    rewrite decide_False by apply not_elem_of_nil. done.
  - specialize (IH (extract_step none old_obj new_data acc g) f).
    cbv zeta in IH. rewrite extract_step_recorded in IH |- *.
    destruct (decide (g = f)) as [->|Hne].
    + destruct (recorded _ _ _ f) as [[o n]|] eqn:Hrec.
      * rewrite decide_True by apply list_elem_of_here.
        case_decide; [done|]. simpl in IH. by rewrite !lookup_insert_eq in IH.
      * done.
    + assert (forall m : gmap string V * gmap string V,
                fst (match recorded none old_obj new_data g with
                     | Some (o, n) => (<[g := o]> (fst m), <[g := n]> (snd m))
                     | None => m
                     end) !! f = fst m !! f /\
                snd (match recorded none old_obj new_data g with
                     | Some (o, n) => (<[g := o]> (fst m), <[g := n]> (snd m))
                     | None => m
                     end) !! f = snd m !! f) as Hkeep.
      { intros m. destruct (recorded _ _ _ g) as [[o n]|]; [|done].
        simpl. by rewrite !lookup_insert_ne. }
      destruct (Hkeep acc) as [Hk1 Hk2].
      destruct (recorded _ _ _ f) as [[o n]|].
      * destruct (decide (f ∈ fields)) as [Hin|Hnin].
        -- by rewrite decide_True by (by apply list_elem_of_further).
        -- rewrite decide_False; [by rewrite <- Hk1, <- Hk2|].
           intros Hin. apply elem_of_cons in Hin as [->|Hin]; done.
      * by rewrite <- Hk1, <- Hk2.
Qed.

(** [extract_changes] reports a field exactly when it is one of
    [fields], is given a value in [new_data], and that value differs
    from the attribute of the object ([None] when the object has no such
    attribute); it then reports the old value under that field in
    [old_values] and the new one in [new_values].  The two
    dictionaries have the same keys. *)
Theorem extract_changes_spec (old_obj new_data : gmap string V)
    (fields : list string) (f : string) :
  let res := extract_changes none old_obj new_data fields in
  (forall o, fst res !! f = Some o <->
             f ∈ fields /\ exists n, changed none old_obj new_data f o n) /\
  (forall n, snd res !! f = Some n <->
             f ∈ fields /\ exists o, changed none old_obj new_data f o n) /\
  (is_Some (fst res !! f) <-> is_Some (snd res !! f)).
Proof.
  cbv zeta. unfold extract_changes.
  pose proof (extract_fold old_obj new_data fields (∅, ∅) f) as Hf.
  cbv zeta in Hf. simpl in Hf. unfold changed.
  unfold recorded in Hf.
  destruct (new_data !! f) as [nv|] eqn:Hnew.
  - destruct (decide (getattr none old_obj f = nv)) as [Heq|Hneq].
    + destruct Hf as [-> ->]. rewrite !lookup_empty.
      split; [|split]; [| |by split; intros [? ?]].
      * intros o. split; [done|]. intros [_ (n & [= <-] & -> & Hd)]. done.
      * intros n. split; [done|]. intros [_ (o & [= <-] & -> & Hd)]. done.
    + destruct (decide (f ∈ fields)) as [Hin|Hnin].
      * destruct Hf as [-> ->]. split; [|split]; [| |by split; eexists].
        -- intros o. split.
           ++ intros [= <-]. split; [done|]. by exists nv.
           ++ by intros [_ (n & _ & -> & _)].
        -- intros n. split.
           ++ intros [= <-]. split; [done|]. by eexists.
           ++ by intros [_ (o & [= <-] & _)].
      * destruct Hf as [-> ->]. rewrite !lookup_empty.
        split; [|split]; [| |by split; intros [? ?]].
        -- intros o. split; [done|]. by intros [? _].
        -- intros n. split; [done|]. by intros [? _].
  - destruct Hf as [-> ->]. rewrite !lookup_empty.
    split; [|split]; [| |by split; intros [? ?]].
    + intros o. split; [done|]. by intros [_ (n & ? & _)].
    + intros n. split; [done|]. by intros [_ (o & ? & _)].
Qed.

End ChangesProps.

Lemma take_length (n : nat) (s : string) : (String.length (take n s) <= n)%nat.
Proof.
  unfold take. revert s. induction n as [|n IH]; intros [|c s]; simpl; try lia.
  specialize (IH s). lia.
Qed.

(** [log_action] adds its row when the values fit their columns: one
    row, with the actor, action, entity type and entity id it was given
    and a user agent of at most 500 characters, and nothing committed.
    When a value does not fit, it raises and the session is as it was. *)
Lemma log_action_cases
    (user_id : UUID) (action entity_type : string) (entity_id : option UUID)
    (old_values new_values : option Json) (request : option HttpRequest)
    (s : Session) :
  (fits 50 (Some action) && fits 50 (Some entity_type)
   && fits 45 (match request with Some rq => ip_of rq | None => None end)
   = true ->
   exists row,
     log_action user_id action entity_type entity_id old_values new_values
       request s
     = (inr row,
        {| committed := committed s;
           working := set_audit_logs (fun rows => rows ++ [row]) (working s) |}) /\
     AuditLog.user_id row = Some user_id /\
     AuditLog.action row = action /\
     AuditLog.entity_type row = entity_type /\
     AuditLog.entity_id row = entity_id /\
     fits 45 (AuditLog.ip_address row) = true /\
     (forall ua, AuditLog.user_agent row = Some ua ->
                 (String.length ua <= 500)%nat)) /\
  (fits 50 (Some action) && fits 50 (Some entity_type)
   && fits 45 (match request with Some rq => ip_of rq | None => None end)
   = false ->
   log_action user_id action entity_type entity_id old_values new_values
     request s
   = (inl (Unhandled "DataError"), s)).
Proof.
  unfold log_action. split; intros Hfit; rewrite Hfit; [|done].
  eexists. split; [reflexivity|]. simpl. repeat split.
  - apply andb_true_iff in Hfit as [_ Hfit]. exact Hfit.
  - intros ua. destruct request as [rq|]; [|done].
    intros [= <-]. apply take_length.
Qed.

(** The audit trail and the rate limiter read the client address the
    same way: for a request with a non-empty forwarding header or a peer
    address, the address recorded by [log_action] is the one the limiter
    counts under.  With neither, the audit row has no address and the
    limiter counts under ["unknown"]. *)
Theorem audit_ip_is_limiter_ip (rq : HttpRequest) (r : RateLimit.Request) :
  headers_get (headers rq) "x-forwarded-for" = RateLimit.x_forwarded_for r ->
  client rq = RateLimit.client_host r ->
  (truthy_opt (RateLimit.x_forwarded_for r) = true \/
   is_Some (RateLimit.client_host r) ->
   ip_of rq = Some (RateLimit._get_client_ip r)) /\
  (truthy_opt (RateLimit.x_forwarded_for r) = false ->
   RateLimit.client_host r = None ->
   ip_of rq = None /\ RateLimit._get_client_ip r = "unknown").
Proof.
  intros Hh Hc. unfold ip_of, RateLimit._get_client_ip. rewrite Hh, Hc.
  destruct (RateLimit.x_forwarded_for r) as [[|c f]|];
    destruct (RateLimit.client_host r) as [host|]; simpl; split;
    try done; try (by intros [?|[? ?]]); by intros [?|[? [= <-]]].
Qed.

Lemma audit_ip_is_limiter_ip_witness :
  ip_of {| headers := [("x-forwarded-for", " 203.0.113.7 , 10.1.1.1")];
           client := Some "10.0.0.1" |}
  = Some (RateLimit._get_client_ip
            {| RateLimit.path := "/api/admin/users";
               RateLimit.x_forwarded_for := Some " 203.0.113.7 , 10.1.1.1";
               RateLimit.client_host := Some "10.0.0.1";
               RateLimit.now := 0%Q; RateLimit.sweep := None |}).
Proof.
  apply (proj1 (audit_ip_is_limiter_ip
           {| headers := [("x-forwarded-for", " 203.0.113.7 , 10.1.1.1")];
              client := Some "10.0.0.1" |}
           {| RateLimit.path := "/api/admin/users";
              RateLimit.x_forwarded_for := Some " 203.0.113.7 , 10.1.1.1";
              RateLimit.client_host := Some "10.0.0.1";
              RateLimit.now := 0%Q; RateLimit.sweep := None |}
           eq_refl eq_refl)).
  by left.
Defined.

End AuditProps.
(** ** Properties of the admin tools and of group membership *)

Module AdminToolsProps.
Import Py Store Admin AdminTools AdminGroups AdminProps Samples.
Local Open Scope handler_scope.

(** *** Maps and filters *)

Lemma map_ext_Some {A : Type} (m1 m2 : gmap string A) :
  (forall i x, m1 !! i = Some x <-> m2 !! i = Some x) -> m1 = m2.
Proof.
  intros H. apply map_eq. intros i. apply option_eq. intros x. apply H.
Qed.

Lemma filter_split_size {A : Type} (P : string * A -> Prop)
    `{!forall x, Decision (P x)} (m : gmap string A) :
  (size (filter P m) + size (filter (fun x => ~ P x) m) = size m)%nat.
Proof.
  rewrite <- map_size_disj_union by apply map_disjoint_filter_complement.
  by rewrite map_filter_union_complement.
Qed.

Lemma filter_kept_twice {A : Type} (P : string * A -> Prop)
    `{!forall x, Decision (P x)} (m : gmap string A) :
  filter P (filter P m) = filter P m.
Proof.
  apply map_ext_Some. intros i x. rewrite !map_lookup_filter_Some. tauto.
Qed.

Lemma filter_gone_twice {A : Type} (P : string * A -> Prop)
    `{!forall x, Decision (P x)} (m : gmap string A) :
  filter P (filter (fun x => ~ P x) m) = ∅.
Proof.
  apply map_ext_Some. intros i x.
  rewrite !map_lookup_filter_Some, lookup_empty. split; [tauto|done].
Qed.

Lemma set_oauth_codes_id (f : gmap string OAuthCode.t -> gmap string OAuthCode.t)
    (db : Db) :
  f (oauth_codes db) = oauth_codes db -> set_oauth_codes f db = db.
Proof. destruct db. unfold set_oauth_codes. simpl. by intros ->. Qed.

Lemma set_oauth_tokens_id
    (f : gmap string OAuthToken.t -> gmap string OAuthToken.t) (db : Db) :
  f (oauth_tokens db) = oauth_tokens db -> set_oauth_tokens f db = db.
Proof. destruct db. unfold set_oauth_tokens. simpl. by intros ->. Qed.

(** *** The sweep of expired codes and tokens *)

(** [cleanup_tokens] at clock reading [now] removes exactly the codes
    and the tokens with [expires_at < now], keeps every other row as it
    is, touches no other table, reports the numbers of rows removed, and
    run again at the same reading removes nothing. *)
Theorem cleanup_tokens_spec (now : Timestamp) (admin : User.t) (db : Db) :
  exists db',
    run (cleanup_tokens now admin) db
      = (inr (JDict
           [("deleted_codes",
             JInt (Z.of_nat (size (oauth_codes db))
                   - Z.of_nat (size (oauth_codes db'))));
            ("deleted_tokens",
             JInt (Z.of_nat (size (oauth_tokens db))
                   - Z.of_nat (size (oauth_tokens db'))))]), db') /\
    (forall C c, oauth_codes db' !! C = Some c <->
                 oauth_codes db !! C = Some c /\ now <= OAuthCode.expires_at c) /\
    (forall T t, oauth_tokens db' !! T = Some t <->
                 oauth_tokens db !! T = Some t /\ now <= OAuthToken.expires_at t) /\
    users db' = users db /\ applications db' = applications db /\
    application_access db' = application_access db /\
    audit_logs db' = audit_logs db /\
    run (cleanup_tokens now admin) db'
      = (inr (JDict [("deleted_codes", JInt 0); ("deleted_tokens", JInt 0)]),
         db').
Proof.
  eexists. split; [|split; [|split; [|split; [|split; [|split; [|split]]]]]].
  - unfold run, cleanup_tokens, bind, query, update, commit, ret. simpl.
    pose proof (filter_split_size
      (fun kc : string * OAuthCode.t => OAuthCode.expires_at (snd kc) < now)
      (oauth_codes db)) as Hc.
    pose proof (filter_split_size
      (fun kt : string * OAuthToken.t => OAuthToken.expires_at (snd kt) < now)
      (oauth_tokens db)) as Ht.
    assert (forall a b a' b' : Z, a = a' -> b = b' ->
      JDict [("deleted_codes", JInt a); ("deleted_tokens", JInt b)]
      = JDict [("deleted_codes", JInt a'); ("deleted_tokens", JInt b')]) as Hj
      by (by intros ? ? ? ? -> ->).
    f_equal. f_equal. simpl in Hc, Ht. apply Hj; simpl; lia.
  - intros C c. simpl. rewrite map_lookup_filter_Some. simpl. intuition lia.
  - intros T t. simpl. rewrite map_lookup_filter_Some. simpl. intuition lia.
  - done.
  - done.
  - done.
  - done.
  - unfold run, cleanup_tokens, bind, query, update, commit, ret. simpl.
    rewrite !filter_gone_twice, !map_size_empty.
    unfold set_oauth_tokens, set_oauth_codes. simpl.
    rewrite !filter_kept_twice.
    reflexivity.
Qed.

(** *** Group membership *)

Lemma set_user_group_members_id (f : list (UUID * UUID) -> list (UUID * UUID))
    (db : Db) :
  f (user_group_members db) = user_group_members db ->
  set_user_group_members f db = db.
Proof. destruct db. unfold set_user_group_members. simpl. by intros ->. Qed.

(** Removing members deletes exactly the memberships of the listed users
    in this group and keeps every other one; the [updated] count it
    reports is the number of ids in the request, not the number of
    memberships removed. *)
Theorem remove_members_spec
    (group_id : UUID) (data : BulkGroupMembershipRequest) (admin : User.t)
    (db : Db) (g : UserGroup.t) :
  List.filter (fun x => String.eqb (UserGroup.id x) group_id) (user_groups db)
    = [g] ->
  member_action data = "remove" ->
  exists db',
    run (add_group_members group_id data admin) db
      = (inr (JDict [("updated",
                      JInt (Z.of_nat (length (member_user_ids data))));
                     ("action", JStr "remove")]), db') /\
    forall u gid,
      In (u, gid) (user_group_members db') <->
      In (u, gid) (user_group_members db) /\
      ~ (gid = group_id /\ In u (member_user_ids data)).
Proof.
  intros Hg Hact.
  unfold run, add_group_members, bind, query. simpl. rewrite Hg. simpl.
  rewrite Hact. simpl. eexists. split; [reflexivity|]. simpl.
  intros u gid. rewrite filter_In. simpl.
  rewrite negb_true_iff, andb_false_iff, !String.eqb_neq.
  rewrite <- not_true_iff_false, mem_In.
  split; intros [Hin Hn]; (split; [done|]).
  - intros [-> Hu]. by destruct Hn.
  - destruct (decide (gid = group_id)) as [->|Hne]; [|by left].
    right. intros Hu. by apply Hn.
Qed.

Lemma remove_members_spec_witness :
  exists db',
    run (add_group_members "g-1"
           {| member_user_ids := ["u-1"; "u-7"]; member_action := "remove" |}
           admin0)
        (set_user_groups_sample db0)
      = (inr (JDict [("updated", JInt 2); ("action", JStr "remove")]), db') /\
    forall u gid,
      In (u, gid) (user_group_members db') <->
      In (u, gid) (user_group_members (set_user_groups_sample db0)) /\
      ~ (gid = "g-1" /\ In u ["u-1"; "u-7"]).
Proof.
  apply (remove_members_spec "g-1"
           {| member_user_ids := ["u-1"; "u-7"]; member_action := "remove" |}
           admin0 (set_user_groups_sample db0)
           {| UserGroup.id := "g-1"; UserGroup.name := "Ops" |});
    reflexivity.
Defined.

Lemma mem_app (x : UUID) (l1 l2 : list UUID) :
  mem x (l1 ++ l2) = mem x l1 || mem x l2.
Proof. unfold mem. apply existsb_app. Qed.

Lemma member_ids_app (group_id : UUID) (db : Db) (us : list User.t) :
  member_ids group_id
    (set_user_group_members
       (fun ms => ms ++ map (fun u => (User.id u, group_id)) us) db)
  = member_ids group_id db ++ map User.id us.
Proof.
  unfold member_ids. simpl. rewrite List.filter_app, map_app. f_equal.
  induction us as [|u us IH]; [done|]. simpl.
  rewrite String.eqb_refl. simpl. by f_equal.
Qed.

(** Adding members adds one membership for each listed id that is a row
    of the users table and not yet a member, and nothing else; the same
    request sent again adds nothing, reports 0 and leaves the store as
    it was. *)
Theorem add_members_idempotent
    (group_id : UUID) (data : BulkGroupMembershipRequest) (admin : User.t)
    (db : Db) (g : UserGroup.t) :
  List.filter (fun x => String.eqb (UserGroup.id x) group_id) (user_groups db)
    = [g] ->
  member_action data = "add" ->
  exists db1 added,
    run (add_group_members group_id data admin) db
      = (inr (JDict [("updated", JInt (Z.of_nat (length added)));
                     ("action", JStr "add")]), db1) /\
    user_group_members db1
      = user_group_members db ++ map (fun u => (User.id u, group_id)) added /\
    (forall u, In u added <->
               In u (users db) /\ In (User.id u) (member_user_ids data) /\
               ~ In (User.id u) (member_ids group_id db)) /\
    run (add_group_members group_id data admin) db1
      = (inr (JDict [("updated", JInt 0); ("action", JStr "add")]), db1).
Proof.
  intros Hg Hact.
  set (selected := List.filter (fun u => mem (User.id u) (member_user_ids data))
                               (users db)).
  set (added := List.filter
                  (fun u => negb (mem (User.id u) (member_ids group_id db)))
                  selected).
  exists (set_user_group_members
            (fun ms => ms ++ map (fun u => (User.id u, group_id)) added) db),
         added.
  split; [|split; [|split]].
  - unfold run, add_group_members, bind, query. simpl. rewrite Hg. simpl.
    rewrite Hact. reflexivity.
  - reflexivity.
  - intros u. unfold added, selected. rewrite !filter_In.
    rewrite negb_true_iff, <- not_true_iff_false, !mem_In. tauto.
  - unfold run, add_group_members, bind, query. simpl. rewrite Hg. simpl.
    rewrite Hact. simpl.
    fold selected. rewrite (member_ids_app group_id db added).
    assert (List.filter
              (fun u => negb (mem (User.id u)
                                  (member_ids group_id db ++ map User.id added)))
              selected = []) as ->.
    { apply filter_none. intros u Hu. rewrite negb_false_iff, mem_app.
      destruct (mem (User.id u) (member_ids group_id db)) eqn:Hm; [done|].
      simpl. apply mem_In. apply in_map. unfold added. apply filter_In.
      by rewrite Hm. }
    simpl. rewrite set_user_group_members_id; [done|]. simpl.
    by rewrite app_nil_r.
Qed.

Lemma add_members_idempotent_witness :
  exists db1 added,
    run (add_group_members "g-1"
           {| member_user_ids := ["u-1"; "u-7"]; member_action := "add" |}
           admin0)
        (set_user_groups_sample db0)
      = (inr (JDict [("updated", JInt (Z.of_nat (length added)));
                     ("action", JStr "add")]), db1) /\
    user_group_members db1
      = user_group_members (set_user_groups_sample db0)
        ++ map (fun u => (User.id u, "g-1")) added /\
    (forall u, In u added <->
               In u (users (set_user_groups_sample db0)) /\
               In (User.id u) ["u-1"; "u-7"] /\
               ~ In (User.id u) (member_ids "g-1" (set_user_groups_sample db0))) /\
    run (add_group_members "g-1"
           {| member_user_ids := ["u-1"; "u-7"]; member_action := "add" |}
           admin0) db1
      = (inr (JDict [("updated", JInt 0); ("action", JStr "add")]), db1).
Proof.
  apply (add_members_idempotent "g-1"
           {| member_user_ids := ["u-1"; "u-7"]; member_action := "add" |}
           admin0 (set_user_groups_sample db0)
           {| UserGroup.id := "g-1"; UserGroup.name := "Ops" |});
    reflexivity.
Defined.

End AdminToolsProps.
(** ** Further properties of the user endpoints *)

Module AdminUsersProps.
Import Py Store AuditService Admin AdminProps Samples.
Local Open Scope handler_scope.

Lemma set_users_id (f : list User.t -> list User.t) (db : Db) :
  f (users db) = users db -> set_users f db = db.
Proof. destruct db. unfold set_users. simpl. by intros ->. Qed.

Lemma map_fixed {A : Type} (f : A -> A) (l : list A) :
  (forall x, In x l -> f x = x) -> map f l = l.
Proof.
  induction l as [|x l IH]; simpl; intros H; [done|].
  rewrite (H x) by auto. f_equal. apply IH. auto.
Qed.

Lemma filter_singleton_all {A : Type} (f : A -> bool) (l : list A) (x y : A) :
  List.filter f l = [x] -> In y l -> f y = true -> y = x.
Proof.
  intros H Hin Hf.
  assert (In y (List.filter f l)) as Hy by (by apply filter_In).
  rewrite H in Hy. by destruct Hy as [->|[]].
Qed.

(** *** The bulk action *)

Lemma bulk_step_id (action : string) (admin u : User.t) :
  User.id (fst (bulk_step action admin u)) = User.id u.
Proof.
  unfold bulk_step.
  destruct (String.eqb action "activate");
    [by destruct (negb (User.is_active u))|].
  destruct (String.eqb action "deactivate");
    [by destruct (User.is_active u)|].
  destruct (String.eqb action "make_admin");
    [by destruct (negb (User.is_admin u))|].
  destruct (String.eqb action "remove_admin"); [|done].
  by destruct (negb (String.eqb (User.id u) (User.id admin)) && User.is_admin u).
Qed.

Lemma bulk_step_settled (action : string) (admin u : User.t) :
  snd (bulk_step action admin (fst (bulk_step action admin u))) = false.
Proof.
  unfold bulk_step.
  destruct (String.eqb action "activate") eqn:E1.
  { destruct (User.is_active u) eqn:Ea; simpl; rewrite ?E1; simpl;
      by rewrite ?Ea. }
  destruct (String.eqb action "deactivate") eqn:E2.
  { destruct (User.is_active u) eqn:Ea; simpl; rewrite ?E1, ?E2; simpl;
      by rewrite ?Ea. }
  destruct (String.eqb action "make_admin") eqn:E3.
  { destruct (User.is_admin u) eqn:Ea; simpl; rewrite ?E1, ?E2, ?E3; simpl;
      by rewrite ?Ea. }
  destruct (String.eqb action "remove_admin") eqn:E4; [|done].
  destruct (negb (String.eqb (User.id u) (User.id admin)) && User.is_admin u)
    eqn:Ea; simpl; rewrite ?E1, ?E2, ?E3, ?E4; simpl; [|by rewrite Ea].
  by rewrite andb_false_r.
Qed.

Lemma bulk_step_unchanged (action : string) (admin u : User.t) :
  snd (bulk_step action admin u) = false -> fst (bulk_step action admin u) = u.
Proof.
  unfold bulk_step.
  destruct (String.eqb action "activate");
    [by destruct (negb (User.is_active u))|].
  destruct (String.eqb action "deactivate");
    [by destruct (User.is_active u)|].
  destruct (String.eqb action "make_admin");
    [by destruct (negb (User.is_admin u))|].
  destruct (String.eqb action "remove_admin"); [|done].
  by destruct (negb (String.eqb (User.id u) (User.id admin)) && User.is_admin u).
Qed.

(** When none of the selected users needs the change, the bulk action
    reports 0, writes no audit row and leaves the store as it was. *)
Lemma bulk_nothing_to_do (data : BulkUserActionRequest) (request : HttpRequest)
    (admin : User.t) (db : Db) :
  mem (User.id admin) (bulk_user_ids data)
    && mem (bulk_action data) ["deactivate"; "remove_admin"] = false ->
  (forall u, In u (users db) -> mem (User.id u) (bulk_user_ids data) = true ->
             snd (bulk_step (bulk_action data) admin u) = false) ->
  run (bulk_user_action data request admin) db
    = (inr (JDict [("updated", JInt 0); ("action", JStr (bulk_action data))]),
       db).
Proof.
  intros Hguard Hdone. unfold run, bulk_user_action. rewrite Hguard.
  unfold bind, query. cbn [working committed].
  assert (List.filter
            (fun u => snd (bulk_step (bulk_action data) admin u))
            (List.filter (fun u => mem (User.id u) (bulk_user_ids data))
                         (users db)) = []) as Hnone.
  { apply filter_none. intros u Hu. apply filter_In in Hu as [Hin Hm].
    by apply Hdone. }
  rewrite Hnone. simpl.
  rewrite set_users_id; [done|].
  apply map_fixed. intros u Hu.
  destruct (mem (User.id u) (bulk_user_ids data)) eqn:Hm; [|done].
  apply bulk_step_unchanged. by apply Hdone.
Qed.

(** The bulk action is idempotent: the same request sent again after a
    success changes no user, reports 0, writes no further audit row and
    leaves the store as it was. *)
Theorem bulk_action_idempotent
    (data : BulkUserActionRequest) (request : HttpRequest) (admin : User.t)
    (db db1 : Db) (body : Json) :
  run (bulk_user_action data request admin) db = (inr body, db1) ->
  run (bulk_user_action data request admin) db1
    = (inr (JDict [("updated", JInt 0); ("action", JStr (bulk_action data))]),
       db1).
Proof.
  intros Hrun.
  destruct (mem (User.id admin) (bulk_user_ids data)
            && mem (bulk_action data) ["deactivate"; "remove_admin"]) eqn:Hguard.
  { unfold run, bulk_user_action in Hrun. rewrite Hguard in Hrun. discriminate. }
  assert (users db1
          = map (fun u => if mem (User.id u) (bulk_user_ids data)
                          then fst (bulk_step (bulk_action data) admin u)
                          else u) (users db)) as Husers.
  { unfold run, bulk_user_action in Hrun. rewrite Hguard in Hrun.
    unfold bind, query in Hrun. cbn [working committed] in Hrun.
    destruct (0 <? _) in Hrun; [|simpl in Hrun; by injection Hrun as _ <-].
    unfold log_action in Hrun.
    destruct (fits 50 _ && fits 50 _ && fits 45 _) in Hrun; simpl in Hrun;
      [by injection Hrun as _ <- | discriminate]. }
  apply bulk_nothing_to_do; [exact Hguard|].
  intros u' Hin Hm. rewrite Husers in Hin. apply in_map_iff in Hin as (u & <- & Hu).
  destruct (mem (User.id u) (bulk_user_ids data)) eqn:Hmu.
  - apply bulk_step_settled.
  - congruence.
Qed.

Lemma bulk_action_idempotent_witness :
  run (bulk_user_action
         {| bulk_user_ids := ["u-1"]; bulk_action := "deactivate" |}
         request0 admin0)
      (snd (run (bulk_user_action
                   {| bulk_user_ids := ["u-1"]; bulk_action := "deactivate" |}
                   request0 admin0) db0))
    = (inr (JDict [("updated", JInt 0); ("action", JStr "deactivate")]),
       snd (run (bulk_user_action
                   {| bulk_user_ids := ["u-1"]; bulk_action := "deactivate" |}
                   request0 admin0) db0)).
Proof.
  apply (bulk_action_idempotent
           {| bulk_user_ids := ["u-1"]; bulk_action := "deactivate" |}
           request0 admin0 db0 _
           (JDict [("updated", JInt 1); ("action", JStr "deactivate")])).
  reflexivity.
Defined.

(** *** A user update that changes nothing *)

(** An update whose flags are absent or equal to the stored ones writes
    no audit row and leaves the store as it was.  On the row of another
    user it answers with the user as it is; on the acting admin's own
    row it fails after its commit, when the reply reads the groups that
    the refresh did not load. *)
Theorem update_user_noop
    (data : UserUpdateRequest) (request : HttpRequest) (admin user : User.t)
    (db : Db) :
  List.filter (fun u => String.eqb (User.id u) (User.id user)) (users db)
    = [user] ->
  upd_is_active data = None \/ upd_is_active data = Some (User.is_active user) ->
  upd_is_admin data = None \/ upd_is_admin data = Some (User.is_admin user) ->
  String.eqb (User.id user) (User.id admin) && is_False (upd_is_admin data)
    = false ->
  run (update_user (User.id user) data request admin) db
    = (if String.eqb (User.id user) (User.id admin)
       then inl (Unhandled "MissingGreenlet")
       else inr (user_response db user),
       db).
Proof.
  intros Hrow Hact Hadm Hguard.
  unfold run, update_user, bind, query. simpl. rewrite Hrow. simpl.
  rewrite Hguard.
  assert (store_user user (users db) = users db) as Hstore.
  { unfold store_user. apply map_fixed. intros r Hr.
    destruct (String.eqb (User.id r) (User.id user)) eqn:E; [|done].
    symmetry. by eapply filter_singleton_all. }
  assert (forall b, negb (Bool.eqb b b) = false) as Hbb by (by intros []).
  destruct Hact as [-> | ->], Hadm as [-> | ->]; simpl; rewrite ?Hbb; simpl;
    rewrite ?Hbb; simpl; rewrite set_users_id by done;
    by destruct (String.eqb (User.id user) (User.id admin)).
Qed.

Lemma update_user_noop_witness :
  run (update_user (User.id user1)
         {| upd_is_active := Some true; upd_is_admin := None |}
         request0 admin0) db0
    = (inr (user_response db0 user1), db0) /\
  run (update_user (User.id admin0)
         {| upd_is_active := Some true; upd_is_admin := Some true |}
         request0 admin0) db0
    = (inl (Unhandled "MissingGreenlet"), db0).
Proof.
  split.
  - apply (update_user_noop
             {| upd_is_active := Some true; upd_is_admin := None |}
             request0 admin0 user1 db0).
    + reflexivity.
    + by right.
    + by left.
    + reflexivity.
  - apply (update_user_noop
             {| upd_is_active := Some true; upd_is_admin := Some true |}
             request0 admin0 admin0 db0).
    + reflexivity.
    + by right.
    + by right.
    + reflexivity.
Defined.

End AdminUsersProps.
(** ** Further properties of the access endpoints *)

Module AdminAccessProps.
Import Py Store AuditService Admin AccessInv AdminProps Samples.
Local Open Scope handler_scope.

Lemma with_grants_nil (s : Session) : with_grants [] s = s.
Proof.
  unfold with_grants. rewrite set_application_access_id; [apply session_eta|].
  apply app_nil_r.
Qed.

Lemma with_grants_app (a b : list ApplicationAccess.t) (s : Session) :
  with_grants b (with_grants a s) = with_grants (a ++ b) s.
Proof.
  unfold with_grants. simpl. f_equal. destruct (working s).
  unfold set_application_access. simpl. by rewrite app_assoc.
Qed.

Lemma with_grants_access (a : list ApplicationAccess.t) (s : Session) :
  application_access (working (with_grants a s))
    = application_access (working s) ++ a.
Proof. by destruct s as [c []]. Qed.

Lemma user_grants_with (u A : UUID) (a : list ApplicationAccess.t) (s : Session) :
  user_grants u A (working (with_grants a s))
    = user_grants u A (working s)
        ++ List.filter
             (fun r => opt_is (ApplicationAccess.user_id r) u
                       && String.eqb (ApplicationAccess.application_id r) A) a.
Proof. unfold user_grants. by rewrite with_grants_access, List.filter_app. Qed.

Lemma group_grants_with (g A : UUID) (a : list ApplicationAccess.t) (s : Session) :
  group_grants g A (working (with_grants a s))
    = group_grants g A (working s)
        ++ List.filter
             (fun r => opt_is (ApplicationAccess.group_id r) g
                       && String.eqb (ApplicationAccess.application_id r) A) a.
Proof. unfold group_grants. by rewrite with_grants_access, List.filter_app. Qed.

(** The loop over the users: the rows it adds, one for each user that had
    none, and the single grant each user holds afterwards. *)
Lemma grant_users_spec (admin_id A : UUID) (user_ids : list UUID) :
  forall (granted : Z) (s : Session) (n : Z) (s' : Session),
    grant_users admin_id A user_ids granted s = (inr n, s') ->
    exists added,
      s' = with_grants added s /\
      n = granted + Z.of_nat (length added) /\
      Forall (fun row =>
                ApplicationAccess.application_id row = A /\
                ApplicationAccess.group_id row = None /\
                ApplicationAccess.granted_by row = admin_id /\
                exists u, ApplicationAccess.user_id row = Some u /\
                          In u user_ids /\
                          user_grants u A (working s) = []) added /\
      (forall u, In u user_ids ->
                 exists row, user_grants u A (working s') = [row]).
Proof.
  induction user_ids as [|u rest IH]; intros granted s n s' Hrun.
  { injection Hrun as <- <-. exists []. rewrite with_grants_nil.
    repeat split; [simpl; lia | constructor | intros ? []]. }
  simpl in Hrun. unfold bind at 1 in Hrun. unfold bind at 1 in Hrun.
  unfold query in Hrun.
  destruct (user_grants u A (working s)) as [|x [|y l]] eqn:E; simpl in Hrun;
    [| |discriminate].
  - unfold bind at 1 in Hrun. unfold update in Hrun.
    set (row := {| ApplicationAccess.user_id := Some u;
                   ApplicationAccess.group_id := None;
                   ApplicationAccess.application_id := A;
                   ApplicationAccess.granted_by := admin_id |}) in Hrun.
    change {| committed := committed s;
              working := set_application_access (fun rows => rows ++ [row])
                           (working s) |}
      with (with_grants [row] s) in Hrun.
    destruct (IH _ _ _ _ Hrun) as (added & -> & -> & Hall & Hone).
    assert (user_grants u A (working (with_grants [row] s)) = [row]) as Hu.
    { rewrite user_grants_with, E. simpl. by rewrite !String.eqb_refl. }
    exists (row :: added). rewrite with_grants_app. repeat split.
    + simpl length. lia.
    + constructor.
      * repeat split. exists u. repeat split; [by left | exact E].
      * eapply List.Forall_impl; [|exact Hall].
        intros r (Ha & Hg & Hb & v & Hv & Hin & Hnone).
        repeat split; try done. exists v. repeat split; [done | by right |].
        rewrite user_grants_with in Hnone. by apply app_eq_nil in Hnone as [? _].
    + intros v [<-|Hin]; [|rewrite <- with_grants_app; by apply Hone].
      exists row. rewrite <- with_grants_app, user_grants_with, Hu.
      rewrite filter_none; [done|].
      intros r Hr. rewrite List.Forall_forall in Hall.
      destruct (Hall r Hr) as (_ & _ & _ & v & Hv & _ & Hnone).
      rewrite Hv. simpl.
      destruct (String.eqb v u) eqn:Ev; [|done].
      apply String.eqb_eq in Ev. subst v. rewrite Hu in Hnone. discriminate.
  - destruct (IH _ _ _ _ Hrun) as (added & -> & -> & Hall & Hone).
    exists added. repeat split.
    + eapply List.Forall_impl; [|exact Hall].
      intros r (Ha & Hg & Hb & v & Hv & Hin & Hnone).
      repeat split; try done. exists v. repeat split; [done | by right | done].
    + intros v [<-|Hin]; [|by apply Hone].
      exists x. rewrite user_grants_with, E.
      rewrite filter_none; [done|].
      intros r Hr. rewrite List.Forall_forall in Hall.
      destruct (Hall r Hr) as (_ & _ & _ & v & Hv & _ & Hnone).
      rewrite Hv. simpl.
      destruct (String.eqb v u) eqn:Ev; [|done].
      apply String.eqb_eq in Ev. subst v. rewrite E in Hnone. discriminate.
Qed.

(** The loop over the groups, likewise. *)
Lemma grant_groups_spec (admin_id A : UUID) (group_ids : list UUID) :
  forall (granted : Z) (s : Session) (n : Z) (s' : Session),
    grant_groups admin_id A group_ids granted s = (inr n, s') ->
    exists added,
      s' = with_grants added s /\
      n = granted + Z.of_nat (length added) /\
      Forall (fun row =>
                ApplicationAccess.application_id row = A /\
                ApplicationAccess.user_id row = None /\
                ApplicationAccess.granted_by row = admin_id /\
                exists g, ApplicationAccess.group_id row = Some g /\
                          In g group_ids /\
                          group_grants g A (working s) = []) added /\
      (forall g, In g group_ids ->
                 exists row, group_grants g A (working s') = [row]).
Proof.
  induction group_ids as [|u rest IH]; intros granted s n s' Hrun.
  { injection Hrun as <- <-. exists []. rewrite with_grants_nil.
    repeat split; [simpl; lia | constructor | intros ? []]. }
  simpl in Hrun. unfold bind at 1 in Hrun. unfold bind at 1 in Hrun.
  unfold query in Hrun.
  destruct (group_grants u A (working s)) as [|x [|y l]] eqn:E; simpl in Hrun;
    [| |discriminate].
  - unfold bind at 1 in Hrun. unfold update in Hrun.
    set (row := {| ApplicationAccess.user_id := None;
                   ApplicationAccess.group_id := Some u;
                   ApplicationAccess.application_id := A;
                   ApplicationAccess.granted_by := admin_id |}) in Hrun.
    change {| committed := committed s;
              working := set_application_access (fun rows => rows ++ [row])
                           (working s) |}
      with (with_grants [row] s) in Hrun.
    destruct (IH _ _ _ _ Hrun) as (added & -> & -> & Hall & Hone).
    assert (group_grants u A (working (with_grants [row] s)) = [row]) as Hu.
    { rewrite group_grants_with, E. simpl. by rewrite !String.eqb_refl. }
    exists (row :: added). rewrite with_grants_app. repeat split.
    + simpl length. lia.
    + constructor.
      * repeat split. exists u. repeat split; [by left | exact E].
      * eapply List.Forall_impl; [|exact Hall].
        intros r (Ha & Hg & Hb & v & Hv & Hin & Hnone).
        repeat split; try done. exists v. repeat split; [done | by right |].
        rewrite group_grants_with in Hnone.
        by apply app_eq_nil in Hnone as [? _].
    + intros v [<-|Hin]; [|rewrite <- with_grants_app; by apply Hone].
      exists row. rewrite <- with_grants_app, group_grants_with, Hu.
      rewrite filter_none; [done|].
      intros r Hr. rewrite List.Forall_forall in Hall.
      destruct (Hall r Hr) as (_ & _ & _ & v & Hv & _ & Hnone).
      rewrite Hv. simpl.
      destruct (String.eqb v u) eqn:Ev; [|done].
      apply String.eqb_eq in Ev. subst v. rewrite Hu in Hnone. discriminate.
  - destruct (IH _ _ _ _ Hrun) as (added & -> & -> & Hall & Hone).
    exists added. repeat split.
    + eapply List.Forall_impl; [|exact Hall].
      intros r (Ha & Hg & Hb & v & Hv & Hin & Hnone).
      repeat split; try done. exists v. repeat split; [done | by right | done].
    + intros v [<-|Hin]; [|by apply Hone].
      exists x. rewrite group_grants_with, E.
      rewrite filter_none; [done|].
      intros r Hr. rewrite List.Forall_forall in Hall.
      destruct (Hall r Hr) as (_ & _ & _ & v & Hv & _ & Hnone).
      rewrite Hv. simpl.
      destruct (String.eqb v u) eqn:Ev; [|done].
      apply String.eqb_eq in Ev. subst v. rewrite E in Hnone. discriminate.
Qed.

Lemma bind_inr {A B : Type} (c : M A) (k : A -> M B) (s s' : Session) (b : B) :
  bind c k s = (inr b, s') ->
  exists a s1, c s = (inr a, s1) /\ k a s1 = (inr b, s').
Proof.
  unfold bind. destruct (c s) as [[e|a] s1]; [discriminate|]. eauto.
Qed.

Lemma set_audit_logs_id (f : list AuditLog.t -> list AuditLog.t) (db : Db) :
  f (audit_logs db) = audit_logs db -> set_audit_logs f db = db.
Proof. destruct db. unfold set_audit_logs. simpl. by intros ->. Qed.

(** What a successful grant request does to the store. *)
Lemma grant_access_run
    (data : AccessGrantRequest) (request : HttpRequest) (admin : User.t)
    (db db' : Db) (body : Json) :
  run (grant_access data request admin) db = (inr body, db') ->
  exists app a1 a2 logs,
    List.filter
      (fun a => String.eqb (Application.id a) (grant_application_id data))
      (applications db) = [app] /\
    db' = set_audit_logs (fun rows => rows ++ logs)
            (set_application_access (fun rows => rows ++ (a1 ++ a2)) db) /\
    body = JDict [("granted", JInt (Z.of_nat (length (a1 ++ a2))))] /\
    length logs = match a1 ++ a2 with [] => 0%nat | _ :: _ => 1%nat end /\
    Forall (fun row =>
              ApplicationAccess.granted_by row = User.id admin /\
              names_user (grant_application_id data) (grant_user_ids data) row)
           a1 /\
    Forall (fun row =>
              ApplicationAccess.granted_by row = User.id admin /\
              names_group (grant_application_id data) (grant_group_ids data) row)
           a2 /\
    (forall u, In u (grant_user_ids data) ->
       exists row, user_grants u (grant_application_id data) db' = [row]) /\
    (forall g, In g (grant_group_ids data) ->
       exists row, group_grants g (grant_application_id data) db' = [row]) /\
    (a1 ++ a2 <> [] -> fits 45 (ip_of request) = true).
Proof.
  unfold run. intros Hrun.
  destruct (grant_access data request admin {| committed := db; working := db |})
    as [r sf] eqn:Hg.
  injection Hrun as -> <-.
  unfold grant_access, application_by_id in Hg.
  apply bind_inr in Hg as (found & s0 & Hfound & Hg).
  apply bind_inr in Hfound as (rows & s0' & Hq & Hone).
  unfold query in Hq. injection Hq as <- <-. cbn [working] in Hone.
  destruct (List.filter _ (applications db)) as [|app [|app' l]] eqn:Happ;
    simpl in Hone; [| |discriminate]; injection Hone as <- <-;
    [discriminate|].
  apply bind_inr in Hg as (n1 & s1 & Hu & Hg).
  apply bind_inr in Hg as (n2 & s2 & Hgr & Hg).
  apply grant_users_spec in Hu as (a1 & -> & -> & Hall1 & Hone1).
  apply grant_groups_spec in Hgr as (a2 & -> & -> & Hall2 & Hone2).
  rewrite with_grants_app in Hg, Hone2.
  set (s0 := {| committed := db; working := db |}) in *.
  assert (0 + Z.of_nat (length a1) + Z.of_nat (length a2)
          = Z.of_nat (length (a1 ++ a2))) as Hn
    by (rewrite length_app; lia).
  rewrite Hn in Hg.
  assert (forall u, In u (grant_user_ids data) ->
            exists row, user_grants u (grant_application_id data)
                          (working (with_grants (a1 ++ a2) s0)) = [row]) as Hu.
  { intros u Hin. destruct (Hone1 u Hin) as [row Hrow]. exists row.
    rewrite <- with_grants_app, user_grants_with, Hrow.
    rewrite filter_none; [done|].
    intros r Hr. rewrite List.Forall_forall in Hall2.
    destruct (Hall2 r Hr) as (_ & -> & _). done. }
  exists app, a1, a2.
  assert (Forall (fun row =>
            ApplicationAccess.granted_by row = User.id admin /\
            names_user (grant_application_id data) (grant_user_ids data) row)
          a1) as Hn1.
  { eapply List.Forall_impl; [|exact Hall1].
    intros r (Ha & Hgn & Hb & v & Hv & Hin & _). repeat split; try done.
    by exists v. }
  assert (Forall (fun row =>
            ApplicationAccess.granted_by row = User.id admin /\
            names_group (grant_application_id data) (grant_group_ids data) row)
          a2) as Hn2.
  { eapply List.Forall_impl; [|exact Hall2].
    intros r (Ha & Hgn & Hb & v & Hv & Hin & _). repeat split; try done.
    by exists v. }
  destruct (0 <? Z.of_nat (length (a1 ++ a2))) eqn:Hpos.
  - apply Z.ltb_lt in Hpos.
    unfold bind, log_action, update, commit, ret in Hg. simpl in Hg.
    destruct (fits 45 (ip_of request)) eqn:Hfit; simpl in Hg; [|discriminate].
    injection Hg as <- <-. eexists [_]. cbn [working committed].
    repeat split; try done.
    destruct (a1 ++ a2); [simpl in Hpos; lia | done].
  - apply Z.ltb_ge in Hpos.
    unfold bind, commit, ret in Hg. simpl in Hg.
    injection Hg as <- <-. exists []. cbn [working committed].
    assert (a1 ++ a2 = []) as Hnil
      by (destruct (a1 ++ a2); [done | simpl in Hpos; lia]).
    repeat split; try done.
    + rewrite set_audit_logs_id; [done | apply app_nil_r].
    + by rewrite Hnil.
Qed.

(** A successful grant adds one row for each requested principal that
    had none, in the name of the acting admin, and nothing else: every
    requested user and group then holds exactly one grant on the
    application, the reply counts the rows added, and one audit row is
    written when a row was added, none otherwise. *)
Theorem grant_access_spec
    (data : AccessGrantRequest) (request : HttpRequest) (admin : User.t)
    (db db' : Db) (body : Json) :
  run (grant_access data request admin) db = (inr body, db') ->
  exists added,
    application_access db' = application_access db ++ added /\
    body = JDict [("granted", JInt (Z.of_nat (length added)))] /\
    Forall (fun row =>
              ApplicationAccess.granted_by row = User.id admin /\
              (names_user (grant_application_id data) (grant_user_ids data) row \/
               names_group (grant_application_id data) (grant_group_ids data) row))
           added /\
    (forall u, In u (grant_user_ids data) ->
       exists row, user_grants u (grant_application_id data) db' = [row]) /\
    (forall g, In g (grant_group_ids data) ->
       exists row, group_grants g (grant_application_id data) db' = [row]) /\
    audit_rows_added db db'
      = match added with [] => 0%nat | _ :: _ => 1%nat end /\
    users db' = users db /\ applications db' = applications db.
Proof.
  intros Hrun.
  apply grant_access_run in Hrun
    as (app & a1 & a2 & logs & _ & -> & -> & Hlogs & H1 & H2 & Hu & Hg & _).
  exists (a1 ++ a2). repeat split; try done.
  - apply Forall_app. split.
    + eapply List.Forall_impl; [|exact H1]. intros r [? ?]. split; [done|by left].
    + eapply List.Forall_impl; [|exact H2]. intros r [? ?]. split; [done|by right].
  - unfold audit_rows_added. simpl. rewrite length_app, Hlogs.
    destruct (a1 ++ a2); lia.
Qed.

Lemma grant_access_spec_witness :
  exists added,
    application_access
      (snd (run (grant_access
                   {| grant_application_id := "app-1";
                      grant_user_ids := ["u-1"; "u-1"];
                      grant_group_ids := ["g-1"] |} request0 admin0) db0))
      = application_access db0 ++ added /\
    length added = 2%nat.
Proof.
  destruct (grant_access_spec
              {| grant_application_id := "app-1";
                 grant_user_ids := ["u-1"; "u-1"];
                 grant_group_ids := ["g-1"] |} request0 admin0 db0
              (snd (run (grant_access
                           {| grant_application_id := "app-1";
                              grant_user_ids := ["u-1"; "u-1"];
                              grant_group_ids := ["g-1"] |} request0 admin0) db0))
              (JDict [("granted", JInt 2)]))
    as (added & Hacc & Hbody & _).
  - reflexivity.
  - exists added. split; [exact Hacc|].
    injection Hbody as Hn. lia.
Defined.

(** *** Revocation *)

Lemma filter_twice {A : Type} (f g : A -> bool) (l : list A) :
  List.filter (fun a => negb (g a)) (List.filter (fun a => negb (f a)) l)
    = List.filter (fun a => negb (f a || g a)) l.
Proof.
  induction l as [|x l IH]; [done|]. simpl.
  destruct (f x); simpl; [done|]. destruct (g x); simpl; by rewrite IH.
Qed.

Lemma filter_twice_length {A : Type} (f g : A -> bool) (l : list A) :
  (length (List.filter f l)
   + length (List.filter g (List.filter (fun a => negb (f a)) l))
   = length (List.filter (fun a => f a || g a) l))%nat.
Proof.
  induction l as [|x l IH]; [done|]. simpl.
  destruct (f x); simpl; [lia|]. destruct (g x); simpl; lia.
Qed.

Lemma set_application_access_twice
    (f g : list ApplicationAccess.t -> list ApplicationAccess.t) (db : Db) :
  set_application_access g (set_application_access f db)
    = set_application_access (fun rows => g (f rows)) db.
Proof. by destruct db. Qed.

(** One [delete] of [revoke_access], guarded by its list of ids. *)
Lemma revoke_step (ids : list UUID) (matches : ApplicationAccess.t -> bool)
    (s : Session) :
  (ids = [] -> forall a, matches a = false) ->
  match ids with
  | [] => ret 0
  | _ :: _ => delete_access matches
  end s
  = (inr (Z.of_nat (length (List.filter matches
                              (application_access (working s))))),
     {| committed := committed s;
        working := set_application_access
                     (List.filter (fun a => negb (matches a))) (working s) |}).
Proof.
  intros Hnil. destruct ids as [|i ids]; [|done].
  unfold ret. rewrite filter_none by (intros; by apply Hnil).
  rewrite set_application_access_id; [by rewrite session_eta|].
  apply filter_all. intros a _. by rewrite Hnil.
Qed.

Lemma revokes_user_nil (data : AccessRevokeRequest) :
  revoke_user_ids data = [] -> forall a, revokes_user data a = false.
Proof.
  intros E a. unfold revokes_user. rewrite E.
  by destruct (ApplicationAccess.user_id a).
Qed.

Lemma revokes_group_nil (data : AccessRevokeRequest) :
  revoke_group_ids data = [] -> forall a, revokes_group data a = false.
Proof.
  intros E a. unfold revokes_group. rewrite E.
  by destruct (ApplicationAccess.group_id a).
Qed.

(** A revocation whose application id names at most one row, up to its
    audit row: the deletions are done and counted. *)
Lemma revoke_access_steps
    (data : AccessRevokeRequest) (request : HttpRequest) (admin : User.t)
    (db : Db) :
  (length (List.filter
             (fun a => String.eqb (Application.id a) (revoke_application_id data))
             (applications db)) <= 1)%nat ->
  run (revoke_access data request admin) db
  = run (update (set_application_access
                   (List.filter (fun a => negb (revokes_user data a
                                                || revokes_group data a)))) ;;;
         let revoked :=
           Z.of_nat (length (List.filter
                               (fun a => revokes_user data a
                                         || revokes_group data a)
                               (application_access db))) in
         (if 0 <? revoked then
            log_action (User.id admin) "access.revoke" "application"
              (Some (revoke_application_id data))
              (Some (JDict [("user_ids",
                             JList (map JStr (revoke_user_ids data)));
                            ("group_ids",
                             JList (map JStr (revoke_group_ids data)))]))
              (Some (JDict [("revoked_count", JInt revoked)]))
              (Some request) ;;;
            ret tt
          else ret tt) ;;;
         commit ;;;
         ret (JDict [("revoked", JInt revoked)])) db.
Proof.
  intros Happ.
  unfold run, revoke_access, application_by_id.
  unfold bind at 1. unfold bind at 1. unfold query. simpl.
  set (s := {| committed := db; working := db |}).
  assert (exists o, scalar_one_or_none
            (List.filter
               (fun a => String.eqb (Application.id a)
                           (revoke_application_id data))
               (applications db)) s = (inr o, s)) as [o ->].
  { destruct (List.filter _ (applications db)) as [|a [|a' l]]; simpl in *;
      [by eexists | by eexists | lia]. }
  unfold bind at 1.
  rewrite (revoke_step _ _ s (revokes_user_nil data)).
  unfold bind at 1. rewrite (revoke_step _ _ _ (revokes_group_nil data)).
  cbn [working committed]. rewrite set_application_access_twice.
  replace (application_access
             (set_application_access
                (List.filter (fun a => negb (revokes_user data a))) (working s)))
    with (List.filter (fun a => negb (revokes_user data a))
                      (application_access db)) by (by destruct db).
  rewrite <- Nat2Z.inj_add, filter_twice_length.
  replace (set_application_access
             (fun rows =>
                List.filter (fun a => negb (revokes_group data a))
                  (List.filter (fun a => negb (revokes_user data a)) rows))
             (working s))
    with (set_application_access
            (List.filter (fun a => negb (revokes_user data a
                                         || revokes_group data a))) db)
    by (destruct db; unfold set_application_access; simpl;
        by rewrite filter_twice).
  reflexivity.
Qed.

(** What a revocation does to the store when the application id names
    at most one row and the audit row, if one is due, can be written. *)
Lemma revoke_access_ok
    (data : AccessRevokeRequest) (request : HttpRequest) (admin : User.t)
    (db : Db) :
  (length (List.filter
             (fun a => String.eqb (Application.id a) (revoke_application_id data))
             (applications db)) <= 1)%nat ->
  (List.filter (fun a => revokes_user data a || revokes_group data a)
               (application_access db) <> [] ->
   fits 45 (ip_of request) = true) ->
  exists logs,
    run (revoke_access data request admin) db
      = (inr (JDict [("revoked",
                      JInt (Z.of_nat
                        (length (List.filter
                                   (fun a => revokes_user data a
                                             || revokes_group data a)
                                   (application_access db)))))]),
         set_audit_logs (fun rows => rows ++ logs)
           (set_application_access
              (List.filter (fun a => negb (revokes_user data a
                                           || revokes_group data a))) db)) /\
    length logs
      = match List.filter (fun a => revokes_user data a || revokes_group data a)
                          (application_access db) with
        | [] => 0%nat
        | _ :: _ => 1%nat
        end.
Proof.
  intros Happ Hfit. rewrite revoke_access_steps by done.
  unfold run, bind, update, commit, ret. cbn [working committed].
  destruct (List.filter (fun a => revokes_user data a || revokes_group data a)
                        (application_access db)) as [|r l] eqn:E.
  - exists []. split; [|done]. simpl.
    rewrite set_audit_logs_id; [done | apply app_nil_r].
  - unfold log_action. simpl. rewrite Hfit by done. simpl.
    eexists [_]. split; [|done]. reflexivity.
Qed.

(** A revocation that has a row to remove and cannot write its audit
    row fails and leaves the store as it was. *)
Lemma revoke_access_refused
    (data : AccessRevokeRequest) (request : HttpRequest) (admin : User.t)
    (db : Db) :
  (length (List.filter
             (fun a => String.eqb (Application.id a) (revoke_application_id data))
             (applications db)) <= 1)%nat ->
  List.filter (fun a => revokes_user data a || revokes_group data a)
              (application_access db) <> [] ->
  fits 45 (ip_of request) = false ->
  run (revoke_access data request admin) db
    = (inl (Unhandled "DataError"), db).
Proof.
  intros Happ Hne Hfit. rewrite revoke_access_steps by done.
  unfold run, bind, update, commit, ret. cbn [working committed].
  destruct (List.filter (fun a => revokes_user data a || revokes_group data a)
                        (application_access db)) as [|r l] eqn:E; [done|].
  unfold log_action. simpl. rewrite Hfit. reflexivity.
Qed.

Lemma revoke_access_unique
    (data : AccessRevokeRequest) (request : HttpRequest) (admin : User.t)
    (db db' : Db) (body : Json) :
  run (revoke_access data request admin) db = (inr body, db') ->
  (length (List.filter
             (fun a => String.eqb (Application.id a) (revoke_application_id data))
             (applications db)) <= 1)%nat.
Proof.
  unfold run, revoke_access, application_by_id.
  unfold bind at 1. unfold bind at 1. unfold bind at 1. unfold query. simpl.
  destruct (List.filter _ (applications db)) as [|a [|a' l]]; simpl;
    [lia | lia | discriminate].
Qed.

(** A successful revocation removes exactly the grant rows of the
    application that name a listed user or a listed group and keeps every
    other row, in order; the reply counts the rows removed, and one audit
    row is written when a row was removed, none otherwise. *)
Theorem revoke_access_spec
    (data : AccessRevokeRequest) (request : HttpRequest) (admin : User.t)
    (db db' : Db) (body : Json) :
  run (revoke_access data request admin) db = (inr body, db') ->
  application_access db'
    = List.filter (fun a => negb (revokes_user data a || revokes_group data a))
                  (application_access db) /\
  body = JDict [("revoked",
                 JInt (Z.of_nat (length (application_access db))
                       - Z.of_nat (length (application_access db'))))] /\
  audit_rows_added db db'
    = (if (length (application_access db') <? length (application_access db))%nat
       then 1%nat else 0%nat) /\
  users db' = users db /\ applications db' = applications db.
Proof.
  intros Hrun.
  pose proof (revoke_access_unique _ _ _ _ _ _ Hrun) as Happ.
  assert (List.filter (fun a => revokes_user data a || revokes_group data a)
                      (application_access db) <> [] ->
          fits 45 (ip_of request) = true) as Hfits.
  { intros Hne. destruct (fits 45 (ip_of request)) eqn:Hfit; [done|].
    rewrite (revoke_access_refused data request admin db Happ Hne Hfit) in Hrun.
    discriminate. }
  destruct (revoke_access_ok data request admin db Happ Hfits)
    as (logs & Hok & Hlogs).
  rewrite Hok in Hrun. injection Hrun as <- <-.
  pose proof (List.filter_length
                (fun a => revokes_user data a || revokes_group data a)
                (application_access db)) as Hlen.
  cbn [application_access set_audit_logs set_application_access users
       applications audit_logs].
  repeat split.
  - assert (Z.of_nat (length (List.filter
                (fun a => revokes_user data a || revokes_group data a)
                (application_access db)))
            = Z.of_nat (length (application_access db))
              - Z.of_nat (length (List.filter
                  (fun a => negb (revokes_user data a || revokes_group data a))
                  (application_access db)))) as -> by lia.
    done.
  - unfold audit_rows_added. cbn [audit_logs set_audit_logs set_application_access].
    rewrite length_app, Hlogs.
    destruct (List.filter (fun a => revokes_user data a || revokes_group data a)
                          (application_access db)) as [|r l]; simpl in *.
    + rewrite <- Hlen, Nat.ltb_irrefl. lia.
    + replace (_ <? _)%nat with true; [lia|].
      symmetry. apply Nat.ltb_lt. lia.
Qed.

Lemma revoke_access_spec_witness :
  application_access
    (snd (run (revoke_access
                 {| revoke_application_id := "app-1";
                    revoke_user_ids := ["u-1"];
                    revoke_group_ids := [] |} request0 admin0) db1))
    = [].
Proof.
  apply (revoke_access_spec
           {| revoke_application_id := "app-1"; revoke_user_ids := ["u-1"];
              revoke_group_ids := [] |} request0 admin0 db1 _
           (JDict [("revoked", JInt 1)])).
  reflexivity.
Defined.

(** *** Granting, then revoking *)

(** Revoking what a request has just granted, from principals that held
    no grant before it, takes the grant table back to what it was and
    counts as many rows as the grant did. *)
Theorem grant_then_revoke
    (data : AccessGrantRequest) (request : HttpRequest) (admin : User.t)
    (db db1 : Db) (body : Json) :
  no_grant db (grant_application_id data)
           (grant_user_ids data) (grant_group_ids data) ->
  run (grant_access data request admin) db = (inr body, db1) ->
  exists n db2,
    body = JDict [("granted", JInt n)] /\
    run (revoke_access (revocation_of data) request admin) db1
      = (inr (JDict [("revoked", JInt n)]), db2) /\
    application_access db2 = application_access db.
Proof.
  intros Hno Hrun.
  apply grant_access_run in Hrun
    as (app0 & a1 & a2 & logs & Happ & -> & -> & _ & H1 & H2 & _ & _ & Hfit).
  set (db1 := set_audit_logs _ _).
  assert (List.filter
            (fun a => revokes_user (revocation_of data) a
                      || revokes_group (revocation_of data) a)
            (application_access db) = []) as Hold.
  { apply filter_none. intros row Hrow.
    unfold revokes_user, revokes_group. cbn [revocation_of revoke_application_id
      revoke_user_ids revoke_group_ids].
    destruct (String.eqb (ApplicationAccess.application_id row) _) eqn:Ea;
      [|by rewrite !andb_false_r].
    apply String.eqb_eq in Ea. destruct (Hno row Hrow Ea) as [Hnu Hng].
    rewrite !andb_true_r. apply orb_false_iff. split.
    - destruct (ApplicationAccess.user_id row) as [u|]; [|done].
      apply not_true_iff_false. rewrite mem_In. by apply Hnu.
    - destruct (ApplicationAccess.group_id row) as [g|]; [|done].
      apply not_true_iff_false. rewrite mem_In. by apply Hng. }
  assert (List.filter
            (fun a => revokes_user (revocation_of data) a
                      || revokes_group (revocation_of data) a)
            (a1 ++ a2) = a1 ++ a2) as Hnew.
  { apply filter_all. intros row Hrow. apply in_app_or in Hrow as [Hrow|Hrow].
    - rewrite List.Forall_forall in H1.
      destruct (H1 row Hrow) as (_ & Ha & _ & u & Hu & Hin).
      unfold revokes_user. cbn [revocation_of revoke_application_id
        revoke_user_ids]. rewrite Hu, Ha, String.eqb_refl.
      apply mem_In in Hin. by rewrite Hin.
    - rewrite List.Forall_forall in H2.
      destruct (H2 row Hrow) as (_ & Ha & _ & g & Hg & Hin).
      unfold revokes_group. cbn [revocation_of revoke_application_id
        revoke_group_ids]. rewrite Hg, Ha, String.eqb_refl.
      apply mem_In in Hin. rewrite Hin. apply orb_true_r. }
  assert (application_access db1 = application_access db ++ (a1 ++ a2)) as Hacc
    by done.
  assert (List.filter
            (fun a => revokes_user (revocation_of data) a
                      || revokes_group (revocation_of data) a)
            (application_access db1) = a1 ++ a2) as Hgone
    by (by rewrite Hacc, List.filter_app, Hold, Hnew).
  destruct (revoke_access_ok (revocation_of data) request admin db1)
    as (logs' & Hok & _).
  { unfold db1. cbn [applications set_audit_logs set_application_access].
    cbn [revocation_of revoke_application_id]. rewrite Happ. simpl. lia. }
  { rewrite Hgone. exact Hfit. }
  rewrite Hgone in Hok.
  eexists _, _. split; [reflexivity|]. split; [exact Hok|].
  cbn [application_access set_audit_logs set_application_access].
  rewrite Hacc, List.filter_app.
  pose proof (List.filter_length
                (fun a => revokes_user (revocation_of data) a
                          || revokes_group (revocation_of data) a)
                (application_access db)) as Hl1.
  rewrite Hold in Hl1.
  rewrite (filter_all _ (application_access db)).
  - rewrite filter_none; [apply app_nil_r|].
    intros row Hrow.
    assert (In row (List.filter
                      (fun a => revokes_user (revocation_of data) a
                                || revokes_group (revocation_of data) a)
                      (a1 ++ a2))) as Hin by (by rewrite Hnew).
    apply filter_In in Hin as [_ ->]. done.
  - intros row Hrow. apply negb_true_iff.
    destruct (revokes_user (revocation_of data) row
              || revokes_group (revocation_of data) row) eqn:E; [|done].
    assert (In row (List.filter
                      (fun a => revokes_user (revocation_of data) a
                                || revokes_group (revocation_of data) a)
                      (application_access db))) as Hin by (by apply filter_In).
    rewrite Hold in Hin. destruct Hin.
Qed.

Lemma grant_then_revoke_witness :
  exists n db2,
    JDict [("granted", JInt 2)] = JDict [("granted", JInt n)] /\
    run (revoke_access
           (revocation_of {| grant_application_id := "app-1";
                             grant_user_ids := ["u-1"];
                             grant_group_ids := ["g-1"] |}) request0 admin0)
        (snd (run (grant_access
                     {| grant_application_id := "app-1";
                        grant_user_ids := ["u-1"];
                        grant_group_ids := ["g-1"] |} request0 admin0) db0))
      = (inr (JDict [("revoked", JInt n)]), db2) /\
    application_access db2 = application_access db0.
Proof.
  apply (grant_then_revoke
           {| grant_application_id := "app-1"; grant_user_ids := ["u-1"];
              grant_group_ids := ["g-1"] |} request0 admin0 db0).
  - intros row [].
  - reflexivity.
Defined.

End AdminAccessProps.
(** ** Properties of the application endpoints *)

Module ApplicationsCrudProps.
Import Py Store Admin Applications ApplicationsCrud AdminProps AdminAccessProps
       AdminUsersProps Samples.
Local Open Scope handler_scope.

Lemma listed_eq (db : Db) (u : User.t) :
  listed db u
    = List.filter (department_gate (or_empty (User.department u)))
                  (List.filter Application.is_active (applications db)).
Proof. reflexivity. Qed.

Lemma application_by_id_inr (app_id : UUID) (s s' : Session)
    (o : option Application.t) :
  application_by_id app_id s = (inr o, s') ->
  s' = s /\
  List.filter (fun a => String.eqb (Application.id a) app_id)
              (applications (working s))
    = match o with Some app => [app] | None => [] end.
Proof.
  unfold application_by_id, bind, query.
  destruct (List.filter _ (applications (working s))) as [|a [|a' l]];
    simpl; intros H; [| |discriminate]; by injection H as <- <-.
Qed.

Lemma filter_comm {A : Type} (f g : A -> bool) (l : list A) :
  List.filter f (List.filter g l) = List.filter g (List.filter f l).
Proof.
  induction l as [|x l IH]; [done|]. simpl.
  destruct (f x) eqn:Ef, (g x) eqn:Eg; simpl; rewrite ?Ef, ?Eg, IH; done.
Qed.

Lemma filter_map_stable {A : Type} (p : A -> bool) (F : A -> A) (l : list A) :
  (forall x, p (F x) = p x) ->
  List.filter p (map F l) = map F (List.filter p l).
Proof.
  intros H. induction l as [|x l IH]; [done|]. simpl. rewrite H.
  destruct (p x); simpl; by rewrite IH.
Qed.

Lemma store_application_lookup (app_id : UUID) (app new : Application.t)
    (rows : list Application.t) :
  Application.id new = Application.id app ->
  List.filter (fun a => String.eqb (Application.id a) app_id) rows = [app] ->
  List.filter (fun a => String.eqb (Application.id a) app_id)
              (store_application new rows) = [new].
Proof.
  intros Hid Hrow. unfold store_application.
  rewrite filter_map_stable.
  - rewrite Hrow. simpl. by rewrite Hid, String.eqb_refl.
  - intros x. destruct (String.eqb (Application.id x) (Application.id new)) eqn:E;
      [|done].
    apply String.eqb_eq in E. by rewrite E.
Qed.

(** The rows of the other applications are listed as before when one row
    is written back. *)
Lemma store_application_others (app_id : UUID) (new : Application.t)
    (p : Application.t -> bool) (rows : list Application.t) :
  Application.id new = app_id ->
  List.filter (fun a => negb (String.eqb (Application.id a) app_id) && p a)
              (store_application new rows)
    = List.filter (fun a => negb (String.eqb (Application.id a) app_id) && p a)
                  rows.
Proof.
  intros <-. unfold store_application.
  induction rows as [|r rows IH]; [done|]. simpl.
  destruct (String.eqb (Application.id r) (Application.id new)) eqn:E; simpl.
  - rewrite String.eqb_refl. simpl. exact IH.
  - rewrite E. simpl. by rewrite IH.
Qed.

Lemma filter_and {A : Type} (f g : A -> bool) (l : list A) :
  List.filter (fun a => f a && g a) l = List.filter f (List.filter g l).
Proof.
  induction l as [|x l IH]; [done|]. simpl.
  destruct (g x) eqn:Eg, (f x) eqn:Ef; simpl; rewrite ?Ef, ?IH; done.
Qed.

Lemma soft_listing (app_id : UUID) (app : Application.t)
    (g : Application.t -> bool) (rows : list Application.t) :
  Application.id app = app_id ->
  List.filter g (List.filter Application.is_active
                   (store_application (with_app_is_active false app) rows))
    = List.filter (fun a => negb (String.eqb (Application.id a) app_id))
        (List.filter g (List.filter Application.is_active rows)).
Proof.
  intros <-. unfold store_application.
  change (Application.id (with_app_is_active false app))
    with (Application.id app).
  induction rows as [|r rows IH]; [done|].
  cbn [map].
  destruct (String.eqb (Application.id r) (Application.id app)) eqn:E.
  - cbn [List.filter].
    change (Application.is_active (with_app_is_active false app)) with false.
    cbv iota. rewrite IH.
    destruct (Application.is_active r); [|done].
    cbn [List.filter]. destruct (g r); [|done].
    cbn [List.filter]. by rewrite E.
  - cbn [List.filter]. destruct (Application.is_active r); [|exact IH].
    cbn [List.filter]. destruct (g r); [|exact IH].
    cbn [List.filter]. rewrite E. simpl. by rewrite IH.
Qed.

(** Writing back a row that keeps the id, the active flag and the
    departments of the rows it replaces leaves the listing of every
    department as it was, up to the other columns. *)
Lemma store_application_same_listing (new : Application.t) (d : string)
    (rows : list Application.t) :
  (forall r, In r rows -> Application.id r = Application.id new ->
     Application.is_active r = Application.is_active new /\
     Application.allowed_departments r = Application.allowed_departments new) ->
  map Application.id
      (List.filter (department_gate d)
         (List.filter Application.is_active (store_application new rows)))
    = map Application.id
        (List.filter (department_gate d)
           (List.filter Application.is_active rows)).
Proof.
  unfold store_application.
  induction rows as [|r rows IH]; intros H; [done|]. cbn [map].
  specialize (IH (fun r' Hr' => H r' (or_intror Hr'))).
  destruct (String.eqb (Application.id r) (Application.id new)) eqn:E.
  - apply String.eqb_eq in E.
    destruct (H r (or_introl eq_refl) E) as [Hact Hdep].
    cbn [List.filter]. rewrite <- Hact.
    destruct (Application.is_active r); [|exact IH].
    cbn [List.filter].
    assert (department_gate d new = department_gate d r) as ->
      by (unfold department_gate; by rewrite Hdep).
    destruct (department_gate d r); [|exact IH].
    cbn [map]. by rewrite IH, E.
  - cbn [List.filter]. destruct (Application.is_active r); [|exact IH].
    cbn [List.filter]. destruct (department_gate d r); [|exact IH].
    cbn [map]. by rewrite IH.
Qed.

(** *** Deleting an application *)

(** A soft delete hides the application from every user's listing and
    leaves the other applications listed as before; the row stays, now
    inactive, and no code, token or grant of the application is
    removed. *)
Theorem soft_delete_hides
    (app_id : UUID) (current_user : User.t) (db db' : Db) :
  run (delete_application app_id false current_user) db = (inr tt, db') ->
  (forall u,
     listed db' u
       = List.filter (fun a => negb (String.eqb (Application.id a) app_id))
                     (listed db u)) /\
  (exists app,
     run (get_application app_id current_user) db' = (inr app, db') /\
     Application.is_active app = false) /\
  oauth_codes db' = oauth_codes db /\
  oauth_tokens db' = oauth_tokens db /\
  application_access db' = application_access db.
Proof.
  unfold run. intros Hrun.
  destruct (delete_application app_id false current_user
              {| committed := db; working := db |}) as [r sf] eqn:Hd.
  injection Hrun as -> <-.
  unfold delete_application in Hd.
  apply bind_inr in Hd as (found & s0 & Hfound & Hd).
  apply application_by_id_inr in Hfound as [-> Hrow]. cbn [working] in Hrow.
  destruct found as [app|]; [|discriminate].
  unfold bind, update, commit in Hd. simpl in Hd. injection Hd as <-.
  cbn [committed].
  assert (Application.id app = app_id) as Hid.
  { apply String.eqb_eq.
    apply (filter_singleton
             (fun a => String.eqb (Application.id a) app_id) _ _ Hrow). }
  repeat split; try done.
  - intros u. rewrite !listed_eq. cbn [applications set_applications].
    by apply soft_listing.
  - exists (with_app_is_active false app). split; [|done].
    unfold get_application, application_by_id, bind, query.
    cbn [working applications set_applications].
    rewrite (store_application_lookup app_id app); done.
Qed.

Lemma soft_delete_hides_witness :
  listed (snd (run (delete_application "app-1" false admin0) db1)) user1
    = List.filter (fun a => negb (String.eqb (Application.id a) "app-1"))
                  (listed db1 user1).
Proof.
  destruct (soft_delete_hides "app-1" admin0 db1
              (snd (run (delete_application "app-1" false admin0) db1)))
    as [H _].
  - reflexivity.
  - apply H.
Defined.

(** A permanent delete removes the application row and every code,
    token and grant of the application, and nothing else; afterwards the
    application is not found, whether it is read or deleted again. *)
Theorem permanent_delete_purges
    (app_id : UUID) (current_user : User.t) (db db' : Db) :
  run (delete_application app_id true current_user) db = (inr tt, db') ->
  (forall a, In a (applications db')
             <-> In a (applications db) /\ Application.id a <> app_id) /\
  (forall g, In g (application_access db')
             <-> In g (application_access db)
                 /\ ApplicationAccess.application_id g <> app_id) /\
  (forall k c, oauth_codes db' !! k = Some c
               <-> oauth_codes db !! k = Some c
                   /\ OAuthCode.application_id c <> app_id) /\
  (forall k t, oauth_tokens db' !! k = Some t
               <-> oauth_tokens db !! k = Some t
                   /\ OAuthToken.application_id t <> app_id) /\
  users db' = users db /\
  run (get_application app_id current_user) db'
    = (inl (HTTPException 404 "Application not found"), db') /\
  run (delete_application app_id true current_user) db'
    = (inl (HTTPException 404 "Application not found"), db').
Proof.
  unfold run at 1. intros Hrun.
  destruct (delete_application app_id true current_user
              {| committed := db; working := db |}) as [r sf] eqn:Hd.
  injection Hrun as -> <-.
  unfold delete_application in Hd.
  apply bind_inr in Hd as (found & s0 & Hfound & Hd).
  apply application_by_id_inr in Hfound as [-> Hrow]. cbn [working] in Hrow.
  destruct found as [app|]; [|discriminate].
  unfold bind, update, commit in Hd. simpl in Hd. injection Hd as <-.
  cbn [committed].
  assert (Application.id app = app_id) as Hid.
  { apply String.eqb_eq.
    apply (filter_singleton
             (fun a => String.eqb (Application.id a) app_id) _ _ Hrow). }
  assert (List.filter (fun a => String.eqb (Application.id a) app_id)
            (List.filter
               (fun a => negb (String.eqb (Application.id a) (Application.id app)))
               (applications db)) = []) as Hgone.
  { apply filter_none. intros a Ha. apply filter_In in Ha as [_ Ha].
    rewrite Hid in Ha. by apply negb_true_iff in Ha. }
  split; [|split; [|split; [|split; [|split; [|split]]]]].
  - intros a. cbn [applications set_applications set_application_access
                   set_oauth_tokens set_oauth_codes].
    rewrite filter_In, Hid, negb_true_iff. by rewrite String.eqb_neq.
  - intros g. cbn [application_access set_applications set_application_access
                   set_oauth_tokens set_oauth_codes].
    rewrite filter_In, negb_true_iff. by rewrite String.eqb_neq.
  - intros k c. cbn [oauth_codes set_applications set_application_access
                     set_oauth_tokens set_oauth_codes].
    by rewrite map_lookup_filter_Some.
  - intros k t. cbn [oauth_tokens set_applications set_application_access
                     set_oauth_tokens set_oauth_codes].
    by rewrite map_lookup_filter_Some.
  - done.
  - unfold run, get_application, application_by_id, bind, query.
    cbn [working applications set_applications set_application_access
         set_oauth_tokens set_oauth_codes].
    by rewrite Hgone.
  - unfold run, delete_application, application_by_id, bind, query.
    cbn [working applications set_applications set_application_access
         set_oauth_tokens set_oauth_codes].
    by rewrite Hgone.
Qed.

Lemma permanent_delete_purges_witness :
  application_access
    (snd (run (delete_application "app-1" true admin0) db1)) = [].
Proof.
  destruct (permanent_delete_purges "app-1" admin0 db1
              (snd (run (delete_application "app-1" true admin0) db1)))
    as (_ & H & _).
  - reflexivity.
  - destruct (application_access _) as [|g l]; [done|].
    destruct (proj1 (H g) ltac:(by left)) as [[<-|[]] Hne]. by destruct Hne.
Defined.

(** *** A new client secret *)

Section SecretsProps.

Variable hash_secret : string -> string.

(** Regenerating the secret stores the hash of the very secret the reply
    carries and changes nothing else: the row keeps its other columns, the
    listing of every user shows the same applications, and the tokens
    issued earlier stay as they were. *)
Theorem regenerate_secret_effect
    (client_secret : string) (app_id : UUID) (current_user : User.t)
    (db db' : Db) (body : Json) :
  run (regenerate_client_secret hash_secret client_secret app_id current_user) db
    = (inr body, db') ->
  exists app,
    run (get_application app_id current_user) db = (inr app, db) /\
    run (get_application app_id current_user) db'
      = (inr (with_client_secret_hash (hash_secret client_secret) app), db') /\
    body = application_with_secret
             (with_client_secret_hash (hash_secret client_secret) app)
             client_secret /\
    (forall u, map Application.id (listed db' u)
               = map Application.id (listed db u)) /\
    oauth_tokens db' = oauth_tokens db /\
    application_access db' = application_access db.
Proof.
  unfold run at 1. intros Hrun.
  destruct (regenerate_client_secret hash_secret client_secret app_id
              current_user {| committed := db; working := db |})
    as [r sf] eqn:Hd.
  injection Hrun as -> <-.
  unfold regenerate_client_secret in Hd.
  apply bind_inr in Hd as (found & s0 & Hfound & Hd).
  apply application_by_id_inr in Hfound as [-> Hrow]. cbn [working] in Hrow.
  destruct found as [app|]; [|discriminate].
  unfold bind, update, commit, ret in Hd. simpl in Hd. injection Hd as <- <-.
  cbn [committed]. exists app.
  split; [|split; [|split; [|split; [|split]]]]; try done.
  - unfold run, get_application, application_by_id, bind, query.
    cbn [working]. by rewrite Hrow.
  - unfold run, get_application, application_by_id, bind, query.
    cbn [working applications set_applications].
    by rewrite (store_application_lookup app_id app).
  - intros u. rewrite !listed_eq. cbn [applications set_applications].
    apply store_application_same_listing.
    intros r Hr Hidr.
    assert (r = app) as ->; [|done].
    apply (filter_singleton_all
             (fun a => String.eqb (Application.id a) app_id)
             (applications db)); [done..|].
    change (Application.id
              (with_client_secret_hash (hash_secret client_secret) app))
      with (Application.id app) in Hidr.
    rewrite Hidr. 
    apply (filter_singleton
             (fun a => String.eqb (Application.id a) app_id) _ _ Hrow).
Qed.

End SecretsProps.

Lemma regenerate_secret_effect_witness :
  exists app,
    run (get_application "app-1" admin0) db1 = (inr app, db1) /\
    fst (run (get_application "app-1" admin0)
           (snd (run (regenerate_client_secret (fun x => ("h:" ++ x)%string)
                        "s3cret" "app-1" admin0) db1)))
      = inr (with_client_secret_hash "h:s3cret" app).
Proof.
  destruct (regenerate_secret_effect (fun x => ("h:" ++ x)%string)
              "s3cret" "app-1" admin0 db1
              (snd (run (regenerate_client_secret (fun x => ("h:" ++ x)%string)
                           "s3cret" "app-1" admin0) db1))
              (application_with_secret
                 (with_client_secret_hash "h:s3cret" app1) "s3cret"))
    as (app & H0 & H1 & _).
  - reflexivity.
  - exists app. split; [exact H0|]. by rewrite H1.
Defined.

(** *** Departments and the listing *)

Lemma department_gate_set (d : string) (ds : list string) (app : Application.t) :
  department_gate d (with_allowed_departments ds app) = true
  <-> ds = [] \/ In d ds.
Proof.
  destruct ds as [|d0 ds]; [by split; [left|]|].
  change (existsb (String.eqb d) (d0 :: ds) = true
          <-> d0 :: ds = [] \/ In d (d0 :: ds)).
  rewrite existsb_exists. split.
  - intros (x & Hx & E). apply String.eqb_eq in E. subst. by right.
  - intros [?|Hin]; [done|]. exists d. split; [done|apply String.eqb_refl].
Qed.

(** Once the departments of an application are set, a user sees it
    exactly when it is active and the list is empty or holds the user's
    department, a user without department counting as the empty string;
    what the application allowed before plays no part, and the other
    applications are listed as before. *)
Theorem departments_decide_listing
    (app_id : UUID) (departments : list string) (admin : User.t)
    (db db' : Db) (body : Json) :
  run (set_application_departments app_id departments admin) db
    = (inr body, db') ->
  exists app,
    run (get_application app_id admin) db = (inr app, db) /\
    forall u,
      (forall a, Application.id a <> app_id ->
                 (In a (listed db' u) <-> In a (listed db u))) /\
      ((exists a, In a (listed db' u) /\ Application.id a = app_id)
       <-> Application.is_active app = true /\
           (departments = [] \/ In (or_empty (User.department u)) departments)).
Proof.
  unfold run at 1. intros Hrun.
  destruct (set_application_departments app_id departments admin
              {| committed := db; working := db |}) as [r sf] eqn:Hd.
  injection Hrun as -> <-.
  unfold set_application_departments in Hd.
  apply bind_inr in Hd as (found & s0 & Hfound & Hd).
  apply application_by_id_inr in Hfound as [-> Hrow]. cbn [working] in Hrow.
  destruct found as [app|]; [|discriminate].
  unfold bind, update, commit, ret in Hd. simpl in Hd. injection Hd as _ <-.
  cbn [committed]. exists app.
  assert (Application.id app = app_id) as Hid.
  { apply String.eqb_eq.
    apply (filter_singleton
             (fun a => String.eqb (Application.id a) app_id) _ _ Hrow). }
  assert (In app (applications db)) as Happ.
  { assert (In app (List.filter
                      (fun a => String.eqb (Application.id a) app_id)
                      (applications db))) as Hin by (rewrite Hrow; by left).
    by apply filter_In in Hin as [? _]. }
  set (new := with_allowed_departments departments app).
  assert (forall a, In a (store_application new (applications db))
                    <-> (a = new \/ (In a (applications db)
                                     /\ Application.id a <> app_id))) as Hstore.
  { intros a. unfold store_application. rewrite in_map_iff. split.
    - intros (r & <- & Hr).
      destruct (String.eqb (Application.id r) (Application.id new)) eqn:E;
        [by left|].
      right. split; [done|]. apply String.eqb_neq in E. by rewrite <- Hid.
    - intros [->|[Ha Hne]].
      + exists app. split; [|done].
        change (Application.id new) with (Application.id app).
        by rewrite String.eqb_refl.
      + exists a. split; [|done].
        change (Application.id new) with (Application.id app).
        rewrite Hid. apply String.eqb_neq in Hne. by rewrite Hne. }
  split.
  { unfold run, get_application, application_by_id, bind, query.
    cbn [working]. by rewrite Hrow. }
  intros u. rewrite !listed_eq. cbn [applications set_applications].
  fold new. split.
  - intros a Hne. rewrite !filter_In, Hstore. split.
    + intros [[[->|[Ha _]] Hact] Hg]; [|done].
      by destruct Hne.
    + intros [[Ha Hact] Hg]. repeat split; try done. right. done.
  - split.
    + intros (a & Ha & Hida). apply filter_In in Ha as [Ha Hg].
      apply filter_In in Ha as [Ha Hact]. apply Hstore in Ha as [->|[_ Hne]];
        [|done].
      split; [exact Hact|]. by apply department_gate_set in Hg.
    + intros [Hact Hdep]. exists new. split; [|exact Hid].
      apply filter_In. split; [apply filter_In; split|].
      * apply Hstore. by left.
      * exact Hact.
      * by apply department_gate_set.
Qed.

Lemma departments_decide_listing_witness :
  exists app,
    run (get_application "app-1" admin0) db1 = (inr app, db1) /\
    ((exists a, In a (listed
                        (snd (run (set_application_departments "app-1"
                                     ["IT"] admin0) db1)) user1)
                /\ Application.id a = "app-1")
     <-> Application.is_active app = true /\
         (["IT"] = [] \/ In (or_empty (User.department user1)) ["IT"])).
Proof.
  destruct (departments_decide_listing "app-1" ["IT"] admin0 db1
              (snd (run (set_application_departments "app-1" ["IT"] admin0) db1))
              (JDict [("application_id", JStr "app-1");
                      ("allowed_departments", JList [JStr "IT"]);
                      ("message", JStr "Доступно: IT")]))
    as (app & H0 & H).
  - reflexivity.
  - exists app. split; [exact H0|]. exact (proj2 (H user1)).
Defined.

End ApplicationsCrudProps.
(** ** What moves the listing *)

Module ListingProps.
Import Py Store AuditService Admin Applications ApplicationsCrud AdminProps
       AdminAccessProps AdminUsersProps ApplicationsCrudProps Samples.
Local Open Scope handler_scope.

(** The cases of an audit row that fits its columns or does not. *)
Ltac split_fits :=
  repeat match goal with
         | |- context [fits ?n ?a && fits ?m ?b && fits ?k ?c] =>
             destruct (fits n a && fits m b && fits k c); simpl
         | |- context [fits ?n ?x] => destruct (fits n x); simpl
         end.

(** The application table is out of the reach of the user endpoints. *)
Lemma update_user_applications
    (user_id : UUID) (data : UserUpdateRequest) (request : HttpRequest)
    (admin : User.t) (db : Db) :
  applications (snd (run (update_user user_id data request admin) db))
    = applications db.
Proof.
  unfold run, update_user, log_action, bind, query. cbn [working].
  destruct (List.filter _ (users db)) as [|user [|u' l]]; simpl; try done.
  destruct (String.eqb (User.id user) (User.id admin)
            && is_False (upd_is_admin data)); simpl; [done|].
  destruct (upd_is_active data) as [b|], (upd_is_admin data) as [b'|]; simpl;
    repeat (match goal with
            | |- context [negb (Bool.eqb ?x ?y)] =>
                destruct (negb (Bool.eqb x y)); simpl
            end);
    split_fits;
    by destruct (String.eqb (User.id user) (User.id admin)).
Qed.

Lemma bulk_user_action_applications
    (data : BulkUserActionRequest) (request : HttpRequest) (admin : User.t)
    (db : Db) :
  applications (snd (run (bulk_user_action data request admin) db))
    = applications db.
Proof.
  unfold run, bulk_user_action.
  destruct (mem (User.id admin) (bulk_user_ids data) && _); [done|].
  unfold log_action, bind, query. cbn [working].
  destruct (0 <? _); split_fits; simpl; done.
Qed.

Lemma grant_users_frame (admin_id A : UUID) (user_ids : list UUID) :
  forall (granted : Z) (s s' : Session) (r : Exn + Z),
    grant_users admin_id A user_ids granted s = (r, s') ->
    committed s' = committed s /\
    applications (working s') = applications (working s).
Proof.
  induction user_ids as [|u rest IH]; intros granted s s' r Hrun.
  { by injection Hrun as _ <-. }
  simpl in Hrun. unfold bind at 1 in Hrun. unfold bind at 1 in Hrun.
  unfold query in Hrun.
  destruct (user_grants u A (working s)) as [|x [|y l]]; simpl in Hrun.
  - unfold bind at 1 in Hrun. unfold update in Hrun.
    by apply IH in Hrun as [-> ->].
  - by apply IH in Hrun.
  - by injection Hrun as _ <-.
Qed.

Lemma grant_groups_frame (admin_id A : UUID) (group_ids : list UUID) :
  forall (granted : Z) (s s' : Session) (r : Exn + Z),
    grant_groups admin_id A group_ids granted s = (r, s') ->
    committed s' = committed s /\
    applications (working s') = applications (working s).
Proof.
  induction group_ids as [|u rest IH]; intros granted s s' r Hrun.
  { by injection Hrun as _ <-. }
  simpl in Hrun. unfold bind at 1 in Hrun. unfold bind at 1 in Hrun.
  unfold query in Hrun.
  destruct (group_grants u A (working s)) as [|x [|y l]]; simpl in Hrun.
  - unfold bind at 1 in Hrun. unfold update in Hrun.
    by apply IH in Hrun as [-> ->].
  - by apply IH in Hrun.
  - by injection Hrun as _ <-.
Qed.

(** Nor do the access endpoints reach it, whatever their outcome. *)
Lemma grant_access_applications
    (data : AccessGrantRequest) (request : HttpRequest) (admin : User.t)
    (db : Db) :
  applications (snd (run (grant_access data request admin) db))
    = applications db.
Proof.
  unfold run, grant_access, application_by_id.
  unfold bind at 1. unfold bind at 1. unfold query. cbn [working].
  destruct (List.filter _ (applications db)) as [|app [|a' l]]; simpl;
    try done.
  set (s0 := {| committed := db; working := db |}).
  unfold bind at 1.
  destruct (grant_users _ _ _ 0 s0) as [[e|n1] s1] eqn:E1;
    apply grant_users_frame in E1 as [Hc1 Ha1]; simpl in *;
    [by rewrite Hc1|].
  unfold bind at 1.
  destruct (grant_groups _ _ _ n1 s1) as [[e|n2] s2] eqn:E2;
    apply grant_groups_frame in E2 as [Hc2 Ha2]; simpl in *;
    [by rewrite Hc2, Hc1|].
  destruct (0 <? n2); unfold bind, log_action, update, commit, ret; simpl;
    split_fits; by rewrite ?Hc2, ?Hc1, ?Ha2, ?Ha1.
Qed.

Lemma revoke_access_applications
    (data : AccessRevokeRequest) (request : HttpRequest) (admin : User.t)
    (db : Db) :
  applications (snd (run (revoke_access data request admin) db))
    = applications db.
Proof.
  unfold run, revoke_access, application_by_id.
  unfold bind at 1. unfold bind at 1. unfold query. cbn [working].
  destruct (List.filter _ (applications db)) as [|app [|a' l]]; simpl;
    try done.
  - unfold bind at 1.
    rewrite (revoke_step _ _ _ (revokes_user_nil data)).
    unfold bind at 1. rewrite (revoke_step _ _ _ (revokes_group_nil data)).
    destruct (0 <? _); unfold bind, log_action, update, commit, ret; simpl;
      split_fits; done.
  - unfold bind at 1.
    rewrite (revoke_step _ _ _ (revokes_user_nil data)).
    unfold bind at 1. rewrite (revoke_step _ _ _ (revokes_group_nil data)).
    destruct (0 <? _); unfold bind, log_action, update, commit, ret; simpl;
      split_fits; done.
Qed.

(** The public flag is written to the application table, but the
    listing does not read it. *)
Lemma set_application_public_listing
    (app_id : UUID) (is_public : bool) (admin : User.t) (db : Db) (d : string) :
  map Application.id
      (List.filter (department_gate d)
         (List.filter Application.is_active
            (applications
               (snd (run (set_application_public app_id is_public admin) db)))))
    = map Application.id
        (List.filter (department_gate d)
           (List.filter Application.is_active (applications db))).
Proof.
  unfold run, set_application_public, application_by_id.
  unfold bind at 1. unfold bind at 1. unfold query. cbn [working].
  destruct (List.filter _ (applications db)) as [|app [|a' l]] eqn:Hrow; simpl;
    try done.
  apply store_application_same_listing.
  intros r Hr Hidr.
  assert (r = app) as ->; [|done].
  apply (filter_singleton_all
           (fun a => String.eqb (Application.id a) app_id)
           (applications db)); [done..|].
  change (Application.id (with_is_public is_public app))
    with (Application.id app) in Hidr.
  rewrite Hidr.
  apply (filter_singleton
           (fun a => String.eqb (Application.id a) app_id) _ _ Hrow).
Qed.

(** Of the admin mutations only the one that sets the departments can
    change what a user sees in the listing: after any other, be it a user
    update, a bulk action, a grant, a revocation or a change of the public
    flag, and whatever its outcome, every user is shown the same
    applications as before. *)
Theorem listing_moved_only_by_departments
    (m : Mutation) (request : HttpRequest) (admin : User.t) (db : Db) :
  (forall app_id departments, m <> SetApplicationDepartments app_id departments) ->
  forall u,
    map Application.id (listed (snd (run (handle m request admin) db)) u)
      = map Application.id (listed db u).
Proof.
  intros Hm u. rewrite !listed_eq.
  destruct m as [uid data|data|data|data|app_id b|app_id ds]; cbn [handle].
  - by rewrite update_user_applications.
  - by rewrite bulk_user_action_applications.
  - by rewrite grant_access_applications.
  - by rewrite revoke_access_applications.
  - apply set_application_public_listing.
  - by destruct (Hm app_id ds).
Qed.

Lemma listing_moved_only_by_departments_witness :
  map Application.id
      (listed (snd (run (handle (SetApplicationPublic "app-1" true)
                           request0 admin0) db0)) user1)
    = map Application.id (listed db0 user1).
Proof.
  apply (listing_moved_only_by_departments
           (SetApplicationPublic "app-1" true) request0 admin0 db0).
  intros app_id departments. discriminate.
Defined.

End ListingProps.
(** ** Further properties of the authorization endpoint *)

Module OAuthMore.
Import Py Store OAuth Samples OAuthSamples.
Local Open Scope handler_scope.




End OAuthMore.
(** ** Properties of the paging of the audit log *)

Module AuditLogPageProps.
Import Store AuditLogPage.

Lemma firstn_add {A : Type} (a b : nat) (l : list A) :
  firstn (a + b) l = firstn a l ++ firstn b (skipn a l).
Proof.
  revert l. induction a as [|a IH]; intros l; [done|].
  destruct l as [|x l]; [simpl; by rewrite List.firstn_nil|]. simpl. by rewrite IH.
Qed.

Lemma concat_pages {A : Type} (n : nat) (l : list A) (k : nat) :
  concat (map (fun i => firstn n (skipn (i * n) l)) (seq 0 k))
    = firstn (k * n) l.
Proof.
  induction k as [|k IH]; [done|].
  rewrite seq_S, map_app, concat_app, IH. simpl.
  rewrite app_nil_r, (Nat.add_comm n (k * n)). by rewrite firstn_add.
Qed.

Lemma pages_bound (total per_page page : Z) :
  1 <= per_page -> 0 <= total ->
  (page <= (total + per_page - 1) / per_page
   <-> (page - 1) * per_page < total).
Proof.
  intros Hpp Ht. split.
  - intros H.
    assert (page * per_page <= total + per_page - 1); [|lia].
    pose proof (Z.mul_div_le (total + per_page - 1) per_page ltac:(lia)).
    nia.
  - intros H. apply Z.div_le_lower_bound; lia.
Qed.

(** The reply's [pages] is the number of pages that hold rows: with at
    least one row per page, page [p >= 1] has items exactly when
    [p <= pages], no page has more than [per_page] items, and the pages
    1 to [pages], one after the other, are the selected rows, each once
    and in order. *)
Theorem audit_pages_cover {A : Type} (rows : list A) (per_page : Z) :
  1 <= per_page ->
  (forall page, 1 <= page ->
     (items rows page per_page <> [] <-> page <= pages rows per_page)) /\
  (forall page, (length (items rows page per_page) <= Z.to_nat per_page)%nat) /\
  concat (map (fun i => items rows (Z.of_nat i + 1) per_page)
              (seq 0 (Z.to_nat (pages rows per_page))))
    = rows.
Proof.
  intros Hpp. split; [|split].
  - intros page Hp. unfold pages, total.
    rewrite pages_bound by lia. unfold items, offset.
    assert (0 <= (page - 1) * per_page) as Hz by nia.
    set (z := (page - 1) * per_page) in *.
    set (o := Z.to_nat z).
    assert (z < Z.of_nat (length rows) <-> (o < length rows)%nat) as ->
      by (unfold o; lia).
    split.
    + intros Hne. destruct (Nat.lt_ge_cases o (length rows)) as [|Hge]; [done|].
      destruct Hne. rewrite skipn_all2 by done. apply List.firstn_nil.
    + intros Hlt Hnil.
      pose proof (length_skipn o rows) as Hlen.
      destruct (skipn o rows) as [|x l] eqn:E; [simpl in Hlen; lia|].
      destruct (Z.to_nat per_page) as [|n] eqn:En; [lia|]. discriminate.
  - intros page. unfold items. rewrite length_firstn. lia.
  - unfold items, offset.
    rewrite (map_ext _ (fun i => firstn (Z.to_nat per_page)
                                   (skipn (i * Z.to_nat per_page) rows))).
    + rewrite concat_pages. apply firstn_all2.
      assert (Z.of_nat (length rows)
              <= pages rows per_page * per_page); [|
        assert (0 <= pages rows per_page)
          by (unfold pages, total; apply Z.div_pos; lia); nia].
      unfold pages, total.
      pose proof (Z.mod_pos_bound (Z.of_nat (length rows) + per_page - 1)
                    per_page ltac:(lia)).
      pose proof (Z.div_mod (Z.of_nat (length rows) + per_page - 1) per_page
                    ltac:(lia)).
      nia.
    + intros i. do 2 f_equal. nia.
Qed.

Lemma audit_pages_cover_witness :
  concat (map (fun i => items [1; 2; 3; 4; 5] (Z.of_nat i + 1) 2)
              (seq 0 (Z.to_nat (pages [1; 2; 3; 4; 5] 2))))
    = [1; 2; 3; 4; 5].
Proof.
  apply (audit_pages_cover [1; 2; 3; 4; 5] 2). lia.
Defined.

End AuditLogPageProps.
(** ** An audit row that cannot be written *)

Module AuditAbortProps.
Import Py Store AuditService Admin AccessInv AuditScope AdminProps
       AdminUsersProps AdminAccessProps ListingProps Samples.
Local Open Scope handler_scope.

Lemma update_user_blocked
    (user_id : UUID) (data : UserUpdateRequest) (request : HttpRequest)
    (admin : User.t) (db : Db) :
  fits 45 (ip_of request) = false ->
  snd (run (update_user user_id data request admin) db) = db.
Proof.
  intros Hfit.
  unfold run, update_user, log_action, bind, query. cbn [working].
  destruct (List.filter _ (users db)) as [|user [|u' l]] eqn:Hrow; simpl;
    try done.
  assert (set_users (store_user user) db = db) as Hsame.
  { apply set_users_id. unfold store_user. apply map_fixed. intros r Hr.
    destruct (String.eqb (User.id r) (User.id user)) eqn:E; [|done].
    symmetry. apply (filter_singleton_all _ _ _ _ Hrow Hr).
    apply String.eqb_eq in E. rewrite E.
    apply (filter_singleton _ _ _ Hrow). }
  destruct (String.eqb (User.id user) (User.id admin)
            && is_False (upd_is_admin data)); simpl; [done|].
  destruct (upd_is_active data) as [b|], (upd_is_admin data) as [b'|]; simpl;
    repeat (match goal with
            | |- context [negb (Bool.eqb ?x ?y)] =>
                destruct (negb (Bool.eqb x y)); simpl
            end);
    rewrite ?Hfit; simpl;
    by destruct (String.eqb (User.id user) (User.id admin)).
Qed.

Lemma bulk_user_action_blocked
    (data : BulkUserActionRequest) (request : HttpRequest) (admin : User.t)
    (db : Db) :
  fits 45 (ip_of request) = false ->
  snd (run (bulk_user_action data request admin) db) = db.
Proof.
  intros Hfit.
  destruct (mem (User.id admin) (bulk_user_ids data)
            && mem (bulk_action data) ["deactivate"; "remove_admin"]) eqn:Hguard.
  { unfold run, bulk_user_action. by rewrite Hguard. }
  destruct (List.filter
              (fun u => snd (bulk_step (bulk_action data) admin u))
              (List.filter (fun u => mem (User.id u) (bulk_user_ids data))
                           (users db))) as [|u0 l] eqn:Hch.
  - rewrite bulk_nothing_to_do; [done..|].
    intros u Hu Hm. apply not_true_iff_false. intros Hs.
    assert (In u []) as []. rewrite <- Hch.
    apply filter_In. split; [|done]. by apply filter_In.
  - unfold run, bulk_user_action. rewrite Hguard.
    unfold log_action, bind, query. cbn [working]. rewrite Hch.
    change (0 <? Z.of_nat (length (u0 :: l))) with true. cbv iota.
    rewrite Hfit, andb_false_r. reflexivity.
Qed.

Lemma grant_access_blocked
    (data : AccessGrantRequest) (request : HttpRequest) (admin : User.t)
    (db : Db) :
  fits 45 (ip_of request) = false ->
  snd (run (grant_access data request admin) db) = db.
Proof.
  intros Hfit.
  destruct (run (grant_access data request admin) db) as [[e|body] db'] eqn:Hrun.
  - (* the request failed: nothing was committed *)
    revert Hrun. unfold run, grant_access, application_by_id.
    unfold bind at 1. unfold bind at 1. unfold query. cbn [working].
    destruct (List.filter _ (applications db)) as [|app [|a' l]]; simpl;
      try (by intros [= _ <-]).
    set (s0 := {| committed := db; working := db |}).
    unfold bind at 1.
    destruct (grant_users _ _ _ 0 s0) as [[e1|n1] s1] eqn:E1;
      apply grant_users_frame in E1 as [Hc1 _]; simpl in *;
      [intros [= _ <-]; by rewrite Hc1|].
    unfold bind at 1.
    destruct (grant_groups _ _ _ n1 s1) as [[e2|n2] s2] eqn:E2;
      apply grant_groups_frame in E2 as [Hc2 _]; simpl in *;
      [intros [= _ <-]; by rewrite Hc2, Hc1|].
    destruct (0 <? n2); unfold bind, log_action, update, commit, ret; simpl;
      rewrite ?Hfit; simpl; [|discriminate].
    intros [= _ <-]. by rewrite Hc2, Hc1.
  - (* the request went through: it had nothing to add *)
    apply grant_access_run in Hrun
      as (app & a1 & a2 & logs & _ & -> & _ & Hlogs & _ & _ & _ & _ & Hok).
    simpl. destruct (a1 ++ a2) as [|r l] eqn:Ea.
    + destruct logs; [|discriminate].
      rewrite set_audit_logs_id by apply app_nil_r.
      apply set_application_access_id, app_nil_r.
    + rewrite Hok in Hfit; [discriminate|done].
Qed.

Lemma revoke_access_blocked
    (data : AccessRevokeRequest) (request : HttpRequest) (admin : User.t)
    (db : Db) :
  fits 45 (ip_of request) = false ->
  snd (run (revoke_access data request admin) db) = db.
Proof.
  intros Hfit.
  destruct (Nat.le_gt_cases
              (length (List.filter
                         (fun a => String.eqb (Application.id a)
                                     (revoke_application_id data))
                         (applications db))) 1) as [Happ|Happ].
  - destruct (List.filter
                (fun a => revokes_user data a || revokes_group data a)
                (application_access db)) as [|r l] eqn:E.
    + destruct (revoke_access_ok data request admin db Happ)
        as (logs & -> & Hlogs); [by rewrite E|].
      rewrite E in Hlogs. destruct logs; [|discriminate]. simpl.
      rewrite set_audit_logs_id by apply app_nil_r.
      apply set_application_access_id, filter_all.
      intros a Ha. apply negb_true_iff, not_true_iff_false. intros Hm.
      assert (In a []) as []. rewrite <- E. by apply filter_In.
    + rewrite revoke_access_refused; [done..| |done]. by rewrite E.
  - unfold run, revoke_access, application_by_id.
    unfold bind at 1. unfold bind at 1. unfold bind at 1. unfold query.
    cbn [working].
    destruct (List.filter _ (applications db)) as [|a [|a' l]]; simpl in *;
      [lia | lia | done].
Qed.

(** An audit row that does not fit its columns stops the mutation it
    belongs to.  When the address of the request, the first entry of
    [X-Forwarded-For], is longer than the 45 characters of
    [ip_address], no user update, bulk action, grant or revocation takes
    effect: the handler has nothing to change, or it fails at the flush
    of its audit row, before its commit, and the store is as it was. *)
Theorem unwritable_audit_row_blocks_mutation
    (m : Mutation) (request : HttpRequest) (admin : User.t) (db : Db) :
  audited m = true ->
  fits 45 (ip_of request) = false ->
  snd (run (handle m request admin) db) = db.
Proof.
  intros Hm Hfit.
  destruct m as [uid data|data|data|data|app_id b|app_id ds]; cbn [handle];
    try discriminate.
  - by apply update_user_blocked.
  - by apply bulk_user_action_blocked.
  - by apply grant_access_blocked.
  - by apply revoke_access_blocked.
Qed.

Lemma unwritable_audit_row_blocks_mutation_witness :
  fst (run (handle (UpdateUser "u-1"
                      {| upd_is_active := Some false; upd_is_admin := None |})
              long_forwarded_request admin0) db0)
    = inl (Unhandled "DataError") /\
  snd (run (handle (UpdateUser "u-1"
                      {| upd_is_active := Some false; upd_is_admin := None |})
              long_forwarded_request admin0) db0)
    = db0.
Proof.
  split; [reflexivity|].
  apply (unwritable_audit_row_blocks_mutation
           (UpdateUser "u-1"
              {| upd_is_active := Some false; upd_is_admin := None |})
           long_forwarded_request admin0 db0); reflexivity.
Defined.

End AuditAbortProps.
